(** * Authentication core of the event manager: a shallow embedding

    Embeds [server/auth.ts] (password hasher, passport strategies and the
    authentication routes, in the revision that has the development login and
    the profile and password routes), the users and activities part of
    [server/storage.ts] (both [MemStorage] and [DatabaseStorage]), the
    [users] and [activities] tables of [shared/schema.ts] and the
    create-admin route of [server/routes.ts], and states the properties of the
    specification on them.

    Conventions of the embedding.
    - A JavaScript string is the [string] of its UTF-8 encoding: a code
      unit below 128 is an ASCII character, and every other character takes
      two to four code units. The regular expression class [\s] is the list
      of its characters in that encoding. [toLowerCase], which follows the
      case mappings of Unicode, is not modelled: it is a parameter of the
      development, as [scrypt] is.
    - A [Buffer] is a [list byte].
    - A JavaScript number used as a record id is a [Z]; [NaN] (what
      [parseInt] yields on a route parameter that is no number) is [None].
    - [async] functions run to completion one after the other; a rejected
      promise or a thrown error is the [Throw] result of the monad [M],
      which keeps the store as it was when the error was raised.
    - [new Date()], [process.env] and [randomBytes] read the environment
      [Env] of the request. *)

From Stdlib Require Import String Ascii List ZArith NArith Bool Lia Permutation.
From Stdlib Require Import Init.Byte.
Import ListNotations.
Local Open Scope string_scope.
Local Open Scope Z_scope.

(** ** JavaScript strings and buffers *)

Module Js.

(** ["0123456789abcdef"[n]], the digit [Buffer.toString("hex")] writes. *)
Definition hexDigit (n : N) : ascii :=
  if (n <? 10)%N then ascii_of_N (48 + n) else ascii_of_N (87 + n).

(** The value of a hexadecimal digit, in either case; [None] otherwise. *)
Definition unhex (c : ascii) : option N :=
  let n := N_of_ascii c in
  if ((48 <=? n) && (n <=? 57))%N then Some (n - 48)%N
  else if ((97 <=? n) && (n <=? 102))%N then Some (n - 87)%N
  else if ((65 <=? n) && (n <=? 70))%N then Some (n - 55)%N
  else None.

Definition byteToHex (b : byte) : string :=
  String (hexDigit (Byte.to_N b / 16)) (String (hexDigit (Byte.to_N b mod 16)) EmptyString).

(** [buf.toString("hex")] *)
Fixpoint toStringHex (buf : list byte) : string :=
  match buf with
  | [] => EmptyString
  | b :: rest => byteToHex b ++ toStringHex rest
  end.

(** [Buffer.from(s, "hex")]: decodes pairs of digits and stops at the first
    pair that is not hexadecimal; a trailing single character is dropped.
    It never throws. *)
Fixpoint bufferFromHex (s : string) : list byte :=
  match s with
  | String c1 (String c2 rest) =>
      match unhex c1, unhex c2 with
      | Some h, Some l =>
          match Byte.of_N (16 * h + l) with
          | Some b => b :: bufferFromHex rest
          | None => []
          end
      | _, _ => []
      end
  | _ => []
  end.

(** [s.split(sep)] for a one-character separator: never empty. *)
Fixpoint split (sep : ascii) (s : string) : list string :=
  match s with
  | EmptyString => [EmptyString]
  | String c rest =>
      if Ascii.eqb c sep then EmptyString :: split sep rest
      else match split sep rest with
           | hd :: tl => String c hd :: tl
           | [] => [String c EmptyString]
           end
  end.

(** [s.startsWith(w)] *)
Fixpoint startsWith (w s : string) : bool :=
  match w, s with
  | EmptyString, _ => true
  | String a w', String b s' => Ascii.eqb a b && startsWith w' s'
  | String _ _, EmptyString => false
  end.

(** The string of the code units [l]. *)
Definition ofCodes (l : list Z) : string :=
  fold_right (fun n s => String (ascii_of_N (Z.to_N n)) s) EmptyString l.

(** The characters of the class [\s] (the WhiteSpace and LineTerminator
    code points of ECMAScript), each in UTF-8. *)
Definition whitespace : list string :=
  [ofCodes [9];               (* U+0009 character tabulation *)
   ofCodes [10];              (* U+000A line feed *)
   ofCodes [11];              (* U+000B line tabulation *)
   ofCodes [12];              (* U+000C form feed *)
   ofCodes [13];              (* U+000D carriage return *)
   ofCodes [32];              (* U+0020 space *)
   ofCodes [194; 160];        (* U+00A0 no-break space *)
   ofCodes [225; 154; 128];   (* U+1680 ogham space mark *)
   ofCodes [226; 128; 128];   (* U+2000 en quad *)
   ofCodes [226; 128; 129];   (* U+2001 em quad *)
   ofCodes [226; 128; 130];   (* U+2002 en space *)
   ofCodes [226; 128; 131];   (* U+2003 em space *)
   ofCodes [226; 128; 132];   (* U+2004 three-per-em space *)
   ofCodes [226; 128; 133];   (* U+2005 four-per-em space *)
   ofCodes [226; 128; 134];   (* U+2006 six-per-em space *)
   ofCodes [226; 128; 135];   (* U+2007 figure space *)
   ofCodes [226; 128; 136];   (* U+2008 punctuation space *)
   ofCodes [226; 128; 137];   (* U+2009 thin space *)
   ofCodes [226; 128; 138];   (* U+200A hair space *)
   ofCodes [226; 128; 168];   (* U+2028 line separator *)
   ofCodes [226; 128; 169];   (* U+2029 paragraph separator *)
   ofCodes [226; 128; 175];   (* U+202F narrow no-break space *)
   ofCodes [226; 129; 159];   (* U+205F medium mathematical space *)
   ofCodes [227; 128; 128];   (* U+3000 ideographic space *)
   ofCodes [239; 187; 191]].  (* U+FEFF zero width no-break space *)

(** The number of code units of the character of [\s] that [s] starts with;
    [0] when it starts with none. *)
Definition whitespaceLength (s : string) : nat :=
  match find (fun w => startsWith w s) whitespace with
  | Some w => String.length w
  | None => 0%nat
  end.

(** [s.replace(/\s+/g, by)]: every maximal run of whitespace becomes one
    copy of [by]. [inRun] tells that the previous character was whitespace,
    and [skip] counts the code units of it that are still to be passed. *)
Fixpoint replaceRuns (by_ : string) (inRun : bool) (skip : nat) (s : string) : string :=
  match s with
  | EmptyString => EmptyString
  | String c rest =>
      match skip with
      | S k => replaceRuns by_ inRun k rest
      | O =>
          match whitespaceLength s with
          | S k =>
              if inRun then replaceRuns by_ true k rest
              else by_ ++ replaceRuns by_ true k rest
          | O => String c (replaceRuns by_ false 0 rest)
          end
      end
  end.

Definition replaceWhitespace (by_ : string) (s : string) : string :=
  replaceRuns by_ false 0 s.

(** The string holds ASCII characters only. *)
Fixpoint isAscii (s : string) : bool :=
  match s with
  | EmptyString => true
  | String c rest => (N_of_ascii c <? 128)%N && isAscii rest
  end.

Definition isUpper (c : ascii) : bool :=
  let n := N_of_ascii c in ((65 <=? n) && (n <=? 90))%N.

Definition lowerChar (c : ascii) : ascii :=
  if isUpper c then ascii_of_N (N_of_ascii c + 32) else c.

(** [s.toLowerCase()] on a string of ASCII characters: the letters A to Z
    become a to z. *)
Fixpoint toLowerCaseAscii (s : string) : string :=
  match s with
  | EmptyString => EmptyString
  | String c rest => String (lowerChar c) (toLowerCaseAscii rest)
  end.

(** [/[A-Z]/.test(s)] *)
Fixpoint hasUpper (s : string) : bool :=
  match s with
  | EmptyString => false
  | String c rest => isUpper c || hasUpper rest
  end.

(** [/\s/.test(s)] *)
Fixpoint hasWhitespace (s : string) : bool :=
  match s with
  | EmptyString => false
  | String c rest => negb (Nat.eqb (whitespaceLength s) 0) || hasWhitespace rest
  end.

(** [a || b] on strings: the empty string is falsy. *)
Definition orElse (a : option string) (b : string) : string :=
  match a with
  | Some (String c r) => String c r
  | _ => b
  end.

(** [`${a}`] for a nullable string *)
Definition template (a : option string) : string :=
  match a with
  | Some s => s
  | None => "null"
  end.

(** [a || null] *)
Definition orNull (a : option string) : option string :=
  match a with
  | Some (String c r) => Some (String c r)
  | _ => None
  end.

Fixpoint bytes_eqb (a b : list byte) : bool :=
  match a, b with
  | [], [] => true
  | x :: a', y :: b' => Byte.eqb x y && bytes_eqb a' b'
  | _, _ => false
  end.

(** [s.includes(c)] for one character *)
Fixpoint contains (c : ascii) (s : string) : bool :=
  match s with
  | EmptyString => false
  | String x rest => Ascii.eqb x c || contains c rest
  end.

End Js.

(** ** Data model ([shared/schema.ts]) *)

(** [userRoleEnum] *)
Inductive Role := RoleAdmin | RoleUser.

(** The providers the code writes. [authProviderEnum] lists the first three;
    ["dev"] is what the development bypass passes. *)
Inductive Provider := Local | Google | Facebook | Dev.

Definition authProviderEnum : list Provider := [Local; Google; Facebook].

Definition Role_eqb (a b : Role) : bool :=
  match a, b with
  | RoleAdmin, RoleAdmin | RoleUser, RoleUser => true
  | _, _ => false
  end.

Definition Provider_eqb (a b : Provider) : bool :=
  match a, b with
  | Local, Local | Google, Google | Facebook, Facebook | Dev, Dev => true
  | _, _ => false
  end.

Definition providerName (p : Provider) : string :=
  match p with
  | Local => "local" | Google => "google" | Facebook => "facebook" | Dev => "dev"
  end.

(** A row of the [users] table. *)
Record User := mkUser {
  id : Z;
  username : string;
  email : string;
  password : option string;
  name : option string;
  role : Role;
  provider : Provider;
  providerId : option string;
  avatarUrl : option string;
  createdAt : Z
}.

(** [InsertUser]: [id] and [createdAt] omitted, defaulted columns optional. *)
Record InsertUser := mkInsertUser {
  i_username : string;
  i_email : string;
  i_password : option string;
  i_name : option string;
  i_role : option Role;
  i_provider : option Provider;
  i_providerId : option string;
  i_avatarUrl : option string
}.

(** [Partial<InsertUser>]: [None] is a key that is not set; the nullable
    columns can be set to [null]. *)
Record PartialUser := mkPartialUser {
  p_username : option string;
  p_email : option string;
  p_password : option (option string);
  p_name : option (option string);
  p_role : option Role;
  p_provider : option Provider;
  p_providerId : option (option string);
  p_avatarUrl : option (option string)
}.

(** A row of the [activities] table. *)
Record Activity := mkActivity {
  a_id : Z;
  a_eventId : option Z;
  a_attendeeId : option Z;
  a_userId : option Z;
  a_action : string;
  a_timestamp : Z;
  a_description : string
}.

Record InsertActivity := mkInsertActivity {
  ia_action : string;
  ia_description : string;
  ia_userId : option Z;
  ia_eventId : option Z;
  ia_attendeeId : option Z;
  ia_timestamp : option Z
}.

(** A session of the session store: [passportUser] is
    [session.passport.user], the id [serializeUser] wrote; [expires] is the
    time from which the store no longer returns it. *)
Record Session := mkSession {
  token : Z;
  passportUser : option Z;
  expires : Z
}.

(** The profile Google returns: [emails] and [photos] list the [value]s, and
    are empty when the profile has none. *)
Record GoogleProfile := mkGoogleProfile {
  g_id : string;
  displayName : string;
  emails : list string;
  photos : list string
}.

(** The two implementations of [IStorage]. *)
Inductive Backend := MemStorage | DatabaseStorage.

(** The store. [users] and [activities] hold the rows in the order in which
    a lookup goes through them: the iteration order of the [Map] of
    [MemStorage], which is the order of insertion, and the order in which
    PostgreSQL returns the rows of the table to a [SELECT] without
    [ORDER BY], which is the order in which the row versions were written.
    [userId] and [activityId] are the next ids ([this.userId], the [serial]
    sequences). *)
Record Storage := mkStorage {
  backend : Backend;
  users : list User;
  userId : Z;
  activities : list Activity;
  activityId : Z;
  sessions : list Session;
  sessionId : Z
}.

Definition emptyStorage (b : Backend) : Storage :=
  mkStorage b [] 1 [] 1 [] 1.

(** What a request reads from outside the store. *)
Record Env := mkEnv {
  now : Z;                       (* new Date() *)
  NODE_ENV : option string;      (* process.env.NODE_ENV *)
  entropy : list byte            (* what randomBytes(16) returns *)
}.

(** ** Errors and the monad of the handlers *)

Inductive Exn :=
| ERR_INVALID_ARG_TYPE           (* scrypt: salt is undefined *)
| ERR_CRYPTO_TIMING_SAFE_EQUAL_LENGTH   (* timingSafeEqual: byte lengths differ *)
| UniqueViolation (index : string)      (* insert or update against email_idx *)
| InvalidEnumValue (enum : string)      (* a provider outside auth_provider *)
| NoValuesToSet                         (* update with an empty set *)
| InvalidInputSyntax                    (* NaN where the table has an integer *)
| UndefinedProperty.                    (* a property read off undefined *)

Inductive Result (A : Type) :=
| Ok (a : A)
| Throw (e : Exn).
Arguments Ok {A} a.
Arguments Throw {A} e.

Definition M (A : Type) : Type := Env -> Storage -> Result A * Storage.

Definition ret {A} (a : A) : M A := fun _ st => (Ok a, st).

Definition bind {A B} (m : M A) (k : A -> M B) : M B :=
  fun env st =>
    match m env st with
    | (Ok a, st') => k a env st'
    | (Throw e, st') => (Throw e, st')
    end.

Definition throw {A} (e : Exn) : M A := fun _ st => (Throw e, st).

(** [try { m } catch (error) { h error }] *)
Definition tryCatch {A} (m : M A) (h : Exn -> M A) : M A :=
  fun env st =>
    match m env st with
    | (Ok a, st') => (Ok a, st')
    | (Throw e, st') => h e env st'
    end.

Definition ask : M Env := fun env st => (Ok env, st).
Definition get : M Storage := fun _ st => (Ok st, st).
Definition put (st : Storage) : M unit := fun _ _ => (Ok tt, st).

(** A pure computation that may throw, run inside a handler. *)
Definition lift {A} (r : Result A) : M A := fun _ st => (r, st).

Declare Scope monad_scope.
Delimit Scope monad_scope with monad.
Notation "x <- m ;; k" := (bind m (fun x => k))
  (at level 61, m at next level, right associativity) : monad_scope.
Notation "m ;;; k" := (bind m (fun _ => k))
  (at level 61, right associativity) : monad_scope.
Local Open Scope monad_scope.

Definition gets {A} (f : Storage -> A) : M A := fun _ st => (Ok (f st), st).

(** ** The storage layer ([server/storage.ts]) *)

Definition withUsers (us : list User) (next : Z) (st : Storage) : Storage :=
  mkStorage (backend st) us next (activities st) (activityId st)
            (sessions st) (sessionId st).

Definition withActivities (acts : list Activity) (next : Z) (st : Storage) : Storage :=
  mkStorage (backend st) (users st) (userId st) acts next
            (sessions st) (sessionId st).

Definition withSessions (ss : list Session) (next : Z) (st : Storage) : Storage :=
  mkStorage (backend st) (users st) (userId st) (activities st) (activityId st)
            ss next.

Definition hasId (k : Z) (u : User) : bool := id u =? k.
Definition hasUsername (n : string) (u : User) : bool := String.eqb (username u) n.
Definition hasEmail (e : string) (u : User) : bool := String.eqb (email u) e.
Definition hasProviderId (p : Provider) (pid : string) (u : User) : bool :=
  Provider_eqb (provider u) p &&
  match providerId u with
  | Some x => String.eqb x pid
  | None => false
  end.

(** [getUser(id)] *)
Definition getUser (k : Z) : M (option User) :=
  gets (fun st => find (hasId k) (users st)).

Definition getUserByUsername (n : string) : M (option User) :=
  gets (fun st => find (hasUsername n) (users st)).

Definition getUserByEmail (e : string) : M (option User) :=
  gets (fun st => find (hasEmail e) (users st)).

Definition getUserByProviderId (p : Provider) (pid : string) : M (option User) :=
  gets (fun st => find (hasProviderId p pid) (users st)).

(** The row [createUser] builds from [userData]. *)
Definition newUser (k : Z) (t : Z) (d : InsertUser) : User :=
  mkUser k (i_username d) (i_email d)
         (Js.orNull (i_password d))
         (Js.orNull (i_name d))
         (match i_role d with Some r => r | None => RoleUser end)
         (match i_provider d with Some p => p | None => Local end)
         (Js.orNull (i_providerId d))
         (Js.orNull (i_avatarUrl d))
         t.

(** The constraints of the [users] table that PostgreSQL checks a written
    value against: the [auth_provider] enum and the unique index [email_idx].
    [others] are the rows the index compares the written email with. *)
Definition inProviderEnum (p : Provider) : bool :=
  existsb (Provider_eqb p) authProviderEnum.

Definition emailTaken (e : string) (others : list User) : bool :=
  existsb (hasEmail e) others.

Definition insertViolation (rows : list User) (u : User) : option Exn :=
  if negb (inProviderEnum (provider u)) then Some (InvalidEnumValue "auth_provider")
  else if emailTaken (email u) rows then Some (UniqueViolation "email_idx")
  else None.

Definition updateViolation (others : list User) (d : PartialUser) : option Exn :=
  if match p_provider d with Some p => negb (inProviderEnum p) | None => false end
  then Some (InvalidEnumValue "auth_provider")
  else if match p_email d with Some e => emailTaken e others | None => false end
  then Some (UniqueViolation "email_idx")
  else None.

(** [createUser(userData)]. The new key is fresh (every key of the [Map], and
    every id of the table, was drawn from the counter), so the row goes to the
    end. A refused insert leaves the table as it was. *)
Definition createUser (d : InsertUser) : M User :=
  env <- ask ;;
  st <- get ;;
  let u := newUser (userId st) (now env) d in
  match backend st with
  | MemStorage =>
      put (withUsers (users st ++ [u]) (userId st + 1) st) ;;;
      ret u
  | DatabaseStorage =>
      match insertViolation (users st) u with
      | Some e => throw e
      | None =>
          put (withUsers (users st ++ [u]) (userId st + 1) st) ;;;
          ret u
      end
  end.

(** [{ ...user, ...userData }] *)
Definition mergeUser (u : User) (d : PartialUser) : User :=
  mkUser (id u)
         (match p_username d with Some x => x | None => username u end)
         (match p_email d with Some x => x | None => email u end)
         (match p_password d with Some x => x | None => password u end)
         (match p_name d with Some x => x | None => name u end)
         (match p_role d with Some x => x | None => role u end)
         (match p_provider d with Some x => x | None => provider u end)
         (match p_providerId d with Some x => x | None => providerId u end)
         (match p_avatarUrl d with Some x => x | None => avatarUrl u end)
         (createdAt u).

Definition isEmptySet (d : PartialUser) : bool :=
  match d with
  | mkPartialUser None None None None None None None None => true
  | _ => false
  end.

(** The row with key [k] replaced by [v] where it is: [Map.set] on a key
    that is there keeps the place of the key in the iteration order. *)
Definition replaceRow (k : Z) (v : User) (rows : list User) : list User :=
  map (fun r => if hasId k r then v else r) rows.

(** [UPDATE ... WHERE id = k]: PostgreSQL writes the new version of the row
    behind the rows of the table, and a [SELECT] without [ORDER BY] returns it
    after them. *)
Definition moveRow (k : Z) (v : User) (rows : list User) : list User :=
  (filter (fun r => negb (hasId k r)) rows ++ [v])%list.

(** The table after the row with key [k] was written as [v]. *)
Definition writeRow (b : Backend) (k : Z) (v : User) (rows : list User) : list User :=
  match b with
  | MemStorage => replaceRow k v rows
  | DatabaseStorage => moveRow k v rows
  end.

(** [updateUser(id, userData)] *)
Definition updateUser (k : Z) (d : PartialUser) : M (option User) :=
  st <- get ;;
  match backend st with
  | MemStorage =>
      match find (hasId k) (users st) with
      | None => ret None
      | Some u =>
          let v := mergeUser u d in
          put (withUsers (writeRow MemStorage k v (users st)) (userId st) st) ;;;
          ret (Some v)
      end
  | DatabaseStorage =>
      if isEmptySet d then throw NoValuesToSet
      else
        match find (hasId k) (users st) with
        | None => ret None
        | Some u =>
            let v := mergeUser u d in
            match updateViolation (filter (fun r => negb (hasId k r)) (users st)) d with
            | Some e => throw e
            | None =>
                put (withUsers (writeRow DatabaseStorage k v (users st)) (userId st) st) ;;;
                ret (Some v)
            end
        end
  end.

(** [setUserRole(id, role)]: [{ ...user, role }], [.set({ role })]. *)
Definition setUserRole (k : Z) (r : Role) : M (option User) :=
  st <- get ;;
  match find (hasId k) (users st) with
  | None => ret None
  | Some u =>
      let v := mergeUser u (mkPartialUser None None None None (Some r) None None None) in
      put (withUsers (writeRow (backend st) k v (users st)) (userId st) st) ;;;
      ret (Some v)
  end.

(** [x || null] on an id: [0] is falsy. *)
Definition orNullId (x : option Z) : option Z :=
  match x with
  | Some 0 => None
  | _ => x
  end.

(** [createActivity(activityData)]: the log only grows. *)
Definition createActivity (d : InsertActivity) : M Activity :=
  env <- ask ;;
  st <- get ;;
  let a := mkActivity (activityId st)
                      (orNullId (ia_eventId d))
                      (orNullId (ia_attendeeId d))
                      (orNullId (ia_userId d))
                      (ia_action d)
                      (match ia_timestamp d with Some t => t | None => now env end)
                      (ia_description d) in
  put (withActivities (activities st ++ [a]) (activityId st + 1) st) ;;;
  ret a.

(** [getUser(parseInt(req.params.id))]: on [NaN] the [Map] has no such key,
    and PostgreSQL refuses the parameter. *)
Definition getUserParsed (k : option Z) : M (option User) :=
  match k with
  | Some k => getUser k
  | None =>
      st <- get ;;
      match backend st with
      | MemStorage => ret None
      | DatabaseStorage => throw InvalidInputSyntax
      end
  end.

(** ** Sessions (express-session and passport) *)

(** [cookie.maxAge]: one week, in milliseconds. *)
Definition maxAge : Z := 1000 * 60 * 60 * 24 * 7.

(** A request, as far as the session middleware reads it: the session token
    of its cookie, if it carries one. *)
Record Request := mkRequest { cookie : option Z }.

Definition liveSession (t : Z) (tnow : Z) (s : Session) : bool :=
  (token s =? t) && (tnow <? expires s).

(** [passport.session()] and [deserializeUser]: the identity [req.user] of a
    request. It is there when the cookie names a live session that carries a
    user id and that user is still stored. *)
Definition identity (tnow : Z) (req : Request) (st : Storage) : option User :=
  match cookie req with
  | None => None
  | Some t =>
      match find (liveSession t tnow) (sessions st) with
      | None => None
      | Some s =>
          match passportUser s with
          | None => None
          | Some uid => find (hasId uid) (users st)
          end
      end
  end.

(** [req.user]; [req.isAuthenticated()] tells whether it is set. *)
Definition reqUser (req : Request) : M (option User) :=
  env <- ask ;;
  gets (identity (now env) req).

Definition dropSession (req : Request) (ss : list Session) : list Session :=
  match cookie req with
  | None => ss
  | Some t => filter (fun s => negb (token s =? t)) ss
  end.

(** [req.login(user, cb)]: the session of the request is regenerated under a
    new token, [serializeUser] writes [user.id] into it, and the token is set
    as the cookie of the response. *)
Definition reqLogin (req : Request) (u : User) : M Z :=
  env <- ask ;;
  st <- get ;;
  let t := sessionId st in
  put (withSessions (dropSession req (sessions st)
                       ++ [mkSession t (Some (id u)) (now env + maxAge)])
                    (t + 1) st) ;;;
  ret t.

(** [req.logout(cb)]: passport removes the user from the session of the
    request and regenerates the session, as [req.login] does: the session of
    the request is destroyed, and a new one that carries no user is stored
    under a new token, which is set as the cookie of the response. This
    happens on every logout, also when the request came without a session. *)
Definition reqLogout (req : Request) : M Z :=
  env <- ask ;;
  st <- get ;;
  let t := sessionId st in
  put (withSessions (dropSession req (sessions st)
                       ++ [mkSession t None (now env + maxAge)])
                    (t + 1) st) ;;;
  ret t.

(** ** Responses *)

Inductive Body :=
| JsonMessage (message : string)
| JsonUser (k : Z) (uname mail : string) (nm : option string)
           (r : Role) (avatar : option string)
| JsonRow (u : option User)
| JsonPromoted (message : string) (k : Z) (uname : string) (r : Role)
| JsonAdminCredentials (message uname pw : string)
| Text (s : string)
| Redirect (url : string).

Record Response := mkResponse {
  status : Z;
  body : Body;
  setCookie : option Z
}.

Definition json (code : Z) (b : Body) : Response := mkResponse code b None.

(** [{ id, username, email, name, role, avatarUrl }] of a user. *)
Definition publicUser (u : User) : Body :=
  JsonUser (id u) (username u) (email u) (name u) (role u) (avatarUrl u).

Definition redirect (url : string) : Response := mkResponse 302 (Redirect url) None.

Definition errMessage (e : Exn) : string :=
  match e with
  | ERR_INVALID_ARG_TYPE => "The salt argument must be of type string or an instance of Buffer"
  | ERR_CRYPTO_TIMING_SAFE_EQUAL_LENGTH => "Input buffers must have the same byte length"
  | UniqueViolation i => "duplicate key value violates unique constraint " ++ i
  | InvalidEnumValue e => "invalid input value for enum " ++ e
  | NoValuesToSet => "No values to set"
  | InvalidInputSyntax => "invalid input syntax for type integer"
  | UndefinedProperty => "Cannot read properties of undefined"
  end.

(** [next(error)]: the error handler answers [err.status || 500]. *)
Definition next (e : Exn) : M Response :=
  ret (json 500 (JsonMessage (errMessage e))).

(** A handler run on a store: the response and the store it leaves. *)
Definition run (h : M Response) (env : Env) (st : Storage) : Response * Storage :=
  match h env st with
  | (Ok r, st') => (r, st')
  | (Throw e, st') => (json 500 (JsonMessage (errMessage e)), st')
  end.

(** ** What the specification speaks of *)

(** An activity record references a user when its [userId] column holds the
    id of that user. *)
Definition referencesUser (k : Z) (a : Activity) : bool :=
  match a_userId a with
  | Some x => x =? k
  | None => false
  end.

(** The user [u] as [setUserRole] leaves it. *)
Definition withRole (r : Role) (u : User) : User :=
  mergeUser u (mkPartialUser None None None None (Some r) None None None).

(** The email the specification has the federated strategy synthesize:
    [{providerId}@{provider}.local]. *)
Definition synthesizedEmailSpec (p : Provider) (pid : string) : string :=
  pid ++ "@" ++ providerName p ++ ".local".

(** The email of a profile, when it has one that is not empty. *)
Definition profileEmail (profile : GoogleProfile) : option string :=
  match emails profile with
  | String c e :: _ => Some (String c e)
  | _ => None
  end.

(** The email the code gives a provisioned Google user. *)
Definition googleEmail (profile : GoogleProfile) : string :=
  match profileEmail profile with
  | Some e => e
  | None => g_id profile ++ "@google.com"
  end.

(** The records a request appended to the activity log. *)
Definition emitted (before after : Storage) : list Activity :=
  skipn (length (activities before)) (activities after).


Section Auth.

(** [crypto.scrypt(password, salt, keylen)] with a salt that is a string: the
    key derivation itself is not modelled, only that it is a function of its
    arguments that returns [keylen] bytes. *)
Variable scrypt : string -> string -> nat -> list byte.

(** [String.prototype.toLowerCase]: the case mappings of Unicode that the
    runtime applies are not modelled, only that the result is a function of
    the string and what it is on a string of ASCII characters. *)
Variable toLowerCase : string -> string.

Hypothesis scrypt_length : forall p s n, length (scrypt p s n) = n.
Hypothesis toLowerCase_ascii :
  forall s, Js.isAscii s = true -> toLowerCase s = Js.toLowerCaseAscii s.

(** What the code stores for a Google profile it provisions: the username is
    the display name with every run of whitespace replaced by "." (which
    leaves no whitespace) and then lowercased; for a display name of ASCII
    characters this is a username without whitespace and without upper-case
    letters. *)
Definition provisionedFrom (profile : GoogleProfile) (u : User) : Prop :=
  username u = toLowerCase (Js.replaceWhitespace "." (displayName profile)) /\
  Js.hasWhitespace (Js.replaceWhitespace "." (displayName profile)) = false /\
  (Js.isAscii (displayName profile) = true ->
   username u = Js.toLowerCaseAscii (Js.replaceWhitespace "." (displayName profile)) /\
   Js.hasWhitespace (username u) = false /\
   Js.hasUpper (username u) = false) /\
  role u = RoleUser /\
  provider u = Google /\
  providerId u = Js.orNull (Some (g_id profile)) /\
  email u = googleEmail profile.

(** ** The password hasher ([server/auth.ts]) *)

(** [scryptAsync(password, salt, keylen)]: [salt] is [None] when the caller
    passes [undefined], which scrypt refuses. *)
Definition scryptAsync (pw : string) (salt : option string) (keylen : nat)
  : Result (list byte) :=
  match salt with
  | Some s => Ok (scrypt pw s keylen)
  | None => Throw ERR_INVALID_ARG_TYPE
  end.

(** [crypto.timingSafeEqual(a, b)] *)
Definition timingSafeEqual (a b : list byte) : Result bool :=
  if (length a =? length b)%nat then Ok (Js.bytes_eqb a b)
  else Throw ERR_CRYPTO_TIMING_SAFE_EQUAL_LENGTH.

(** [hashPassword(password)], with the bytes [randomBytes(16)] returned. *)
Definition hashPassword (random : list byte) (pw : string) : string :=
  let salt := Js.toStringHex random in
  let buf := scrypt pw salt 64 in
  Js.toStringHex buf ++ "." ++ salt.

(** [comparePasswords(supplied, stored)] *)
Definition comparePasswords (supplied stored : string) : Result bool :=
  let parts := Js.split "." stored in
  let hashed := hd EmptyString parts in
  let salt := nth_error parts 1 in
  let hashedBuf := Js.bufferFromHex hashed in
  match scryptAsync supplied salt 64 with
  | Throw e => Throw e
  | Ok suppliedBuf => timingSafeEqual hashedBuf suppliedBuf
  end.

(** ** Authentication strategies *)

(** [storage.createActivity({ action, description, userId, timestamp: new Date() })] *)
Definition logActivity (act descr : string) (uid : Z) : M Activity :=
  env <- ask ;;
  createActivity (mkInsertActivity act descr (Some uid) None None (Some (now env))).

(** What a strategy hands to [done]: a user, or [false] with a message. A
    thrown error is [done(error)]. *)
Inductive Done :=
| DoneUser (u : User)
| DoneFail (message : string).

Definition invalidCredentials : string := "Credenciais inválidas".

(** The verify callback of the [LocalStrategy]. *)
Definition localVerify (uname pw : string) : M Done :=
  u <- getUserByUsername uname ;;
  match u with
  | None => ret (DoneFail invalidCredentials)
  | Some u =>
      match password u with
      | Some (String c h) =>
          ok <- lift (comparePasswords pw (String c h)) ;;
          if ok then ret (DoneUser u) else ret (DoneFail invalidCredentials)
      | _ => ret (DoneFail invalidCredentials)
      end
  end.

(** [passport.authenticate("local", cb)]: passport-local answers a request
    that lacks a username or a password itself and runs the verify callback
    on the others. *)
Definition authenticateLocal (uname pw : string) : M Done :=
  match uname, pw with
  | String _ _, String _ _ => localVerify uname pw
  | _, _ => ret (DoneFail "Missing credentials")
  end.

(** The verify callback of the [GoogleStrategy]. *)
Definition googleVerify (profile : GoogleProfile) : M Done :=
  found <- getUserByProviderId Google (g_id profile) ;;
  match found with
  | Some u => ret (DoneUser u)
  | None =>
      u <- createUser
             (mkInsertUser
                (toLowerCase (Js.replaceWhitespace "." (displayName profile)))
                (Js.orElse (hd_error (emails profile)) (g_id profile ++ "@google.com"))
                None
                (Some (displayName profile))
                (Some RoleUser)
                (Some Google)
                (Some (g_id profile))
                (Js.orNull (hd_error (photos profile)))) ;;
      logActivity "register"
        ("Novo usuário registrado via Google: " ++ Js.template (name u)) (id u) ;;;
      ret (DoneUser u)
  end.

(** ** Routes *)

Definition notAuthenticated : Response := json 401 (JsonMessage "Não autenticado").

(** [POST /api/register] *)
Definition register (req : Request) (uname mail pw : string) (nm : option string)
  : M Response :=
  tryCatch
    (existingUser <- getUserByUsername uname ;;
     match existingUser with
     | Some _ => ret (json 400 (JsonMessage "Nome de usuário já existe"))
     | None =>
         existingEmail <- getUserByEmail mail ;;
         match existingEmail with
         | Some _ => ret (json 400 (JsonMessage "Email já está em uso"))
         | None =>
             env <- ask ;;
             let hashedPassword := hashPassword (entropy env) pw in
             u <- createUser (mkInsertUser uname mail (Some hashedPassword)
                                (Js.orNull nm) (Some RoleUser) (Some Local)
                                None None) ;;
             logActivity "register" ("Novo usuário registrado: " ++ uname) (id u) ;;;
             t <- reqLogin req u ;;
             ret (mkResponse 201 (publicUser u) (Some t))
         end
     end)
    next.

(** [POST /api/login] *)
Definition login (req : Request) (uname pw : string) : M Response :=
  tryCatch
    (r <- authenticateLocal uname pw ;;
     match r with
     | DoneFail message =>
         ret (json 401 (JsonMessage (Js.orElse (Some message) invalidCredentials)))
     | DoneUser u =>
         t <- reqLogin req u ;;
         logActivity "login" ("Usuário logado: " ++ username u) (id u) ;;;
         ret (mkResponse 200 (publicUser u) (Some t))
     end)
    next.

(** [POST /api/logout] *)
Definition logout (req : Request) : M Response :=
  u <- reqUser req ;;
  t <- reqLogout req ;;
  match u with
  | Some u => logActivity "logout" ("Usuário saiu: " ++ username u) (id u) ;;; ret tt
  | None => ret tt
  end ;;;
  ret (mkResponse 200 (Text "OK") (Some t)).

(** [GET /api/user] *)
Definition currentUser (req : Request) : M Response :=
  u <- reqUser req ;;
  match u with
  | Some u => ret (json 200 (publicUser u))
  | None => ret notAuthenticated
  end.

(** How the round trip to Google ended, for [GET /auth/google/callback]. *)
Inductive OAuthOutcome :=
| OAuthProfile (profile : GoogleProfile)
| OAuthDenied
| OAuthError.

(** [GET /auth/google/callback] *)
Definition googleCallback (req : Request) (outcome : OAuthOutcome) : M Response :=
  match outcome with
  | OAuthError => ret (redirect "/auth?error=auth_error")
  | OAuthDenied => ret (redirect "/auth?error=auth_failed")
  | OAuthProfile profile =>
      tryCatch
        (r <- googleVerify profile ;;
         match r with
         | DoneFail _ => ret (redirect "/auth?error=auth_failed")
         | DoneUser u =>
             t <- reqLogin req u ;;
             logActivity "login" ("Usuário logado via Google: " ++ username u) (id u) ;;;
             ret (mkResponse 302 (Redirect "/") (Some t))
         end)
        (fun _ => ret (redirect "/auth?error=auth_error"))
  end.

(** [GET /auth/dev/login], with [req.query.email], [req.query.name] and
    [req.query.admin]. *)
Definition devLogin (req : Request) (q_email q_name q_admin : option string)
  : M Response :=
  tryCatch
    (env <- ask ;;
     if match NODE_ENV env with
        | Some v => String.eqb v "production"
        | None => false
        end
     then ret (mkResponse 404 (Text "Not Found") None)
     else
       let mail := Js.orElse q_email "dev@example.com" in
       let nm := Js.orElse q_name "Desenvolvedor" in
       let uname := toLowerCase (hd EmptyString (Js.split "@" mail)) in
       found <- getUserByEmail mail ;;
       u <- match found with
            | Some u => ret u
            | None =>
                u <- createUser
                       (mkInsertUser uname mail None (Some nm)
                          (Some (if match q_admin with
                                     | Some v => String.eqb v "true"
                                     | None => false
                                     end
                                 then RoleAdmin else RoleUser))
                          (Some Dev) (Some "dev-account") None) ;;
                logActivity "register"
                  ("Usuário de desenvolvimento criado: " ++ uname) (id u) ;;;
                ret u
            end ;;
       t <- reqLogin req u ;;
       logActivity "login" ("Login de desenvolvimento: " ++ uname) (id u) ;;;
       ret (mkResponse 302 (Redirect "/") (Some t)))
    (fun _ => ret (redirect "/auth?error=dev_error")).

Definition sameId (k : Z) (target : option Z) : bool :=
  match target with
  | Some t => k =? t
  | None => false
  end.

(** [PATCH /api/users/:id], with [parseInt(req.params.id)] and the [name],
    [email] and [avatarUrl] of the body. *)
Definition updateProfile (req : Request) (target : option Z)
    (b_name : option (option string)) (b_email : option string)
    (b_avatarUrl : option (option string)) : M Response :=
  caller <- reqUser req ;;
  match caller with
  | None => ret notAuthenticated
  | Some caller =>
      if negb (sameId (id caller) target) && negb (Role_eqb (role caller) RoleAdmin)
      then ret (json 403 (JsonMessage
                  "Acesso negado. Você só pode atualizar seu próprio perfil."))
      else
        tryCatch
          (found <- getUserParsed target ;;
           match found with
           | None => ret (json 404 (JsonMessage "Usuário não encontrado"))
           | Some u =>
               taken <- match b_email with
                        | Some e =>
                            if negb (String.eqb e (email u)) then
                              existing <- getUserByEmail e ;;
                              match existing with
                              | Some x => ret (negb (id x =? id u))
                              | None => ret false
                              end
                            else ret false
                        | None => ret false
                        end ;;
               if (taken : bool)
               then ret (json 400 (JsonMessage "Este email já está em uso"))
               else
                 updatedUser <- updateUser (id u)
                                  (mkPartialUser None b_email None b_name
                                                 None None None b_avatarUrl) ;;
                 logActivity "profile_update"
                   ("Perfil de " ++ username u ++ " atualizado") (id caller) ;;;
                 ret (json 200 (JsonRow updatedUser))
           end)
          next
  end.

(** [POST /api/users/:id/change-password] *)
Definition changePassword (req : Request) (target : option Z)
    (currentPassword newPassword : string) : M Response :=
  caller <- reqUser req ;;
  match caller with
  | None => ret notAuthenticated
  | Some caller =>
      if negb (sameId (id caller) target)
      then ret (json 403 (JsonMessage
                  "Acesso negado. Você só pode alterar sua própria senha."))
      else
        tryCatch
          (found <- getUserParsed target ;;
           match found with
           | None => ret (json 404 (JsonMessage "Usuário não encontrado"))
           | Some u =>
               if negb (Provider_eqb (provider u) Local)
               then ret (json 400 (JsonMessage
                           ("Não é possível alterar a senha para contas de "
                              ++ providerName (provider u)
                              ++ ". Use o provedor de autenticação original.")))
               else
                 ok <- match password u with
                       | Some (String c h) =>
                           lift (comparePasswords currentPassword (String c h))
                       | _ => ret false
                       end ;;
                 if (ok : bool) then
                   env <- ask ;;
                   let hashedPassword := hashPassword (entropy env) newPassword in
                   updateUser (id u)
                     (mkPartialUser None None (Some (Some hashedPassword)) None
                                    None None None None) ;;;
                   logActivity "password_change"
                     (username u ++ " alterou sua senha") (id u) ;;;
                   ret (json 200 (JsonMessage "Senha alterada com sucesso"))
                 else ret (json 401 (JsonMessage "Senha atual incorreta"))
           end)
          next
  end.

(** [POST /api/user/:id/make-admin] *)
Definition makeAdmin (req : Request) (target : option Z) : M Response :=
  caller <- reqUser req ;;
  match caller with
  | None => ret notAuthenticated
  | Some adminUser =>
      if negb (Role_eqb (role adminUser) RoleAdmin)
      then ret (json 403 (JsonMessage
                  "Acesso negado. Somente administradores podem realizar esta operação."))
      else
        tryCatch
          (found <- getUserParsed target ;;
           match found with
           | None => ret (json 404 (JsonMessage "Usuário não encontrado"))
           | Some u =>
               updatedUser <- setUserRole (id u) RoleAdmin ;;
               logActivity "admin"
                 ("Usuário " ++ username u ++ " promovido a administrador por "
                    ++ username adminUser) (id adminUser) ;;;
               match updatedUser with
               | Some v =>
                   ret (json 200 (JsonPromoted
                                    "Usuário promovido a administrador com sucesso"
                                    (id v) (username v) (role v)))
               | None => throw UndefinedProperty
               end
           end)
          next
  end.

(** [POST /api/create-admin] ([server/routes.ts]) *)
Definition createAdmin : M Response :=
  tryCatch
    (found <- getUserByUsername "admin" ;;
     match found with
     | None =>
         env <- ask ;;
         u <- createUser
                (mkInsertUser "admin" "admin@eventopro.com"
                   (Some (hashPassword (entropy env) "admin123"))
                   (Some "Administrador do Sistema")
                   (Some RoleAdmin) (Some Local) None None) ;;
         logActivity "setup" "Administrador inicial configurado pelo sistema" (id u) ;;;
         ret (json 200 (JsonAdminCredentials
                          "Administrador inicial criado com sucesso"
                          (username u) "admin123"))
     | Some adminUser =>
         if negb (Role_eqb (role adminUser) RoleAdmin) then
           setUserRole (id adminUser) RoleAdmin ;;;
           ret (json 200 (JsonAdminCredentials
                            "Usuário 'admin' promovido a administrador"
                            (username adminUser) "Senha definida anteriormente"))
         else
           ret (json 200 (JsonAdminCredentials
                            "Administrador já existe"
                            (username adminUser) "Senha definida anteriormente"))
     end)
    (fun _ => ret (json 500 (JsonMessage "Erro interno ao configurar administrador"))).

(** ** The server as a transition system *)

(** The routes that read or write the credential store, the session store
    or the activity log, with their inputs. *)
Inductive Call :=
| CallRegister (uname mail pw : string) (nm : option string)
| CallLogin (uname pw : string)
| CallLogout
| CallCurrentUser
| CallGoogleCallback (outcome : OAuthOutcome)
| CallDevLogin (q_email q_name q_admin : option string)
| CallUpdateProfile (target : option Z) (b_name : option (option string))
                    (b_email : option string) (b_avatarUrl : option (option string))
| CallChangePassword (target : option Z) (currentPassword newPassword : string)
| CallMakeAdmin (target : option Z)
| CallCreateAdmin.

Definition route (req : Request) (c : Call) : M Response :=
  match c with
  | CallRegister uname mail pw nm => register req uname mail pw nm
  | CallLogin uname pw => login req uname pw
  | CallLogout => logout req
  | CallCurrentUser => currentUser req
  | CallGoogleCallback outcome => googleCallback req outcome
  | CallDevLogin e n a => devLogin req e n a
  | CallUpdateProfile t n e a => updateProfile req t n e a
  | CallChangePassword t c n => changePassword req t c n
  | CallMakeAdmin t => makeAdmin req t
  | CallCreateAdmin => createAdmin
  end.

(** One request served: the response and the store afterwards. *)
Definition serve (env : Env) (req : Request) (c : Call) (st : Storage)
  : Response * Storage :=
  run (route req c) env st.

(** The stores the server can be in: the one the constructor builds, and the
    ones requests lead to. *)
Inductive reachable (b : Backend) : Storage -> Prop :=
| reachable_init : reachable b (emptyStorage b)
| reachable_serve st env req c :
    reachable b st -> reachable b (snd (serve env req c st)).

(** A trace of requests served from a store, for concrete runs. *)
Fixpoint serveAll (calls : list (Env * Request * Call)) (st : Storage) : Storage :=
  match calls with
  | [] => st
  | (env, req, c) :: rest => serveAll rest (snd (serve env req c st))
  end.

(** The responses to a trace of requests. *)
Fixpoint responses (calls : list (Env * Request * Call)) (st : Storage)
  : list Response :=
  match calls with
  | [] => []
  | (env, req, c) :: rest =>
      fst (serve env req c st) :: responses rest (snd (serve env req c st))
  end.

(** ** Inputs of the concrete runs *)

(** A stand-in for scrypt that returns [keylen] bytes, to run the handlers
    on concrete inputs. *)
Definition demoScrypt (password salt : string) (keylen : nat) : list byte :=
  firstn keylen (list_byte_of_string (password ++ salt) ++ repeat x00 keylen).

(** A stand-in for [toLowerCase] on the concrete inputs, which are ASCII. *)
Definition demoLower : string -> string := Js.toLowerCaseAscii.

Definition salt0 : list byte :=
  [x00; x01; x02; x03; x04; x05; x06; x07; x08; x09; x0a; x0b; x0c; x0d; x0e; x0f].

Definition env0 : Env := mkEnv 1000 None salt0.
Definition production : Env := mkEnv 1000 (Some "production") salt0.
Definition anonymous : Request := mkRequest None.
Definition profile0 : GoogleProfile := mkGoogleProfile "108" "Ana  Maria" [] [].
Definition profile1 : GoogleProfile :=
  mkGoogleProfile "109" "ana maria" ["ana@x.com"] [].

(** Alice registers. *)
Definition trace_alice : list (Env * Request * Call) :=
  [(env0, anonymous, CallRegister "alice" "alice@x.com" "secret1" None)].

(** The first administrator is created and logs in (session 1); Bob
    registers (user 2). *)
Definition trace_admin : list (Env * Request * Call) :=
  [(env0, anonymous, CallCreateAdmin);
   (env0, anonymous, CallLogin "admin" "admin123");
   (env0, anonymous, CallRegister "bob" "bob@x.com" "secret2" None)].

Definition adminRequest : Request := mkRequest (Some 1).

(** Alice registers (session 1), logs in (session 2), mistypes her password,
    changes it, and logs in with the old and with the new one. *)
Definition scenario_alice : list (Env * Request * Call) :=
  [(env0, anonymous, CallRegister "alice" "alice@x.com" "secret1" None);
   (env0, anonymous, CallLogin "alice" "secret1");
   (env0, anonymous, CallLogin "alice" "wrong");
   (env0, mkRequest (Some 2), CallChangePassword (Some 1) "secret1" "secret2");
   (env0, anonymous, CallLogin "alice" "secret1");
   (env0, anonymous, CallLogin "alice" "secret2")].

(** Two Google users whose display names differ in case and spacing only. *)
Definition trace_two_google : list (Env * Request * Call) :=
  [(env0, anonymous, CallGoogleCallback (OAuthProfile profile0));
   (env0, anonymous, CallGoogleCallback (OAuthProfile profile1))].

(** After Alice registered (session 1): Bob registers and logs in, and Alice
    changes the name and the email of her profile under her session. *)
Definition trace_beside_alice : list (Env * Request * Call) :=
  [(env0, anonymous, CallRegister "bob" "bob@x.com" "secret2" None);
   (env0, mkRequest (Some 2), CallLogin "bob" "secret2");
   (env0, mkRequest (Some 1),
    CallUpdateProfile (Some 1) (Some (Some "Alice")) (Some "alice@y.com") None)].

(** A local user and a Google user under one username: Ana registers as
    "ana.maria" (user 1, session 1), the Google profile "Ana  Maria" is
    provisioned under the same username (user 2), and Ana changes her
    password. *)
Definition trace_namesake : list (Env * Request * Call) :=
  [(env0, anonymous, CallRegister "ana.maria" "ana@x.com" "secret1" None);
   (env0, anonymous, CallGoogleCallback (OAuthProfile profile0));
   (env0, mkRequest (Some 1), CallChangePassword (Some 1) "secret1" "secret2")].

(** A store with a user whose password column was not written by
    [hashPassword], and with a session of that user. *)
Definition legacyUser : User :=
  mkUser 1 "legacy" "legacy@x.com" (Some "not-a-hash") None RoleUser Local None None 0.

Definition legacyStore : Storage :=
  mkStorage DatabaseStorage [legacyUser] 2 [] 1 [mkSession 1 (Some 1) (1000 + maxAge)] 2.

(** Two development logins under different emails. *)
Definition trace_two_dev : list (Env * Request * Call) :=
  [(env0, anonymous, CallDevLogin (Some "dev@a.com") None None);
   (env0, anonymous, CallDevLogin (Some "dev@b.com") None None)].

(** ** Invariants of the credential store *)

(** A stored password that [hashPassword] produced. *)
Definition hashed (h : string) : Prop :=
  exists random pw, h = hashPassword random pw.

(** What holds of the credential store in every state the server reaches on
    backend [b]: ids are below the counter and distinct, every stored
    password came out of [hashPassword], and on [DatabaseStorage] emails are
    distinct. *)
Record Invariant (b : Backend) (st : Storage) : Prop := mkInvariant {
  inv_backend : backend st = b;
  inv_fresh : forall u, In u (users st) -> id u < userId st;
  inv_ids : NoDup (map id (users st));
  inv_passwords : forall u h, In u (users st) -> password u = Some h -> hashed h;
  inv_emails : b = DatabaseStorage -> NoDup (map email (users st))
}.

Definition preserves {A} (b : Backend) (m : M A) : Prop :=
  forall env st, Invariant b st -> Invariant b (snd (m env st)).

(** ** Further routes, and what the further properties speak of *)

(** [m] keeps [P]: run on a store that satisfies [P], it leaves one that
    does, whether it returns or throws. *)
Definition keeps {A} (P : Storage -> Prop) (m : M A) : Prop :=
  forall env st, P st -> P (snd (m env st)).

(** The body of an answer of [PATCH /api/users/:id/notifications]; the
    preferences are the body of the request, as sent. *)
Inductive NotificationsBody :=
| NotificationsMessage (message : string)
| NotificationsUpdated (message : string) (preferences : string).

(** [PATCH /api/users/:id/notifications] *)
Definition updateNotifications (req : Request) (target : option Z) (prefs : string)
  : M (Z * NotificationsBody) :=
  caller <- reqUser req ;;
  match caller with
  | None => ret (401, NotificationsMessage "Não autenticado")
  | Some caller =>
      if negb (sameId (id caller) target)
      then ret (403, NotificationsMessage
                  "Acesso negado. Você só pode atualizar suas próprias preferências.")
      else
        tryCatch
          (found <- getUserParsed target ;;
           match found with
           | None => ret (404, NotificationsMessage "Usuário não encontrado")
           | Some _ =>
               ret (200, NotificationsUpdated
                      "Preferências de notificação atualizadas com sucesso" prefs)
           end)
          (fun e => ret (500, NotificationsMessage (errMessage e)))
  end.


(** The provider ids of the stored Google users. *)
Definition googleIds (rows : list User) : list string :=
  flat_map (fun u => match provider u, providerId u with
                     | Google, Some p => [p]
                     | _, _ => []
                     end) rows.

(** Every token of the session store was drawn from the counter. *)
Definition tokensBelow (st : Storage) : Prop :=
  forall s, In s (sessions st) -> token s < sessionId st.

(** No stored user is an administrator. *)
Definition noAdmin (st : Storage) : Prop :=
  forall u, In u (users st) -> role u = RoleUser.

(** [m] leaves the part [f] of the store as it was. *)
Definition frames {A X} (f : Storage -> X) (m : M A) : Prop :=
  forall env st, f (snd (m env st)) = f st.

Definition userPart (st : Storage) : Backend * list User * Z :=
  (backend st, users st, userId st).

Definition sessionPart (st : Storage) : list Session * Z :=
  (sessions st, sessionId st).

(** The row a registration inserts. *)
Definition registered (k tnow : Z) (random : list byte) (uname mail pw : string)
    (nm : option string) : User :=
  newUser k tnow
    (mkInsertUser uname mail (Some (hashPassword random pw)) (Js.orNull nm)
       (Some RoleUser) (Some Local) None None).

(** The row the Google strategy inserts for a profile. *)
Definition provisioned (k tnow : Z) (profile : GoogleProfile) : User :=
  newUser k tnow
    (mkInsertUser
       (toLowerCase (Js.replaceWhitespace "." (displayName profile)))
       (Js.orElse (hd_error (emails profile)) (g_id profile ++ "@google.com"))
       None (Some (displayName profile)) (Some RoleUser) (Some Google)
       (Some (g_id profile)) (Js.orNull (hd_error (photos profile)))).

(** The row the development login inserts. *)
Definition devAccount (k tnow : Z) (q_email q_name q_admin : option string) : User :=
  newUser k tnow
    (mkInsertUser
       (toLowerCase
          (hd EmptyString (Js.split "@" (Js.orElse q_email "dev@example.com"))))
       (Js.orElse q_email "dev@example.com")
       None
       (Some (Js.orElse q_name "Desenvolvedor"))
       (Some (if match q_admin with
                  | Some v => String.eqb v "true"
                  | None => false
                  end
              then RoleAdmin else RoleUser))
       (Some Dev) (Some "dev-account") None).

(** The user [u] with the stored password [h]. *)
Definition withPassword (h : string) (u : User) : User :=
  mergeUser u (mkPartialUser None None (Some (Some h)) None None None None None).

(** The invariant, and no Google id stored twice. *)
Definition googleUnique (b : Backend) (st : Storage) : Prop :=
  Invariant b st /\ NoDup (googleIds (users st)).


(** The requests that can store an administrator without one acting:
    create-admin, and a development login that asks for the admin role. *)
Definition mayGrantAdmin (c : Call) : bool :=
  match c with
  | CallCreateAdmin => true
  | CallDevLogin _ _ q_admin =>
      match q_admin with
      | Some v => String.eqb v "true"
      | None => false
      end
  | _ => false
  end.

(** The activity log of [st] extends that of [st0]. *)
Definition extendsLog (st0 st : Storage) : Prop :=
  exists l, activities st = (activities st0 ++ l)%list.


(** The columns of a user that no route rewrites. *)
Definition account (u : User) : Z * string * Provider * option string * Z :=
  (id u, username u, provider u, providerId u, createdAt u).

(** The invariant, and the accounts of the stored users being those of [l0]
    and further ones; on [MemStorage], in that order. *)
Definition extendsAccounts (b : Backend)
    (l0 : list (Z * string * Provider * option string * Z)) (st : Storage) : Prop :=
  Invariant b st /\
  exists l,
    Permutation (map account (users st)) (l0 ++ l) /\
    (b = MemStorage -> map account (users st) = (l0 ++ l)%list).

(** The routes that regenerate the session of the request: the ones that
    call [req.login] or [req.logout]. *)
Definition regeneratesSession (c : Call) : bool :=
  match c with
  | CallRegister _ _ _ _ | CallLogin _ _ | CallLogout
  | CallGoogleCallback _ | CallDevLogin _ _ _ => true
  | _ => false
  end.

(** No request of [calls] that carries the cookie [t] goes to a route that
    regenerates its session. *)
Definition sparesSession (t : Z) (calls : list (Env * Request * Call)) : bool :=
  forallb (fun x => match x with
                    | (_, req, c) =>
                        match cookie req with
                        | Some t' => negb ((t' =? t) && regeneratesSession c)
                        | None => true
                        end
                    end) calls.

(** The session store holds, under the token [t], the session of the user
    with id [k] that expires at [e]. *)
Definition holdsSession (t k e : Z) (st : Storage) : Prop :=
  tokensBelow st /\
  t < sessionId st /\
  find (fun s => token s =? t) (sessions st) = Some (mkSession t (Some k) e).

(** The store a logout leaves, with the session it regenerated. *)
Definition afterLogout (env : Env) (req : Request) (st : Storage) : Storage :=
  let st1 := withSessions (dropSession req (sessions st)
                             ++ [mkSession (sessionId st) None (now env + maxAge)])
                          (sessionId st + 1) st in
  match identity (now env) req st with
  | Some u =>
      withActivities
        (activities st
         ++ [mkActivity (activityId st) None None (orNullId (Some (id u)))
               "logout" (now env) ("Usuário saiu: " ++ username u)])
        (activityId st + 1) st1
  | None => st1
  end.

(** * Properties *)

(** ** Strings and buffers *)

Lemma hex_byte_roundtrip (b : byte) (s : string) :
  Js.bufferFromHex (Js.byteToHex b ++ s) = b :: Js.bufferFromHex s.
Proof. destruct b; reflexivity. Qed.

Lemma hex_roundtrip (buf : list byte) :
  Js.bufferFromHex (Js.toStringHex buf) = buf.
Proof.
  induction buf as [|b buf IH]; [reflexivity|].
  cbn [Js.toStringHex]. rewrite hex_byte_roundtrip. now rewrite IH.
Qed.

Lemma contains_app c a b :
  Js.contains c (a ++ b) = Js.contains c a || Js.contains c b.
Proof.
  induction a as [|x a IH]; simpl; [reflexivity|].
  rewrite IH. now rewrite orb_assoc.
Qed.

Lemma hex_byte_no_dot (b : byte) : Js.contains "." (Js.byteToHex b) = false.
Proof. destruct b; reflexivity. Qed.

Lemma hex_no_dot (buf : list byte) : Js.contains "." (Js.toStringHex buf) = false.
Proof.
  induction buf as [|b buf IH]; [reflexivity|].
  cbn [Js.toStringHex]. rewrite contains_app, hex_byte_no_dot, IH. reflexivity.
Qed.

Lemma split_no_sep sep s : Js.contains sep s = false -> Js.split sep s = [s].
Proof.
  induction s as [|x s IH]; simpl; [reflexivity|].
  intros H. apply orb_false_elim in H as [Hx Hs].
  rewrite Hx, (IH Hs). reflexivity.
Qed.

Lemma split_at_sep sep a b :
  Js.contains sep a = false ->
  Js.split sep (a ++ String sep b) = a :: Js.split sep b.
Proof.
  induction a as [|x a IH]; simpl.
  - intros _. now rewrite Ascii.eqb_refl.
  - intros H. apply orb_false_elim in H as [Hx Ha].
    rewrite Hx, (IH Ha). reflexivity.
Qed.

Lemma split_nonempty sep s : Js.split sep s <> [].
Proof.
  destruct s as [|x s]; simpl; [discriminate|].
  destruct (Ascii.eqb x sep); [discriminate|].
  destruct (Js.split sep s); discriminate.
Qed.

Lemma bytes_eqb_eq a b : Js.bytes_eqb a b = true <-> a = b.
Proof.
  revert b. induction a as [|x a IH]; intros [|y b]; simpl; split;
    try discriminate; try reflexivity.
  - intros H. apply andb_prop in H as [Hx Hab].
    apply Byte.byte_dec_bl in Hx. apply IH in Hab. now subst.
  - intros H. injection H as -> ->.
    rewrite (Byte.byte_dec_lb eq_refl). simpl. now apply IH.
Qed.

(** ** The password hasher *)

Lemma comparePasswords_split supplied hashed rest :
  Js.contains "." hashed = false ->
  comparePasswords supplied (hashed ++ "." ++ rest) =
    if (length (Js.bufferFromHex hashed) =? 64)%nat
    then Ok (Js.bytes_eqb (Js.bufferFromHex hashed)
                          (scrypt supplied (hd EmptyString (Js.split "." rest)) 64))
    else Throw ERR_CRYPTO_TIMING_SAFE_EQUAL_LENGTH.
Proof.
  intros Hdot. unfold comparePasswords.
  change (hashed ++ "." ++ rest) with (hashed ++ String "." rest).
  rewrite (split_at_sep _ _ _ Hdot). simpl hd. simpl nth_error.
  destruct (Js.split "." rest) as [|salt tl] eqn:Hs.
  - now apply split_nonempty in Hs.
  - simpl. unfold timingSafeEqual. rewrite scrypt_length. reflexivity.
Qed.

Lemma comparePasswords_hashPassword random supplied pw :
  comparePasswords supplied (hashPassword random pw) =
    Ok (Js.bytes_eqb (scrypt pw (Js.toStringHex random) 64)
                     (scrypt supplied (Js.toStringHex random) 64)).
Proof.
  unfold hashPassword. cbv zeta.
  rewrite (comparePasswords_split _ _ _ (hex_no_dot _)).
  rewrite hex_roundtrip, scrypt_length. simpl Nat.eqb.
  now rewrite (split_no_sep _ _ (hex_no_dot random)).
Qed.

(** C4. Verifying a plaintext against its own hash succeeds, whatever salt
    was drawn; verifying another plaintext against it fails, unless scrypt
    maps the two plaintexts to the same key under that salt (a collision). *)
Theorem comparePasswords_accepts_own_hash_only :
  (forall random p, comparePasswords p (hashPassword random p) = Ok true) /\
  (forall random p1 p2,
      scrypt p1 (Js.toStringHex random) 64 <> scrypt p2 (Js.toStringHex random) 64 ->
      comparePasswords p1 (hashPassword random p2) = Ok false).
Proof.
  split.
  - intros random p. rewrite comparePasswords_hashPassword.
    f_equal. now apply bytes_eqb_eq.
  - intros random p1 p2 Hne. rewrite comparePasswords_hashPassword.
    f_equal. destruct (Js.bytes_eqb _ _) eqn:E; [|reflexivity].
    apply bytes_eqb_eq in E. now elim Hne.
Qed.

(** ** The routes *)

(** Case analysis on the innermost scrutinee of the goal. *)
Ltac break_match :=
  match goal with
  | |- context [match ?x with _ => _ end] =>
      lazymatch x with
      | context [match _ with _ => _ end] => fail
      | _ => destruct x eqn:?
      end
  end.

Ltac unfold_monad :=
  unfold bind, ret, ask, get, gets, put, throw, lift, tryCatch in *.

Lemma reqUser_identity req env st :
  reqUser req env st = (Ok (identity (now env) req st), st).
Proof. reflexivity. Qed.

(** C1. With [NODE_ENV] set to ["production"] the development bypass answers
    404 "Not Found", sets no cookie and leaves the store as it was: no user is
    created and no session is established. *)
Theorem devLogin_disabled_in_production :
  forall env st req q_email q_name q_admin,
    NODE_ENV env = Some "production" ->
    serve env req (CallDevLogin q_email q_name q_admin) st
    = (mkResponse 404 (Text "Not Found") None, st).
Proof.
  intros env st req e n a Hprod.
  unfold serve, run, route, devLogin. unfold_monad.
  rewrite Hprod. reflexivity.
Qed.

Lemma sameId_false k target : target <> Some k -> sameId k target = false.
Proof.
  intros H. destruct target as [t|]; [|reflexivity].
  simpl. apply Z.eqb_neq. intros ->. now elim H.
Qed.

Lemma run_bind_reqUser req (k : option User -> M Response) env st :
  run (u <- reqUser req ;; k u) env st = run (k (identity (now env) req st)) env st.
Proof. reflexivity. Qed.

(** The status of an update of a profile by an administrator is never 403. *)
Lemma updateProfile_admin_not_forbidden env st req caller target n e a :
  identity (now env) req st = Some caller ->
  role caller = RoleAdmin ->
  status (fst (serve env req (CallUpdateProfile target n e a) st)) <> 403.
Proof.
  intros Hid Hrole. unfold serve, route, updateProfile.
  rewrite run_bind_reqUser, Hid, Hrole. simpl Role_eqb. rewrite andb_false_r.
  unfold run, getUserParsed, getUser, getUserByEmail, updateUser, logActivity,
    createActivity, next.
  unfold_monad.
  repeat (break_match; simpl; try discriminate).
Qed.

(** C10. A caller whose identity is resolved and who names another user's id
    (or no id at all) is refused with 403 and the store is left as it was,
    whatever the caller's role; an administrator's update of a profile is not
    refused with 403. *)
Theorem changePassword_only_own_password :
  forall env st req caller target currentPassword newPassword,
    identity (now env) req st = Some caller ->
    target <> Some (id caller) ->
    serve env req (CallChangePassword target currentPassword newPassword) st
    = (json 403 (JsonMessage "Acesso negado. Você só pode alterar sua própria senha."), st)
    /\ (role caller = RoleAdmin ->
        forall n e a,
          status (fst (serve env req (CallUpdateProfile target n e a) st)) <> 403).
Proof.
  intros env st req caller target cur new Hid Hother. split.
  - unfold serve, route, changePassword.
    rewrite run_bind_reqUser, Hid, (sameId_false _ _ Hother). reflexivity.
  - intros Hrole n e a. now apply (updateProfile_admin_not_forbidden _ _ _ caller).
Qed.

Lemma find_hasId_id k rows u : find (hasId k) rows = Some u -> id u = k.
Proof.
  intros H. apply find_some in H as [_ H]. now apply Z.eqb_eq in H.
Qed.

Lemma find_replaceRow k v rows u :
  find (hasId k) rows = Some u -> id v = k ->
  find (hasId k) (replaceRow k v rows) = Some v.
Proof.
  intros Hfind Hv. induction rows as [|r rows IH]; [discriminate|].
  simpl in *. destruct (hasId k r) eqn:Hr.
  - unfold hasId at 1. rewrite Hv, Z.eqb_refl. reflexivity.
  - rewrite Hr. now apply IH.
Qed.

Lemma find_moveRow k v rows :
  id v = k -> find (hasId k) (moveRow k v rows) = Some v.
Proof.
  intros Hv. unfold moveRow. induction rows as [|r rows IH]; simpl.
  - unfold hasId. now rewrite Hv, Z.eqb_refl.
  - destruct (hasId k r) eqn:E; simpl; [exact IH|]. now rewrite E.
Qed.

(** A lookup by id after the row was written returns the new row, on either
    backend. *)
Lemma find_writeRow bk k v rows u :
  find (hasId k) rows = Some u -> id v = k ->
  find (hasId k) (writeRow bk k v rows) = Some v.
Proof.
  intros Hfind Hv. destruct bk; simpl.
  - now apply (find_replaceRow _ _ _ u).
  - now apply find_moveRow.
Qed.

Lemma emitted_app st st' l :
  activities st' = (activities st ++ l)%list -> emitted st st' = l.
Proof.
  intros H. unfold emitted. rewrite H, skipn_app, skipn_all, Nat.sub_diag.
  reflexivity.
Qed.

Lemma orNullId_nonzero k : k <> 0 -> orNullId (Some k) = Some k.
Proof. intros H. destruct k; [now elim H | reflexivity | reflexivity]. Qed.

(** C3, as the code has it. Promotion is refused with 401 when no identity is
    resolved and with 403 when the identity is no administrator, both leaving
    the store as it was. For an administrator and a stored target it answers
    200, sets the role of the target to admin and appends one activity record:
    its [userId] is the id of the actor, and the target is named in the
    description by its username; the id of the target is in no column. *)
Theorem makeAdmin_gate_and_record :
  forall env st req target,
    (identity (now env) req st = None ->
     serve env req (CallMakeAdmin target) st = (json 401 (JsonMessage "Não autenticado"), st)) /\
    (forall caller,
        identity (now env) req st = Some caller ->
        role caller <> RoleAdmin ->
        serve env req (CallMakeAdmin target) st
        = (json 403 (JsonMessage
             "Acesso negado. Somente administradores podem realizar esta operação."), st)) /\
    (forall caller k u,
        identity (now env) req st = Some caller ->
        role caller = RoleAdmin ->
        id caller <> 0 ->
        target = Some k ->
        find (hasId k) (users st) = Some u ->
        exists st',
          serve env req (CallMakeAdmin target) st
          = (json 200 (JsonPromoted "Usuário promovido a administrador com sucesso"
                         k (username u) RoleAdmin), st') /\
          find (hasId k) (users st') = Some (withRole RoleAdmin u) /\
          role (withRole RoleAdmin u) = RoleAdmin /\
          emitted st st'
          = [mkActivity (activityId st) None None (Some (id caller)) "admin" (now env)
               ("Usuário " ++ username u ++ " promovido a administrador por "
                  ++ username caller)]).
Proof.
  intros env st req target. repeat split.
  - intros Hid. unfold serve, route, makeAdmin.
    now rewrite run_bind_reqUser, Hid.
  - intros caller Hid Hrole. unfold serve, route, makeAdmin.
    rewrite run_bind_reqUser, Hid.
    destruct (role caller); [now elim Hrole | reflexivity].
  - intros caller k u Hid Hrole Hnz -> Hfind.
    pose proof (find_hasId_id _ _ _ Hfind) as Hk. subst k.
    unfold serve, route, makeAdmin.
    rewrite run_bind_reqUser, Hid, Hrole. simpl Role_eqb. cbv iota.
    unfold run, getUserParsed, getUser, setUserRole, logActivity, createActivity.
    unfold_monad. cbn -[orNullId]. rewrite Hfind. cbn -[orNullId].
    rewrite Hfind. cbn -[orNullId].
    rewrite (orNullId_nonzero _ Hnz).
    eexists. split; [reflexivity|]. simpl. repeat split.
    + now apply (find_writeRow _ _ _ _ u Hfind).
    + now apply emitted_app.
Qed.

Lemma identity_dropSession tnow req st ss' n :
  identity tnow req (withSessions (dropSession req ss') n st) = None.
Proof.
  unfold identity, dropSession. destruct (cookie req) as [t|]; [|reflexivity].
  simpl. destruct (find _ _) as [s|] eqn:Hfind; [|reflexivity].
  apply find_some in Hfind as [Hin Hlive].
  apply filter_In in Hin as [_ Hne].
  unfold liveSession in Hlive. apply andb_prop in Hlive as [Heq _].
  rewrite Heq in Hne. discriminate.
Qed.

(** A session that carries no user, stored behind the others, changes the
    identity of no request. *)
Lemma identity_app_anonymous tnow req st ss t e n :
  identity tnow req (withSessions (ss ++ [mkSession t None e]) n st)
  = identity tnow req (withSessions ss n st).
Proof.
  unfold identity. cbn [sessions users withSessions].
  destruct (cookie req) as [c|]; [|reflexivity].
  induction ss as [|s ss IH]; cbn [app find].
  - destruct (liveSession c tnow (mkSession t None e)); reflexivity.
  - destruct (liveSession c tnow s); [reflexivity|exact IH].
Qed.

(** The identity of a request depends on the sessions and the users only. *)
Lemma identity_reads tnow req st st' :
  sessions st' = sessions st -> users st' = users st ->
  identity tnow req st' = identity tnow req st.
Proof. unfold identity. now intros -> ->. Qed.

Lemma logout_run env st req :
  serve env req CallLogout st
  = (mkResponse 200 (Text "OK") (Some (sessionId st)), afterLogout env req st).
Proof.
  unfold serve, route, logout, afterLogout. rewrite run_bind_reqUser.
  unfold run, reqLogout, logActivity, createActivity. unfold_monad.
  now destruct (identity (now env) req st).
Qed.

Lemma afterLogout_sessions env st req :
  sessions (afterLogout env req st)
  = (dropSession req (sessions st)
     ++ [mkSession (sessionId st) None (now env + maxAge)])%list /\
  sessionId (afterLogout env req st) = sessionId st + 1 /\
  users (afterLogout env req st) = users st.
Proof. unfold afterLogout. now destruct (identity (now env) req st). Qed.

Lemma afterLogout_identity env st req tnow other :
  identity tnow other (afterLogout env req st)
  = identity tnow other
      (withSessions (dropSession req (sessions st)) (sessionId st + 1) st).
Proof.
  destruct (afterLogout_sessions env st req) as [Hs [_ Hu]].
  rewrite <- (identity_app_anonymous tnow other st _ (sessionId st) (now env + maxAge)).
  apply identity_reads; [exact Hs|exact Hu].
Qed.

Lemma afterLogout_emitted env st req :
  emitted st (afterLogout env req st)
  = match identity (now env) req st with
    | Some u => [mkActivity (activityId st) None None (orNullId (Some (id u)))
                   "logout" (now env) ("Usuário saiu: " ++ username u)]
    | None => []
    end.
Proof.
  unfold afterLogout. destruct (identity (now env) req st).
  - now apply emitted_app.
  - apply emitted_app. simpl. now rewrite app_nil_r.
Qed.

(** ** Provisioning of federated users *)

Ltac ascii_cases c := destruct c as [[|] [|] [|] [|] [|] [|] [|] [|]].

Lemma find_all_false {A} (p : A -> bool) l :
  (forall x, In x l -> p x = false) -> find p l = None.
Proof.
  induction l as [|x l IH]; [reflexivity|]. intros H. simpl.
  rewrite (H x (or_introl eq_refl)). apply IH. intros y Hy. apply H. now right.
Qed.

Lemma startsWith_dot w s :
  Js.startsWith w (String "." s) = true -> Js.contains "." w = false -> w = EmptyString.
Proof.
  destruct w as [|a w]; [reflexivity|]. simpl. intros H Hdot.
  apply andb_prop in H as [Ha _]. apply Ascii.eqb_eq in Ha. subst a.
  discriminate Hdot.
Qed.

(** A string without "." that the dotted string starts with is one the
    string itself starts with. *)
Lemma startsWith_replaceRuns w s :
  Js.contains "." w = false ->
  Js.startsWith w (Js.replaceRuns "." false 0 s) = true ->
  Js.startsWith w s = true.
Proof.
  revert s. induction w as [|a w IH]; intros s Hdot H; [reflexivity|].
  destruct s as [|c s]; [discriminate H|].
  cbn [Js.replaceRuns] in H.
  destruct (Js.whitespaceLength (String c s)) as [|k].
  - cbn [Js.startsWith] in *. apply andb_prop in H as [Ha Hw].
    rewrite Ha. cbn [andb]. apply IH; [|exact Hw].
    cbn [Js.contains] in Hdot. now apply orb_false_elim in Hdot.
  - cbn [append] in H. discriminate (startsWith_dot _ _ H Hdot).
Qed.

Lemma whitespace_words :
  forallb (fun w => match w with
                    | EmptyString => false
                    | String _ w' => negb (Js.contains "." w')
                    end) Js.whitespace = true.
Proof. reflexivity. Qed.

Lemma whitespaceLength_zero s :
  Js.whitespaceLength s = 0%nat <->
  forall w, In w Js.whitespace -> Js.startsWith w s = false.
Proof.
  unfold Js.whitespaceLength. split.
  - destruct (find _ _) as [w|] eqn:Hfind.
    + apply find_some in Hfind as [Hin _].
      pose proof (proj1 (forallb_forall _ _) whitespace_words w Hin) as Hw.
      destruct w; [discriminate Hw|discriminate].
    + intros _ w Hin. exact (find_none _ _ Hfind w Hin).
  - intros H. rewrite find_all_false; [reflexivity|exact H].
Qed.

Lemma whitespaceLength_dot s : Js.whitespaceLength (String "." s) = 0%nat.
Proof.
  apply whitespaceLength_zero. intros w Hin.
  pose proof (proj1 (forallb_forall _ _) whitespace_words w Hin) as Hw.
  destruct w as [|a w]; [discriminate Hw|].
  cbn [Js.startsWith]. apply andb_false_intro1.
  revert a w Hw Hin. unfold Js.whitespace.
  intros a w _ Hin. cbn [In] in Hin.
  repeat (destruct Hin as [Hin|Hin]; [injection Hin as <- _; reflexivity|]).
  contradiction.
Qed.

(** On an ASCII character the class [\s] is tab to carriage return and
    space. *)
Lemma whitespaceLength_ascii c s :
  (N_of_ascii c <? 128)%N = true ->
  Js.whitespaceLength (String c s)
  = if (((9 <=? N_of_ascii c) && (N_of_ascii c <=? 13)) || (N_of_ascii c =? 32))%N
    then 1%nat else 0%nat.
Proof. ascii_cases c; intros H; try discriminate H; reflexivity. Qed.

Lemma lowerChar_ascii c :
  (N_of_ascii c <? 128)%N = true ->
  (N_of_ascii (Js.lowerChar c) <? 128)%N = true /\
  Js.isUpper (Js.lowerChar c) = false /\
  forall s s', Js.whitespaceLength (String (Js.lowerChar c) s')
               = Js.whitespaceLength (String c s).
Proof.
  intros H. split; [|split].
  - revert H. ascii_cases c; intros H; try discriminate H; reflexivity.
  - ascii_cases c; reflexivity.
  - intros s s'. rewrite !whitespaceLength_ascii; [|exact H|].
    + revert H. ascii_cases c; intros H; try discriminate H; reflexivity.
    + revert H. ascii_cases c; intros H; try discriminate H; reflexivity.
Qed.

(** Lowering a string of ASCII characters leaves no upper-case letter and
    brings no whitespace. *)
Lemma toLowerCaseAscii_no_upper s :
  Js.isAscii s = true -> Js.hasUpper (Js.toLowerCaseAscii s) = false.
Proof.
  induction s as [|c s IH]; [reflexivity|]. cbn [Js.isAscii]. intros H.
  apply andb_prop in H as [Hc Hs]. cbn [Js.toLowerCaseAscii Js.hasUpper].
  destruct (lowerChar_ascii c Hc) as [_ [Hup _]]. now rewrite Hup, IH.
Qed.

Lemma toLowerCaseAscii_whitespace s :
  Js.isAscii s = true ->
  Js.hasWhitespace (Js.toLowerCaseAscii s) = Js.hasWhitespace s.
Proof.
  induction s as [|c s IH]; [reflexivity|]. cbn [Js.isAscii]. intros H.
  apply andb_prop in H as [Hc Hs]. cbn [Js.toLowerCaseAscii Js.hasWhitespace].
  destruct (lowerChar_ascii c Hc) as [_ [_ Hws]]. now rewrite (Hws s), IH.
Qed.

Lemma isAscii_app a b :
  Js.isAscii a = true -> Js.isAscii b = true -> Js.isAscii (a ++ b) = true.
Proof.
  induction a as [|c a IH]; [trivial|]. cbn [Js.isAscii append]. intros H Hb.
  apply andb_prop in H as [Hc Ha]. now rewrite Hc, IH.
Qed.

Lemma replaceRuns_ascii inRun skip s :
  Js.isAscii s = true -> Js.isAscii (Js.replaceRuns "." inRun skip s) = true.
Proof.
  revert inRun skip. induction s as [|c s IH]; intros inRun skip H; [reflexivity|].
  cbn [Js.isAscii] in H. apply andb_prop in H as [Hc Hs].
  cbn [Js.replaceRuns]. destruct skip as [|k]; [|now apply IH].
  destruct (Js.whitespaceLength (String c s)) as [|k].
  - cbn [Js.isAscii]. now rewrite Hc, IH.
  - destruct inRun; [now apply IH|]. apply isAscii_app; [reflexivity|now apply IH].
Qed.

(** The replacement leaves no whitespace. *)
Lemma replaceRuns_no_whitespace inRun skip s :
  Js.hasWhitespace (Js.replaceRuns "." inRun skip s) = false.
Proof.
  revert inRun skip. induction s as [|c s IH]; intros inRun skip; [reflexivity|].
  cbn [Js.replaceRuns]. destruct skip as [|k]; [|apply IH].
  destruct (Js.whitespaceLength (String c s)) as [|k] eqn:Hlen.
  - cbn [Js.hasWhitespace]. rewrite IH, orb_false_r.
    apply negb_false_iff, Nat.eqb_eq, whitespaceLength_zero.
    intros w Hin.
    destruct (Js.startsWith w (String c (Js.replaceRuns "." false 0 s))) eqn:Hw;
      [|reflexivity].
    pose proof (proj1 (forallb_forall _ _) whitespace_words w Hin) as Hword.
    destruct w as [|a w]; [discriminate Hword|].
    apply negb_true_iff in Hword.
    cbn [Js.startsWith] in Hw. apply andb_prop in Hw as [Ha Hw].
    apply (startsWith_replaceRuns _ _ Hword) in Hw.
    pose proof (proj1 (whitespaceLength_zero _) Hlen _ Hin) as Hno.
    cbn [Js.startsWith] in Hno. rewrite Ha, Hw in Hno. discriminate Hno.
  - assert (Hdot : Js.hasWhitespace ("." ++ Js.replaceRuns "." true k s) = false).
    { cbn [append Js.hasWhitespace]. now rewrite whitespaceLength_dot, IH. }
    destruct inRun; [apply IH|exact Hdot].
Qed.

Lemma orElse_googleEmail profile :
  Js.orElse (hd_error (emails profile)) (g_id profile ++ "@google.com")
  = googleEmail profile.
Proof.
  unfold googleEmail, profileEmail.
  destruct (emails profile) as [|[|c e] rest]; reflexivity.
Qed.

(** C5, as the code has it. When no stored user carries the id of a Google
    profile, the user the strategy returns is a new row, provisioned from the
    profile: the username is the display name with every run of whitespace
    (the class [\s], with its characters beyond ASCII) replaced by ".", which
    leaves no whitespace, and then lowercased by [toLowerCase], whatever
    characters the name holds; for a display name of ASCII characters this is
    a username without whitespace and without upper-case letters; the role is
    "user" whatever the profile holds; the
    email is the first email of the profile when it has one that is not
    empty, and [{providerId}@google.com] otherwise. The strategy does return
    such a user, unless on [DatabaseStorage] that email is stored already. *)
Theorem googleVerify_provisions_user :
  forall env st profile,
    find (hasProviderId Google (g_id profile)) (users st) = None ->
    (forall u st',
        googleVerify profile env st = (Ok (DoneUser u), st') ->
        users st' = (users st ++ [u])%list /\ provisionedFrom profile u) /\
    ((backend st = DatabaseStorage ->
      emailTaken (googleEmail profile) (users st) = false) ->
     exists u st', googleVerify profile env st = (Ok (DoneUser u), st')).
Proof.
  intros env st profile Hnew.
  assert (Hrow : provisionedFrom profile
                   (newUser (userId st) (now env)
                      (mkInsertUser
                         (toLowerCase (Js.replaceWhitespace "." (displayName profile)))
                         (Js.orElse (hd_error (emails profile))
                                    (g_id profile ++ "@google.com"))
                         None (Some (displayName profile)) (Some RoleUser)
                         (Some Google) (Some (g_id profile))
                         (Js.orNull (hd_error (photos profile)))))).
  { unfold provisionedFrom.
    cbn [username role provider providerId email newUser
         i_username i_role i_provider i_providerId i_email].
    rewrite orElse_googleEmail.
    split; [reflexivity|]. split; [apply replaceRuns_no_whitespace|].
    split; [|repeat split].
    intros Hascii.
    pose proof (replaceRuns_ascii false 0 _ Hascii) as Hdotted.
    fold (Js.replaceWhitespace "." (displayName profile)) in Hdotted.
    rewrite (toLowerCase_ascii _ Hdotted). split; [reflexivity|]. split.
    - rewrite (toLowerCaseAscii_whitespace _ Hdotted).
      apply replaceRuns_no_whitespace.
    - now apply toLowerCaseAscii_no_upper. }
  unfold googleVerify, getUserByProviderId, createUser, logActivity, createActivity.
  unfold_monad. rewrite Hnew. unfold insertViolation.
  cbn [provider email newUser i_provider i_email].
  rewrite orElse_googleEmail in *.
  cbn [inProviderEnum authProviderEnum existsb Provider_eqb orb negb].
  split.
  - intros u st'. destruct (backend st).
    + intros Hrun. injection Hrun as <- <-. split; [reflexivity|exact Hrow].
    + destruct (emailTaken _ _); [discriminate|].
      intros Hrun. injection Hrun as <- <-. split; [reflexivity|exact Hrow].
  - intros Hfree. destruct (backend st).
    + eexists _, _. reflexivity.
    + rewrite (Hfree eq_refl). eexists _, _. reflexivity.
Qed.

(** ** Activity records of the strategies *)

Ltac solve_emitted :=
  unfold emitted; cbn [activities withActivities withSessions withUsers];
  rewrite <- ?app_assoc; rewrite skipn_app, skipn_all, Nat.sub_diag;
  reflexivity.

Lemma login_emits env st req uname pw resp st' :
  serve env req (CallLogin uname pw) st = (resp, st') ->
  status resp = 200 ->
  map a_action (emitted st st') = ["login"].
Proof.
  unfold serve, route, run, login, authenticateLocal, localVerify,
    getUserByUsername, reqLogin, logActivity, createActivity, next.
  unfold_monad.
  repeat (break_match; cbn);
    intros Hrun; injection Hrun as <- <-; cbn; intros Hok;
    try discriminate; solve_emitted.
Qed.

Lemma register_emits env st req uname mail pw nm resp st' :
  serve env req (CallRegister uname mail pw nm) st = (resp, st') ->
  status resp = 201 ->
  map a_action (emitted st st') = ["register"].
Proof.
  unfold serve, route, run, register, getUserByUsername, getUserByEmail,
    createUser, reqLogin, logActivity, createActivity, next.
  unfold_monad.
  repeat (break_match; cbn);
    intros Hrun; injection Hrun as <- <-; cbn; intros Hok;
    try discriminate; solve_emitted.
Qed.

Lemma googleCallback_emits env st req profile resp st' :
  serve env req (CallGoogleCallback (OAuthProfile profile)) st = (resp, st') ->
  body resp = Redirect "/" ->
  map a_action (emitted st st')
  = match find (hasProviderId Google (g_id profile)) (users st) with
    | Some _ => ["login"]
    | None => ["register"; "login"]
    end.
Proof.
  unfold serve, route, run, googleCallback, googleVerify, getUserByProviderId,
    createUser, reqLogin, logActivity, createActivity.
  unfold_monad.
  repeat (break_match; cbn);
    intros Hrun; injection Hrun as <- <-; cbn; intros Hok;
    try discriminate; solve_emitted.
Qed.

Lemma devLogin_emits env st req q_email q_name q_admin resp st' :
  serve env req (CallDevLogin q_email q_name q_admin) st = (resp, st') ->
  body resp = Redirect "/" ->
  map a_action (emitted st st')
  = match find (hasEmail (Js.orElse q_email "dev@example.com")) (users st) with
    | Some _ => ["login"]
    | None => ["register"; "login"]
    end.
Proof.
  unfold serve, route, run, devLogin, getUserByEmail,
    createUser, reqLogin, logActivity, createActivity.
  unfold_monad.
  repeat (break_match; cbn);
    intros Hrun; injection Hrun as <- <-; cbn; intros Hok;
    try discriminate; solve_emitted.
Qed.

(** C7, as the code has it. A successful local login appends exactly one
    record, of kind "login", and a successful registration exactly one, of
    kind "register". A successful Google callback, and a successful
    development login, append one "login" record when the user was stored
    already, and two records, "register" and then "login", when the account
    was provisioned during that verification. *)
Theorem activities_of_successful_verification :
  forall env st req resp st',
    (forall uname pw,
        serve env req (CallLogin uname pw) st = (resp, st') ->
        status resp = 200 ->
        map a_action (emitted st st') = ["login"]) /\
    (forall uname mail pw nm,
        serve env req (CallRegister uname mail pw nm) st = (resp, st') ->
        status resp = 201 ->
        map a_action (emitted st st') = ["register"]) /\
    (forall profile,
        serve env req (CallGoogleCallback (OAuthProfile profile)) st = (resp, st') ->
        body resp = Redirect "/" ->
        map a_action (emitted st st')
        = match find (hasProviderId Google (g_id profile)) (users st) with
          | Some _ => ["login"]
          | None => ["register"; "login"]
          end) /\
    (forall q_email q_name q_admin,
        serve env req (CallDevLogin q_email q_name q_admin) st = (resp, st') ->
        body resp = Redirect "/" ->
        map a_action (emitted st st')
        = match find (hasEmail (Js.orElse q_email "dev@example.com")) (users st) with
          | Some _ => ["login"]
          | None => ["register"; "login"]
          end).
Proof.
  intros env st req resp st'. repeat split; intros.
  - eapply login_emits; eassumption.
  - eapply register_emits; eassumption.
  - eapply googleCallback_emits; eassumption.
  - eapply devLogin_emits; eassumption.
Qed.

(** ** Preservation of the invariant *)

Section Preservation.

Variable b : Backend.

Lemma preserves_ret {A} (a : A) : preserves b (ret a).
Proof. intros env st H. exact H. Qed.

Lemma preserves_throw {A} e : preserves b (@throw A e).
Proof. intros env st H. exact H. Qed.

Lemma preserves_ask : preserves b ask.
Proof. intros env st H. exact H. Qed.

Lemma preserves_gets {A} (f : Storage -> A) : preserves b (gets f).
Proof. intros env st H. exact H. Qed.

Lemma preserves_lift {A} (r : Result A) : preserves b (lift r).
Proof. intros env st H. exact H. Qed.

Lemma preserves_bind {A B} (m : M A) (k : A -> M B) :
  preserves b m -> (forall a, preserves b (k a)) -> preserves b (bind m k).
Proof.
  intros Hm Hk env st H. unfold bind.
  specialize (Hm env st H). destruct (m env st) as [[a|e] st1]; simpl in *.
  - now apply Hk.
  - exact Hm.
Qed.

Lemma preserves_tryCatch {A} (m : M A) (h : Exn -> M A) :
  preserves b m -> (forall e, preserves b (h e)) -> preserves b (tryCatch m h).
Proof.
  intros Hm Hh env st H. unfold tryCatch.
  specialize (Hm env st H). destruct (m env st) as [[a|e] st1]; simpl in *.
  - exact Hm.
  - now apply Hh.
Qed.

(** The invariant reads the backend, the rows and the counter only. *)
Lemma Invariant_same_users st st' :
  backend st' = backend st -> users st' = users st -> userId st' = userId st ->
  Invariant b st -> Invariant b st'.
Proof.
  intros Hb Hu Hn [H1 H2 H3 H4 H5].
  constructor; rewrite ?Hb, ?Hu, ?Hn; assumption.
Qed.

Lemma preserves_createActivity d : preserves b (createActivity d).
Proof. intros env st H. now apply (Invariant_same_users st). Qed.

Lemma preserves_logActivity a d k : preserves b (logActivity a d k).
Proof. intros env st H. now apply (Invariant_same_users st). Qed.

Lemma preserves_reqLogin req u : preserves b (reqLogin req u).
Proof. intros env st H. now apply (Invariant_same_users st). Qed.

Lemma preserves_reqLogout req : preserves b (reqLogout req).
Proof. intros env st H. now apply (Invariant_same_users st). Qed.

Lemma preserves_reqUser req : preserves b (reqUser req).
Proof. intros env st H. exact H. Qed.

Lemma preserves_getUserParsed k : preserves b (getUserParsed k).
Proof.
  intros env st H. destruct k as [k|]; [exact H|].
  unfold getUserParsed. unfold_monad. now destruct (backend st).
Qed.

Lemma emailTaken_false_notin e rows :
  emailTaken e rows = false -> ~ In e (map email rows).
Proof.
  intros Hfree Hin. apply in_map_iff in Hin as [r [Hr Hin]].
  assert (Ht : emailTaken e rows = true).
  { apply existsb_exists. exists r. split; [exact Hin|].
    unfold hasEmail. rewrite Hr. apply String.eqb_refl. }
  congruence.
Qed.

Lemma orNull_Some x h : Js.orNull x = Some h -> x = Some h.
Proof. destruct x as [[|c s]|]; simpl; congruence. Qed.

Lemma NoDup_snoc {A} (l : list A) (x : A) :
  NoDup l -> ~ In x l -> NoDup (l ++ [x]).
Proof.
  intros Hl Hx. apply NoDup_app; [exact Hl | repeat constructor; intros [] | ].
  intros y Hy [<-|[]]. contradiction.
Qed.

(** An insert keeps the invariant when the password it stores is hashed. *)
Lemma preserves_createUser d :
  (forall h, i_password d = Some h -> hashed h) ->
  preserves b (createUser d).
Proof.
  intros Hpw env st Hinv. pose proof Hinv as [Hb Hfresh Hids Hpws Hemails].
  assert (Hgrow : forall st',
             backend st' = backend st ->
             users st' = (users st ++ [newUser (userId st) (now env) d])%list ->
             userId st' = userId st + 1 ->
             (b = DatabaseStorage ->
              ~ In (email (newUser (userId st) (now env) d)) (map email (users st))) ->
             Invariant b st').
  { intros st' Hb' Hu Hn He. constructor.
    - congruence.
    - rewrite Hu, Hn. intros u Hin. apply in_app_or in Hin as [Hin|[<-|[]]].
      + specialize (Hfresh u Hin). lia.
      + simpl. lia.
    - rewrite Hu, map_app. apply NoDup_snoc; [exact Hids|].
      simpl. intros Hin. apply in_map_iff in Hin as [u [Hu' Hin]].
      specialize (Hfresh u Hin). lia.
    - rewrite Hu. intros u h Hin Hp. apply in_app_or in Hin as [Hin|[<-|[]]].
      + now apply (Hpws u).
      + simpl in Hp. apply orNull_Some in Hp. now apply Hpw.
    - intros Hdb. rewrite Hu, map_app. apply NoDup_snoc; [now apply Hemails|].
      now apply He. }
  unfold createUser. unfold_monad.
  destruct (backend st) eqn:Hbk.
  - apply Hgrow; simpl; try reflexivity; try assumption. intros Hdb. congruence.
  - destruct (insertViolation _ _) eqn:Hv.
    + exact Hinv.
    + apply Hgrow; simpl; try reflexivity; try assumption. intros _.
      unfold insertViolation in Hv.
      destruct (negb _); [discriminate|].
      destruct (emailTaken _ _) eqn:Ht; [discriminate|].
      now apply emailTaken_false_notin.
Qed.

Lemma map_id_replaceRow k v rows :
  id v = k -> map id (replaceRow k v rows) = map id rows.
Proof.
  intros Hv. induction rows as [|r rows IH]; [reflexivity|].
  simpl. rewrite IH. destruct (hasId k r) eqn:E; [|reflexivity].
  apply Z.eqb_eq in E. congruence.
Qed.

Lemma In_replaceRow k v rows r :
  In r (replaceRow k v rows) -> r = v \/ (In r rows /\ id r <> k).
Proof.
  induction rows as [|r0 rows IH]; simpl; [intros []|].
  intros [H|H].
  - destruct (hasId k r0) eqn:E; [left; congruence|].
    right. split; [left; exact H|]. apply Z.eqb_neq in E. congruence.
  - destruct (IH H) as [->|[Hin Hne]]; [now left|right; auto].
Qed.

Lemma replaceRow_absent k v rows :
  ~ In k (map id rows) -> replaceRow k v rows = rows.
Proof.
  induction rows as [|r rows IH]; [reflexivity|].
  simpl. intros Hk. rewrite IH by tauto.
  destruct (hasId k r) eqn:E; [|reflexivity].
  apply Z.eqb_eq in E. tauto.
Qed.

Lemma replaceRow_NoDup {A} (f : User -> A) k v rows :
  NoDup (map id rows) -> NoDup (map f rows) ->
  (forall r, In r rows -> id r <> k -> f r <> f v) ->
  NoDup (map f (replaceRow k v rows)).
Proof.
  induction rows as [|r rows IH]; [constructor|].
  simpl. intros Hids Hf Hother.
  inversion Hids as [|? ? Hr Hids']; subst.
  inversion Hf as [|? ? Hfr Hf']; subst.
  destruct (hasId k r) eqn:E.
  - apply Z.eqb_eq in E. subst k.
    rewrite (replaceRow_absent _ _ _ Hr). constructor; [|exact Hf'].
    intros Hin. apply in_map_iff in Hin as [r' [Heq Hin]].
    apply (Hother r'); [now right| |exact Heq].
    intros Hk. apply Hr. rewrite <- Hk. now apply in_map.
  - apply Z.eqb_neq in E. constructor.
    + intros Hin. apply in_map_iff in Hin as [r' [Heq Hin]].
      apply In_replaceRow in Hin as [->|[Hin _]].
      * apply (Hother r); [now left|exact E|now symmetry].
      * apply Hfr. rewrite <- Heq. now apply in_map.
    + apply IH; [exact Hids'|exact Hf'|]. intros r' Hin. apply Hother. now right.
Qed.

Lemma NoDup_map_eq {A} (f : User -> A) rows x y :
  NoDup (map f rows) -> In x rows -> In y rows -> f x = f y -> x = y.
Proof.
  induction rows as [|r rows IH]; simpl; [intros _ []|].
  intros Hnd Hx Hy Heq. inversion Hnd as [|? ? Hr Hnd']; subst.
  destruct Hx as [->|Hx], Hy as [->|Hy]; try reflexivity.
  - elim Hr. rewrite Heq. now apply in_map.
  - elim Hr. rewrite <- Heq. now apply in_map.
  - now apply IH.
Qed.

Lemma filter_absent k rows :
  ~ In k (map id rows) -> filter (fun r => negb (hasId k r)) rows = rows.
Proof.
  induction rows as [|r rows IH]; [reflexivity|].
  simpl. intros Hk. rewrite IH by tauto.
  destruct (hasId k r) eqn:E; [|reflexivity].
  apply Z.eqb_eq in E. tauto.
Qed.

(** The two ways of writing a row leave the same rows, in another order. *)
Lemma Permutation_moveRow k u v rows :
  NoDup (map id rows) -> find (hasId k) rows = Some u ->
  Permutation (moveRow k v rows) (replaceRow k v rows).
Proof.
  unfold moveRow. induction rows as [|r rows IH]; [discriminate|].
  intros Hnd Hfind. inversion Hnd as [|? ? Hr Hnd']; subst.
  cbn [find] in Hfind. cbn [filter replaceRow map].
  destruct (hasId k r) eqn:E; cbn [negb].
  - apply Z.eqb_eq in E. subst k.
    fold (replaceRow (id r) v rows).
    rewrite (filter_absent _ _ Hr), (replaceRow_absent _ _ _ Hr).
    apply Permutation_sym, Permutation_cons_append.
  - cbn [app]. apply perm_skip. now apply IH.
Qed.

Lemma Permutation_writeRow bk k u v rows :
  NoDup (map id rows) -> find (hasId k) rows = Some u ->
  Permutation (writeRow bk k v rows) (replaceRow k v rows).
Proof.
  intros Hnd Hfind. destruct bk; [apply Permutation_refl|].
  now apply (Permutation_moveRow _ u).
Qed.

Lemma In_writeRow bk k v rows r :
  In r (writeRow bk k v rows) -> r = v \/ (In r rows /\ id r <> k).
Proof.
  destruct bk; [apply In_replaceRow|].
  unfold writeRow, moveRow. intros H. apply in_app_or in H as [H|[<-|[]]]; [|now left].
  apply filter_In in H as [Hin Hne]. right. split; [exact Hin|].
  apply negb_true_iff in Hne. now apply Z.eqb_neq in Hne.
Qed.

(** The invariant does not depend on the order of the rows. *)
Lemma Invariant_Permutation st st' :
  Invariant b st ->
  backend st' = backend st ->
  Permutation (users st') (users st) ->
  userId st' = userId st ->
  Invariant b st'.
Proof.
  intros [Hb Hfresh Hids Hpws Hemails] Hb' Hp Hn. constructor.
  - congruence.
  - rewrite Hn. intros u Hu. apply Hfresh. now apply (Permutation_in _ Hp).
  - apply (Permutation_NoDup (Permutation_sym (Permutation_map id Hp)) Hids).
  - intros u h Hu. apply Hpws. now apply (Permutation_in _ Hp).
  - intros Hdb.
    apply (Permutation_NoDup (Permutation_sym (Permutation_map email Hp)) (Hemails Hdb)).
Qed.

(** A row replaced under its own id keeps the invariant when the new password
    is hashed and, on [DatabaseStorage], the new email is no other row's. *)
Lemma Invariant_replaceRow st st' k u v :
  Invariant b st ->
  find (hasId k) (users st) = Some u ->
  id v = k ->
  (forall h, password v = Some h -> hashed h) ->
  (b = DatabaseStorage ->
   forall r, In r (users st) -> id r <> k -> email r <> email v) ->
  backend st' = backend st ->
  users st' = replaceRow k v (users st) ->
  userId st' = userId st ->
  Invariant b st'.
Proof.
  intros [Hb Hfresh Hids Hpws Hemails] Hfind Hv Hpw Hmail Hb' Hu Hn.
  pose proof (find_some _ _ Hfind) as [Hin _].
  pose proof (find_hasId_id _ _ _ Hfind) as Hk.
  constructor.
  - congruence.
  - rewrite Hu, Hn. intros r Hr. apply In_replaceRow in Hr as [->|[Hr _]].
    + rewrite Hv, <- Hk. now apply Hfresh.
    + now apply Hfresh.
  - rewrite Hu, (map_id_replaceRow _ _ _ Hv). exact Hids.
  - rewrite Hu. intros r h Hr Hp. apply In_replaceRow in Hr as [->|[Hr _]].
    + now apply Hpw.
    + now apply (Hpws r).
  - intros Hdb. rewrite Hu. apply replaceRow_NoDup; auto.
Qed.

Lemma Invariant_writeRow bk st st' k u v :
  Invariant b st ->
  find (hasId k) (users st) = Some u ->
  id v = k ->
  (forall h, password v = Some h -> hashed h) ->
  (b = DatabaseStorage ->
   forall r, In r (users st) -> id r <> k -> email r <> email v) ->
  backend st' = backend st ->
  users st' = writeRow bk k v (users st) ->
  userId st' = userId st ->
  Invariant b st'.
Proof.
  intros Hinv Hfind Hv Hpw Hmail Hb' Hu Hn.
  apply (Invariant_Permutation (withUsers (replaceRow k v (users st)) (userId st) st)).
  - now apply (Invariant_replaceRow st _ k u v).
  - exact Hb'.
  - rewrite Hu. cbn [users withUsers].
    apply (Permutation_writeRow _ _ u); [now destruct Hinv|exact Hfind].
  - exact Hn.
Qed.

Lemma preserves_setUserRole k r : preserves b (setUserRole k r).
Proof.
  intros env st Hinv. unfold setUserRole. unfold_monad.
  destruct (find (hasId k) (users st)) as [u|] eqn:Hfind; [|exact Hinv].
  pose proof (find_some _ _ Hfind) as [Hin _].
  pose proof (find_hasId_id _ _ _ Hfind) as Hk.
  apply (Invariant_writeRow (backend st) st _ k u (mergeUser u
           (mkPartialUser None None None None (Some r) None None None)));
    try reflexivity; try assumption.
  - simpl. intros h Hp. destruct Hinv. eauto.
  - intros Hdb x Hx Hne Heq. simpl in Heq. destruct Hinv as [_ _ _ _ Hemails].
    apply Hne. rewrite <- Hk. f_equal.
    now apply (NoDup_map_eq email (users st) x u (Hemails Hdb)).
Qed.

Lemma emailTaken_filter e k rows r :
  emailTaken e (filter (fun x => negb (hasId k x)) rows) = false ->
  In r rows -> id r <> k -> email r <> e.
Proof.
  intros Hfree Hin Hne Heq.
  apply (emailTaken_false_notin _ _ Hfree).
  rewrite <- Heq. apply in_map. apply filter_In. split; [exact Hin|].
  unfold hasId. apply negb_true_iff. now apply Z.eqb_neq.
Qed.

(** An update keeps the invariant when the password it stores is hashed. *)
Lemma preserves_updateUser k d :
  (forall h, p_password d = Some (Some h) -> hashed h) ->
  preserves b (updateUser k d).
Proof.
  intros Hpw env st Hinv. unfold updateUser. unfold_monad.
  assert (Hreplace : forall bk u,
             find (hasId k) (users st) = Some u ->
             (b = DatabaseStorage ->
              forall r, In r (users st) -> id r <> k ->
                        email r <> email (mergeUser u d)) ->
             Invariant b (withUsers (writeRow bk k (mergeUser u d) (users st))
                                    (userId st) st)).
  { intros bk u Hfind Hmail.
    apply (Invariant_writeRow bk st _ k u (mergeUser u d));
      try reflexivity; try assumption.
    - simpl. now apply find_hasId_id in Hfind.
    - simpl. intros h Hp. destruct (p_password d) as [[h'|]|] eqn:E.
      + apply Hpw. congruence.
      + discriminate.
      + pose proof (find_some _ _ Hfind) as [Hin _]. destruct Hinv. eauto. }
  destruct (backend st) eqn:Hbk.
  - destruct (find (hasId k) (users st)) as [u|] eqn:Hfind; [|exact Hinv].
    simpl. apply (Hreplace MemStorage); [reflexivity|].
    intros Hdb. destruct Hinv as [Hb _ _ _ _]. congruence.
  - destruct (isEmptySet d); [exact Hinv|].
    destruct (find (hasId k) (users st)) as [u|] eqn:Hfind; [|exact Hinv].
    destruct (updateViolation _ _) eqn:Hv; [exact Hinv|].
    simpl. apply (Hreplace DatabaseStorage); [reflexivity|].
    intros Hdb r Hr Hne. simpl.
    unfold updateViolation in Hv.
    destruct (match p_provider d with Some _ => _ | None => _ end); [discriminate|].
    destruct (p_email d) as [e|].
    + destruct (emailTaken e _) eqn:Ht; [discriminate|].
      now apply (emailTaken_filter e k (users st)).
    + pose proof (find_some _ _ Hfind) as [Hin _].
      pose proof (find_hasId_id _ _ _ Hfind) as Hk.
      destruct Hinv as [_ _ _ _ Hemails]. intros Heq.
      apply Hne. rewrite <- Hk. f_equal.
      now apply (NoDup_map_eq email (users st) r u (Hemails Hdb)).
Qed.

Lemma hashed_hashPassword random pw : hashed (hashPassword random pw).
Proof. now exists random, pw. Qed.

Ltac preserve_step :=
  first
    [ apply preserves_ret | apply preserves_throw | apply preserves_ask
    | apply preserves_gets | apply preserves_lift
    | apply preserves_createActivity | apply preserves_logActivity
    | apply preserves_reqLogin | apply preserves_reqLogout
    | apply preserves_reqUser | apply preserves_getUserParsed
    | apply preserves_setUserRole
    | apply preserves_createUser; simpl;
      intros ? Hpw; first [discriminate Hpw
                          | injection Hpw as <-; apply hashed_hashPassword]
    | apply preserves_updateUser; simpl;
      intros ? Hpw; first [discriminate Hpw
                          | injection Hpw as <-; apply hashed_hashPassword]
    | apply preserves_bind; [|intros ?]
    | apply preserves_tryCatch; [|intros ?]
    | match goal with
      | |- preserves _ (match ?x with _ => _ end) => destruct x
      end
    | progress cbv zeta ].

Lemma preserves_route req c : preserves b (route req c).
Proof.
  destruct c; unfold route;
    unfold register, login, authenticateLocal, localVerify, logout, currentUser,
      googleCallback, googleVerify, devLogin, updateProfile, changePassword,
      makeAdmin, createAdmin, next, redirect, notAuthenticated,
      getUser, getUserByUsername, getUserByEmail, getUserByProviderId;
    repeat preserve_step.
Qed.

(** Every store the server reaches satisfies the invariant. *)
Lemma reachable_Invariant st : reachable b st -> Invariant b st.
Proof.
  induction 1 as [|st env req c Hreach IH].
  - constructor; simpl; try reflexivity; try constructor; intros; contradiction.
  - pose proof (preserves_route req c env st IH) as Hstep.
    unfold serve, run. destruct (route req c env st) as [[r|e] st1]; exact Hstep.
Qed.

End Preservation.

(** ** Login failures *)

Lemma comparePasswords_hashed pw h :
  hashed h -> exists ok, comparePasswords pw h = Ok ok.
Proof.
  intros [random [pw0 ->]]. rewrite comparePasswords_hashPassword. eauto.
Qed.

(** On a reachable store a login that names no stored user, or a stored user
    whose password the supplied one does not verify against, is answered 401
    with the message "Credenciais inválidas" and changes nothing. *)
Lemma login_rejects b st env req uname pw :
  reachable b st ->
  uname <> EmptyString -> pw <> EmptyString ->
  (forall u h, find (hasUsername uname) (users st) = Some u ->
               password u = Some h -> comparePasswords pw h <> Ok true) ->
  serve env req (CallLogin uname pw) st
  = (json 401 (JsonMessage "Credenciais inválidas"), st).
Proof.
  intros Hreach Hu Hp Hwrong.
  apply reachable_Invariant in Hreach.
  destruct uname as [|cu uname]; [now elim Hu|].
  destruct pw as [|cp pw]; [now elim Hp|].
  unfold serve, route, run, login, authenticateLocal, localVerify, getUserByUsername.
  unfold_monad.
  destruct (find (hasUsername (String cu uname)) (users st)) as [u|] eqn:Hfind;
    [|reflexivity].
  destruct (password u) as [[|c h]|] eqn:Hpw; try reflexivity.
  pose proof (find_some _ _ Hfind) as [Hin _].
  destruct (comparePasswords_hashed (String cp pw) (String c h)) as [ok Hok].
  { destruct Hreach as [_ _ _ Hpws _]. now apply (Hpws u). }
  rewrite Hok. destruct ok; [|reflexivity].
  now elim (Hwrong u (String c h) eq_refl Hpw).
Qed.

(** C2. On every reachable store, a login with a username that no stored user
    has and a login with the username of a stored local user and a password
    that does not verify against the stored hash get the same answer: 401 with
    the message "Credenciais inválidas", and the store is left as it was.
    (Requests with an empty username or password never reach the strategy:
    passport-local answers them itself.) *)
Theorem login_failures_indistinguishable :
  forall b st env req1 req2 uname1 pw1 uname2 pw2 u h,
    reachable b st ->
    uname1 <> EmptyString -> pw1 <> EmptyString ->
    uname2 <> EmptyString -> pw2 <> EmptyString ->
    find (hasUsername uname1) (users st) = None ->
    find (hasUsername uname2) (users st) = Some u ->
    provider u = Local ->
    password u = Some h ->
    comparePasswords pw2 h <> Ok true ->
    serve env req1 (CallLogin uname1 pw1) st
    = (json 401 (JsonMessage "Credenciais inválidas"), st) /\
    serve env req2 (CallLogin uname2 pw2) st
    = (json 401 (JsonMessage "Credenciais inválidas"), st).
Proof.
  intros b st env req1 req2 uname1 pw1 uname2 pw2 u h
         Hreach Hu1 Hp1 Hu2 Hp2 Habsent Hfound _ Hpw Hwrong.
  split; apply (login_rejects b); try assumption.
  - intros u' h' Hfind. congruence.
  - intros u' h' Hfind Hpw'. congruence.
Qed.

(** ** Uniqueness in the credential store *)

Lemma find_none_existsb (p : User -> bool) rows :
  find p rows = None -> existsb p rows = false.
Proof.
  induction rows as [|r rows IH]; [reflexivity|].
  simpl. destruct (p r); [discriminate|exact IH].
Qed.

Lemma existsb_find_some (p : User -> bool) rows :
  existsb p rows = true -> exists u, find p rows = Some u.
Proof.
  induction rows as [|r rows IH]; [discriminate|].
  simpl. destruct (p r); [eauto|exact IH].
Qed.

(** C6, as the code has it. On [DatabaseStorage] the emails of the stored
    users are distinct in every reachable store, and it is the storage layer
    that keeps them so: an insert, and an update of another row, with a stored
    email is refused by the unique index and leaves the table as it was.
    The storage layer checks nothing else of a new row but its provider, so
    usernames and provider ids have no such constraint; the register route
    refuses a stored username or email itself, with a lookup before the
    insert. *)
Theorem emails_unique_by_index :
  (forall st, reachable DatabaseStorage st -> NoDup (map email (users st))) /\
  (forall env st d,
      backend st = DatabaseStorage ->
      emailTaken (i_email d) (users st) = true ->
      exists e, createUser d env st = (Throw e, st)) /\
  (forall env st k u d e,
      backend st = DatabaseStorage ->
      find (hasId k) (users st) = Some u ->
      p_email d = Some e ->
      emailTaken e (filter (fun r => negb (hasId k r)) (users st)) = true ->
      exists x, updateUser k d env st = (Throw x, st)) /\
  (forall env st d,
      (backend st = DatabaseStorage ->
       inProviderEnum (match i_provider d with Some p => p | None => Local end) = true /\
       emailTaken (i_email d) (users st) = false) ->
      exists u,
        createUser d env st
        = (Ok u, withUsers (users st ++ [u]) (userId st + 1) st) /\
        username u = i_username d /\
        providerId u = Js.orNull (i_providerId d)) /\
  (forall env st req uname mail pw nm,
      existsb (hasUsername uname) (users st) = true \/
      existsb (hasEmail mail) (users st) = true ->
      exists message,
        serve env req (CallRegister uname mail pw nm) st
        = (json 400 (JsonMessage message), st)).
Proof.
  split; [|split; [|split; [|split]]].
  - intros st Hreach. apply reachable_Invariant in Hreach.
    destruct Hreach as [_ _ _ _ Hemails]. now apply Hemails.
  - intros env st d Hdb Htaken. unfold createUser. unfold_monad. rewrite Hdb.
    unfold insertViolation. cbn [email newUser]. rewrite Htaken.
    destruct (negb _); eauto.
  - intros env st k u d e Hdb Hfind He Htaken.
    unfold updateUser. unfold_monad. rewrite Hdb.
    assert (Hne : isEmptySet d = false).
    { destruct d as [a1 a2 a3 a4 a5 a6 a7 a8]. simpl in He. subst a2.
      now destruct a1. }
    rewrite Hne, Hfind. unfold updateViolation. rewrite He, Htaken.
    destruct (match p_provider d with Some _ => _ | None => _ end); eauto.
  - intros env st d Hdb. unfold createUser. unfold_monad.
    destruct (backend st).
    + eexists. repeat split.
    + destruct (Hdb eq_refl) as [Henum Hfree].
      unfold insertViolation. cbn [provider email newUser].
      rewrite Henum, Hfree. eexists. repeat split.
  - intros env st req uname mail pw nm Htaken.
    unfold serve, route, run, register, getUserByUsername, getUserByEmail.
    unfold_monad.
    destruct (find (hasUsername uname) (users st)) as [u|] eqn:Hu; [eauto|].
    destruct (find (hasEmail mail) (users st)) as [u|] eqn:He; [eauto|].
    apply find_none_existsb in Hu, He. destruct Htaken; congruence.
Qed.


(** * Further properties *)

(** ** The stored form of a password *)

Lemma hex_injective a b : Js.toStringHex a = Js.toStringHex b -> a = b.
Proof.
  intros H. rewrite <- (hex_roundtrip a), <- (hex_roundtrip b). now rewrite H.
Qed.

Lemma split_hashPassword random pw :
  Js.split "." (hashPassword random pw)
  = [Js.toStringHex (scrypt pw (Js.toStringHex random) 64); Js.toStringHex random].
Proof.
  unfold hashPassword. cbv zeta.
  change (?a ++ "." ++ ?b) with (a ++ String "." b).
  rewrite (split_at_sep _ _ _ (hex_no_dot _)).
  now rewrite (split_no_sep _ _ (hex_no_dot random)).
Qed.

(** X1. Two hashes of one password under different random bytes are
    different strings: the salt is part of what is stored. *)
Theorem hashPassword_differs_with_salt :
  forall random1 random2 pw,
    random1 <> random2 -> hashPassword random1 pw <> hashPassword random2 pw.
Proof.
  intros r1 r2 pw Hne Heq. apply Hne.
  pose proof (split_hashPassword r1 pw) as H1.
  rewrite Heq, split_hashPassword in H1.
  injection H1 as _ Hsalt. symmetry. now apply hex_injective.
Qed.

Lemma length_toStringHex buf :
  String.length (Js.toStringHex buf) = (2 * length buf)%nat.
Proof.
  induction buf as [|b buf IH]; [reflexivity|].
  cbn [Js.toStringHex length]. unfold Js.byteToHex.
  cbn [append String.length]. rewrite IH. lia.
Qed.

Lemma length_append a b :
  String.length (a ++ b) = (String.length a + String.length b)%nat.
Proof. induction a as [|c a IH]; simpl; [reflexivity|now rewrite IH]. Qed.

(** X2. A stored password is the hexadecimal digest, a separator and the
    hexadecimal salt: 129 characters and two for every random byte. Split at
    the separator and decoded, the two parts give back the 64 bytes of the key
    and the random bytes. *)
Theorem hashPassword_decodes :
  forall random pw,
    String.length (hashPassword random pw) = (129 + 2 * length random)%nat /\
    map Js.bufferFromHex (Js.split "." (hashPassword random pw))
    = [scrypt pw (Js.toStringHex random) 64; random].
Proof.
  intros random pw. split.
  - unfold hashPassword. cbv zeta.
    rewrite !length_append, !length_toStringHex, scrypt_length. simpl. lia.
  - rewrite split_hashPassword. simpl. now rewrite !hex_roundtrip.
Qed.

(** ** Sessions *)

Lemma find_filter_implied {A} (p q : A -> bool) l :
  (forall x, p x = true -> q x = true) -> find p (filter q l) = find p l.
Proof.
  intros Hpq. induction l as [|x l IH]; [reflexivity|].
  simpl. destruct (q x) eqn:Hq; simpl.
  - now rewrite IH.
  - destruct (p x) eqn:Hp; [|exact IH]. rewrite (Hpq x Hp) in Hq. discriminate.
Qed.

Lemma find_dropSession_other req t tnow ss :
  cookie req <> Some t ->
  find (liveSession t tnow) (dropSession req ss) = find (liveSession t tnow) ss.
Proof.
  intros Hother. unfold dropSession. destruct (cookie req) as [t0|]; [|reflexivity].
  apply find_filter_implied. intros s Hlive.
  unfold liveSession in Hlive. apply andb_prop in Hlive as [Ht _].
  apply Z.eqb_eq in Ht. apply negb_true_iff, Z.eqb_neq. congruence.
Qed.

(** X3. A logout ends the session of the request only: a request that
    carries another cookie resolves afterwards to the identity it resolved to
    before. *)
Theorem logout_keeps_other_sessions :
  forall env st req other tnow,
    cookie other <> cookie req ->
    identity tnow other (snd (serve env req CallLogout st)) = identity tnow other st.
Proof.
  intros env st req other tnow Hother.
  rewrite logout_run. cbn [snd]. rewrite afterLogout_identity.
  unfold identity. cbn [sessions users withSessions].
  destruct (cookie other) as [t|] eqn:Hc; [|reflexivity].
  rewrite find_dropSession_other; [reflexivity|]. congruence.
Qed.

(** ** What the routes keep *)

Lemma keeps_ret {A} P (a : A) : keeps P (ret a).
Proof. intros env st H. exact H. Qed.

Lemma keeps_throw {A} P e : keeps P (@throw A e).
Proof. intros env st H. exact H. Qed.

Lemma keeps_ask P : keeps P ask.
Proof. intros env st H. exact H. Qed.

Lemma keeps_gets {A} P (f : Storage -> A) : keeps P (gets f).
Proof. intros env st H. exact H. Qed.

Lemma keeps_lift {A} P (r : Result A) : keeps P (lift r).
Proof. intros env st H. exact H. Qed.

Lemma keeps_bind {A B} P (m : M A) (k : A -> M B) :
  keeps P m -> (forall a, keeps P (k a)) -> keeps P (bind m k).
Proof.
  intros Hm Hk env st H. unfold bind.
  specialize (Hm env st H). destruct (m env st) as [[a|e] st1]; simpl in *.
  - now apply Hk.
  - exact Hm.
Qed.

Lemma keeps_tryCatch {A} P (m : M A) (h : Exn -> M A) :
  keeps P m -> (forall e, keeps P (h e)) -> keeps P (tryCatch m h).
Proof.
  intros Hm Hh env st H. unfold tryCatch.
  specialize (Hm env st H). destruct (m env st) as [[a|e] st1]; simpl in *.
  - exact Hm.
  - now apply Hh.
Qed.

Lemma keeps_getUserParsed P k : keeps P (getUserParsed k).
Proof.
  intros env st H. destruct k as [k|]; [exact H|].
  unfold getUserParsed. unfold_monad. now destruct (backend st).
Qed.

Lemma keeps_run P (h : M Response) env st :
  keeps P h -> P st -> P (snd (run h env st)).
Proof.
  intros Hk H. specialize (Hk env st H). unfold run.
  destruct (h env st) as [[r|e] st1]; exact Hk.
Qed.

(** The writers of the credential store leave the sessions alone, and the
    writers of the session store leave the users alone. *)
Lemma frames_sessions_createUser d : frames sessionPart (createUser d).
Proof.
  intros env st. unfold createUser. unfold_monad.
  destruct (backend st); [reflexivity|].
  destruct (insertViolation _ _); reflexivity.
Qed.

Lemma frames_sessions_updateUser k d : frames sessionPart (updateUser k d).
Proof.
  intros env st. unfold updateUser. unfold_monad.
  repeat (break_match; try reflexivity).
Qed.

Lemma frames_sessions_setUserRole k r : frames sessionPart (setUserRole k r).
Proof.
  intros env st. unfold setUserRole. unfold_monad.
  repeat (break_match; try reflexivity).
Qed.

Lemma frames_sessions_logActivity a d k : frames sessionPart (logActivity a d k).
Proof. intros env st. reflexivity. Qed.

Lemma frames_users_logActivity a d k : frames userPart (logActivity a d k).
Proof. intros env st. reflexivity. Qed.

Lemma frames_users_reqLogin req u : frames userPart (reqLogin req u).
Proof. intros env st. reflexivity. Qed.

Lemma frames_users_reqLogout req : frames userPart (reqLogout req).
Proof. intros env st. reflexivity. Qed.

Lemma keeps_of_frames {A X} (f : Storage -> X) P (m : M A) :
  (forall st st', f st' = f st -> P st -> P st') ->
  frames f m -> keeps P m.
Proof. intros Hext Hm env st H. exact (Hext st _ (Hm env st) H). Qed.

Lemma tokensBelow_reads_sessions st st' :
  sessionPart st' = sessionPart st -> tokensBelow st -> tokensBelow st'.
Proof.
  unfold sessionPart, tokensBelow. intros Heq H. injection Heq as Hs Hn.
  rewrite Hs, Hn. exact H.
Qed.

Lemma In_dropSession req ss s : In s (dropSession req ss) -> In s ss.
Proof.
  unfold dropSession. destruct (cookie req); [|trivial].
  intros H. now apply filter_In in H.
Qed.

Lemma keeps_tokensBelow_reqLogin req u : keeps tokensBelow (reqLogin req u).
Proof.
  intros env st H s Hin. cbn in Hin |- *.
  apply in_app_or in Hin as [Hin|[<-|[]]].
  - apply In_dropSession in Hin. specialize (H s Hin). lia.
  - simpl. lia.
Qed.

Lemma keeps_tokensBelow_reqLogout req : keeps tokensBelow (reqLogout req).
Proof.
  intros env st H s Hin. cbn in Hin |- *.
  apply in_app_or in Hin as [Hin|[<-|[]]].
  - apply In_dropSession in Hin. specialize (H s Hin). lia.
  - simpl. lia.
Qed.

Ltac keeps_structure :=
  first
    [ apply keeps_ret | apply keeps_throw | apply keeps_ask
    | apply keeps_gets | apply keeps_lift | apply keeps_getUserParsed
    | apply keeps_bind; [|intros ?]
    | apply keeps_tryCatch; [|intros ?]
    | match goal with
      | |- keeps _ (match ?x with _ => _ end) => destruct x
      end
    | progress cbv zeta ].

Ltac unfold_routes :=
  unfold route;
  unfold register, login, authenticateLocal, localVerify, logout, currentUser,
    googleCallback, googleVerify, devLogin, updateProfile, changePassword,
    makeAdmin, createAdmin, next, redirect, notAuthenticated, reqUser,
    getUser, getUserByUsername, getUserByEmail, getUserByProviderId.

Lemma keeps_tokensBelow_route req c : keeps tokensBelow (route req c).
Proof.
  destruct c; unfold_routes;
    repeat first
      [ apply keeps_tokensBelow_reqLogin
      | apply keeps_tokensBelow_reqLogout
      | apply (keeps_of_frames sessionPart _ _ tokensBelow_reads_sessions);
        first [ apply frames_sessions_createUser | apply frames_sessions_updateUser
              | apply frames_sessions_setUserRole | apply frames_sessions_logActivity ]
      | keeps_structure ].
Qed.

(** Every token of a reachable session store is below the counter. *)
Lemma reachable_tokensBelow b st : reachable b st -> tokensBelow st.
Proof.
  induction 1 as [|st env req c Hreach IH].
  - intros s [].
  - unfold serve. apply keeps_run; [apply keeps_tokensBelow_route|exact IH].
Qed.

Lemma find_app_none {A} (p : A -> bool) l1 l2 :
  (forall x, In x l1 -> p x = false) -> find p (l1 ++ l2) = find p l2.
Proof.
  induction l1 as [|x l1 IH]; intros H; [reflexivity|].
  simpl. rewrite (H x (or_introl eq_refl)). apply IH. intros y Hy. apply H. now right.
Qed.

Lemma find_hasId_of_In rows u :
  NoDup (map id rows) -> In u rows -> find (hasId (id u)) rows = Some u.
Proof.
  induction rows as [|r rows IH]; simpl; [intros _ []|].
  intros Hnd Hin. inversion Hnd as [|? ? Hr Hnd']; subst.
  destruct Hin as [->|Hin].
  - unfold hasId. now rewrite Z.eqb_refl.
  - destruct (hasId (id u) r) eqn:E; [|now apply IH].
    apply Z.eqb_eq in E. elim Hr. rewrite E. now apply in_map.
Qed.

Lemma find_hasId_new b st u :
  Invariant b st -> id u = userId st ->
  find (hasId (id u)) (users st ++ [u]) = Some u.
Proof.
  intros [_ Hfresh _ _ _] Hid. rewrite find_app_none.
  - simpl. unfold hasId. now rewrite Z.eqb_refl.
  - intros x Hx. specialize (Hfresh x Hx). unfold hasId. apply Z.eqb_neq. lia.
Qed.

(** The session [req.login] opens resolves to the user it was opened for. *)
Lemma identity_new_session tnow req u e st st' :
  tokensBelow st ->
  sessions st' = (dropSession req (sessions st)
                  ++ [mkSession (sessionId st) (Some (id u)) e])%list ->
  find (hasId (id u)) (users st') = Some u ->
  tnow < e ->
  identity tnow (mkRequest (Some (sessionId st))) st' = Some u.
Proof.
  intros Hbelow Hs Hu Hlt. unfold identity. cbn [cookie]. rewrite Hs.
  rewrite find_app_none.
  - unfold find, liveSession. cbn [token expires passportUser].
    rewrite Z.eqb_refl. apply Z.ltb_lt in Hlt. rewrite Hlt. exact Hu.
  - intros s Hin. apply In_dropSession in Hin. specialize (Hbelow s Hin).
    unfold liveSession. apply andb_false_intro1. apply Z.eqb_neq. lia.
Qed.



Ltac run_cases :=
  unfold_monad;
  repeat (break_match; cbn -[orNullId append dropSession maxAge hashPassword]);
  intros Hrun; injection Hrun as <- <-;
  cbn -[orNullId append dropSession maxAge hashPassword];
  intros Hc; try discriminate.

(** What a successful login leaves. *)
Lemma login_shape env st req uname pw resp st' t :
  serve env req (CallLogin uname pw) st = (resp, st') ->
  setCookie resp = Some t ->
  exists u h,
    find (hasUsername uname) (users st) = Some u /\
    password u = Some h /\
    comparePasswords pw h = Ok true /\
    resp = mkResponse 200 (publicUser u) (Some (sessionId st)) /\
    userPart st' = userPart st /\
    sessions st'
    = (dropSession req (sessions st)
       ++ [mkSession (sessionId st) (Some (id u)) (now env + maxAge)])%list.
Proof.
  unfold serve, run, route, login, authenticateLocal, localVerify,
    getUserByUsername, reqLogin, logActivity, createActivity, next.
  run_cases.
  eexists _, _. repeat split; try eassumption; reflexivity.
Qed.

(** What a successful registration leaves. *)
Lemma register_shape env st req uname mail pw nm resp st' t :
  serve env req (CallRegister uname mail pw nm) st = (resp, st') ->
  setCookie resp = Some t ->
  find (hasUsername uname) (users st) = None /\
  find (hasEmail mail) (users st) = None /\
  resp = mkResponse 201
           (publicUser (registered (userId st) (now env) (entropy env) uname mail pw nm))
           (Some (sessionId st)) /\
  backend st' = backend st /\
  users st'
  = (users st ++ [registered (userId st) (now env) (entropy env) uname mail pw nm])%list /\
  userId st' = userId st + 1 /\
  sessions st'
  = (dropSession req (sessions st)
     ++ [mkSession (sessionId st) (Some (userId st)) (now env + maxAge)])%list.
Proof.
  unfold serve, run, route, register, getUserByUsername, getUserByEmail,
    createUser, reqLogin, logActivity, createActivity, next, registered.
  run_cases; repeat split; try eassumption; reflexivity.
Qed.

(** What a successful Google callback leaves. *)
Lemma googleCallback_shape env st req profile resp st' t :
  serve env req (CallGoogleCallback (OAuthProfile profile)) st = (resp, st') ->
  setCookie resp = Some t ->
  exists u,
    (find (hasProviderId Google (g_id profile)) (users st) = Some u /\
     userPart st' = userPart st
     \/
     find (hasProviderId Google (g_id profile)) (users st) = None /\
     u = provisioned (userId st) (now env) profile /\
     backend st' = backend st /\
     users st' = (users st ++ [u])%list /\
     userId st' = userId st + 1) /\
    resp = mkResponse 302 (Redirect "/") (Some (sessionId st)) /\
    sessions st'
    = (dropSession req (sessions st)
       ++ [mkSession (sessionId st) (Some (id u)) (now env + maxAge)])%list.
Proof.
  unfold serve, run, route, googleCallback, googleVerify, getUserByProviderId,
    createUser, reqLogin, logActivity, createActivity, redirect, provisioned.
  run_cases.
  all: eexists;
    (split;
     [ first [ left; split; [first [eassumption|reflexivity]|reflexivity]
             | right; repeat split; try eassumption; reflexivity ]
     | split; reflexivity ]).
Qed.

(** What a successful development login leaves. *)
Lemma devLogin_shape env st req q_email q_name q_admin resp st' t :
  serve env req (CallDevLogin q_email q_name q_admin) st = (resp, st') ->
  setCookie resp = Some t ->
  exists u,
    (find (hasEmail (Js.orElse q_email "dev@example.com")) (users st) = Some u /\
     userPart st' = userPart st
     \/
     find (hasEmail (Js.orElse q_email "dev@example.com")) (users st) = None /\
     u = devAccount (userId st) (now env) q_email q_name q_admin /\
     backend st' = backend st /\
     users st' = (users st ++ [u])%list /\
     userId st' = userId st + 1) /\
    resp = mkResponse 302 (Redirect "/") (Some (sessionId st)) /\
    sessions st'
    = (dropSession req (sessions st)
       ++ [mkSession (sessionId st) (Some (id u)) (now env + maxAge)])%list.
Proof.
  unfold serve, run, route, devLogin, getUserByEmail,
    createUser, reqLogin, logActivity, createActivity, redirect, devAccount.
  run_cases.
  all: eexists;
    (split;
     [ first [ left; split; [first [eassumption|reflexivity]|reflexivity]
             | right; repeat split; try eassumption; reflexivity ]
     | split; reflexivity ]).
Qed.

(** ** Registration, login and password change compose *)

Lemma hashPassword_nonempty random pw :
  exists c h, hashPassword random pw = String c h.
Proof.
  unfold hashPassword. cbv zeta.
  destruct (Js.toStringHex (scrypt pw (Js.toStringHex random) 64)) as [|c h];
    simpl; eauto.
Qed.

Lemma comparePasswords_own_hash random pw :
  comparePasswords pw (hashPassword random pw) = Ok true.
Proof.
  rewrite comparePasswords_hashPassword. f_equal. now apply bytes_eqb_eq.
Qed.

(** A login with the name of a stored user and a password that verifies
    against the stored one is answered 200 with that user and a new cookie. *)
Lemma login_accepts env st req uname pw u h :
  uname <> EmptyString -> pw <> EmptyString ->
  find (hasUsername uname) (users st) = Some u ->
  password u = Some h ->
  comparePasswords pw h = Ok true ->
  exists st1,
    serve env req (CallLogin uname pw) st
    = (mkResponse 200 (publicUser u) (Some (sessionId st)), st1) /\
    userPart st1 = userPart st.
Proof.
  intros Hu Hp Hfind Hpw Hok.
  destruct uname as [|cu uname]; [now elim Hu|].
  destruct pw as [|cp pw]; [now elim Hp|].
  destruct h as [|c h]; [discriminate Hok|].
  unfold serve, route, run, login, authenticateLocal, localVerify,
    getUserByUsername, reqLogin, logActivity, createActivity.
  unfold_monad. rewrite Hfind, Hpw, Hok.
  eexists. split; reflexivity.
Qed.

Lemma find_app_new (p : User -> bool) rows u :
  find p rows = None -> p u = true -> find p (rows ++ [u]) = Some u.
Proof.
  intros Hnone Hp. rewrite find_app_none.
  - simpl. now rewrite Hp.
  - intros x Hx. exact (find_none _ _ Hnone x Hx).
Qed.

(** X5. Registration and login fit: after a successful registration, a login
    with the same username and password succeeds and is answered with the
    registered user, whose role is "user" and whose provider is "local". *)
Theorem register_then_login :
  forall env st req uname mail pw nm resp st',
    uname <> EmptyString ->
    pw <> EmptyString ->
    serve env req (CallRegister uname mail pw nm) st = (resp, st') ->
    status resp = 201 ->
    exists u,
      In u (users st') /\
      username u = uname /\ email u = mail /\
      role u = RoleUser /\ provider u = Local /\
      forall env1 req1,
        exists t st1,
          serve env1 req1 (CallLogin uname pw) st'
          = (mkResponse 200 (publicUser u) (Some t), st1).
Proof.
  intros env st req uname mail pw nm resp st' Hu Hp Hrun Hok.
  assert (Hcookie : setCookie resp = Some (sessionId st)).
  { revert Hrun Hok.
    unfold serve, run, route, register, getUserByUsername, getUserByEmail,
      createUser, reqLogin, logActivity, createActivity, next.
    run_cases; reflexivity. }
  destruct (register_shape _ _ _ _ _ _ _ _ _ _ Hrun Hcookie)
    as [Hfree [_ [_ [_ [Husers _]]]]].
  exists (registered (userId st) (now env) (entropy env) uname mail pw nm).
  split; [rewrite Husers; apply in_or_app; right; now left|].
  repeat split.
  intros env1 req1.
  destruct (hashPassword_nonempty (entropy env) pw) as [c [h Hh]].
  destruct (login_accepts env1 st' req1 uname pw
              (registered (userId st) (now env) (entropy env) uname mail pw nm)
              (hashPassword (entropy env) pw) Hu Hp) as [st1 [Hlogin _]].
  - rewrite Husers. apply find_app_new; [exact Hfree|].
    unfold hasUsername. simpl. apply String.eqb_refl.
  - unfold registered. simpl. now rewrite Hh.
  - apply comparePasswords_own_hash.
  - eauto.
Qed.

Lemma identity_find tnow req st caller :
  identity tnow req st = Some caller ->
  find (hasId (id caller)) (users st) = Some caller.
Proof.
  unfold identity. destruct (cookie req) as [t|]; [|discriminate].
  destruct (find (liveSession t tnow) (sessions st)) as [s|]; [|discriminate].
  destruct (passportUser s) as [uid|]; [|discriminate].
  intros Hfind. now rewrite (find_hasId_id _ _ _ Hfind).
Qed.

Lemma sameId_refl k : sameId k (Some k) = true.
Proof. apply Z.eqb_refl. Qed.

(** The store after a password change of [caller]. *)
Lemma changePassword_own env st req caller cur new :
  identity (now env) req st = Some caller ->
  serve env req (CallChangePassword (Some (id caller)) cur new) st
  = if negb (Provider_eqb (provider caller) Local)
    then (json 400 (JsonMessage
                      ("Não é possível alterar a senha para contas de "
                         ++ providerName (provider caller)
                         ++ ". Use o provedor de autenticação original.")), st)
    else match password caller with
         | Some (String c h) =>
             match comparePasswords cur (String c h) with
             | Ok true =>
                 (json 200 (JsonMessage "Senha alterada com sucesso"),
                  withActivities
                    (activities st
                     ++ [mkActivity (activityId st) None None
                           (orNullId (Some (id caller))) "password_change" (now env)
                           (username caller ++ " alterou sua senha")])
                    (activityId st + 1)
                    (withUsers
                       (writeRow (backend st) (id caller)
                          (withPassword (hashPassword (entropy env) new) caller)
                          (users st))
                       (userId st) st))
             | Ok false => (json 401 (JsonMessage "Senha atual incorreta"), st)
             | Throw e => (json 500 (JsonMessage (errMessage e)), st)
             end
         | _ => (json 401 (JsonMessage "Senha atual incorreta"), st)
         end.
Proof.
  intros Hid. pose proof (identity_find _ _ _ _ Hid) as Hfind.
  unfold serve, route, changePassword.
  rewrite run_bind_reqUser, Hid, sameId_refl. cbn [negb].
  unfold run, getUserParsed, getUser, updateUser, logActivity, createActivity, next.
  unfold_monad. cbn [fst snd]. rewrite Hfind.
  destruct (negb (Provider_eqb (provider caller) Local)); [reflexivity|].
  destruct (password caller) as [[|c h]|]; try reflexivity.
  destruct (comparePasswords cur (String c h)) as [[|]|e]; try reflexivity.
  cbn -[orNullId append hashPassword]. destruct (backend st).
  - rewrite Hfind. reflexivity.
  - cbn -[orNullId append hashPassword]. rewrite Hfind. reflexivity.
Qed.

(** C8, as the code has it. [comparePasswords] returns a boolean exactly on a
    stored string whose part before the first separator decodes, as
    hexadecimal, to 64 bytes. On a stored string with no separator, and on one
    whose digest part decodes to another length (content that is not
    hexadecimal, a digest of the wrong length), it throws to its caller. The
    callers do not take the error for a mismatch: the verify callback of the
    local strategy hands it to [done], and the login route and the
    change-password route hand it to [next], which answers 500 with the
    message of the error; the store is left as it was. *)
Theorem comparePasswords_throws_on_malformed_hash :
  forall supplied stored,
    (Js.contains "." stored = false ->
     comparePasswords supplied stored = Throw ERR_INVALID_ARG_TYPE) /\
    (forall hashed rest,
        stored = hashed ++ "." ++ rest ->
        Js.contains "." hashed = false ->
        (length (Js.bufferFromHex hashed) = 64%nat ->
         exists b, comparePasswords supplied stored = Ok b) /\
        (length (Js.bufferFromHex hashed) <> 64%nat ->
         comparePasswords supplied stored = Throw ERR_CRYPTO_TIMING_SAFE_EQUAL_LENGTH)) /\
    (forall e env st req,
        comparePasswords supplied stored = Throw e ->
        stored <> EmptyString ->
        (forall uname u,
            uname <> EmptyString ->
            supplied <> EmptyString ->
            find (hasUsername uname) (users st) = Some u ->
            password u = Some stored ->
            localVerify uname supplied env st = (Throw e, st) /\
            serve env req (CallLogin uname supplied) st
            = (json 500 (JsonMessage (errMessage e)), st)) /\
        (forall caller new,
            identity (now env) req st = Some caller ->
            provider caller = Local ->
            password caller = Some stored ->
            serve env req (CallChangePassword (Some (id caller)) supplied new) st
            = (json 500 (JsonMessage (errMessage e)), st))).
Proof.
  intros supplied stored. split; [|split].
  - intros Hdot. unfold comparePasswords.
    rewrite (split_no_sep _ _ Hdot). reflexivity.
  - intros hashed rest -> Hdot. rewrite (comparePasswords_split _ _ _ Hdot).
    split; intros Hlen.
    + rewrite Hlen. simpl. eauto.
    + apply Nat.eqb_neq in Hlen. now rewrite Hlen.
  - intros e env st req Hthrow Hstored.
    destruct stored as [|c h]; [now elim Hstored|]. split.
    + intros uname u Huname Hsupplied Hfind Hpw.
      destruct uname as [|cu uname]; [now elim Huname|].
      destruct supplied as [|cp supplied]; [now elim Hsupplied|].
      unfold serve, route, run, login, authenticateLocal, localVerify,
        getUserByUsername, next.
      unfold_monad. rewrite Hfind, Hpw, Hthrow. split; reflexivity.
    + intros caller new Hid Hlocal Hpw.
      rewrite (changePassword_own _ _ _ _ _ _ Hid), Hlocal, Hpw, Hthrow.
      reflexivity.
Qed.

(** X6. A password change is refused, and changes nothing, for an account
    that is not local (400, naming the provider) and for a local account when
    the current password does not verify (401). *)
Theorem changePassword_refusals :
  forall env st req caller cur new,
    identity (now env) req st = Some caller ->
    (provider caller <> Local ->
     serve env req (CallChangePassword (Some (id caller)) cur new) st
     = (json 400 (JsonMessage
                    ("Não é possível alterar a senha para contas de "
                       ++ providerName (provider caller)
                       ++ ". Use o provedor de autenticação original.")), st)) /\
    (provider caller = Local ->
     (forall h, password caller = Some h -> comparePasswords cur h = Ok false) ->
     serve env req (CallChangePassword (Some (id caller)) cur new) st
     = (json 401 (JsonMessage "Senha atual incorreta"), st)).
Proof.
  intros env st req caller cur new Hid. rewrite (changePassword_own _ _ _ _ _ _ Hid).
  split.
  - intros Hp. destruct (provider caller); [now elim Hp| | |]; reflexivity.
  - intros Hp Hwrong. rewrite Hp. cbn [Provider_eqb negb].
    destruct (password caller) as [[|c h]|]; try reflexivity.
    now rewrite (Hwrong _ eq_refl).
Qed.

Lemma find_replaceRow_first (p : User -> bool) k u v rows :
  NoDup (map id rows) ->
  find p rows = Some u -> id u = k -> p v = true ->
  find p (replaceRow k v rows) = Some v.
Proof.
  intros Hnd Hfind Hk Hv. induction rows as [|r rows IH]; [discriminate|].
  inversion Hnd as [|? ? Hr Hnd']; subst.
  cbn [find] in Hfind. cbn [replaceRow map find].
  destruct (p r) eqn:Hp.
  - injection Hfind as ->.
    assert (Hself : hasId (id u) u = true) by apply Z.eqb_refl.
    rewrite Hself, Hv. reflexivity.
  - destruct (hasId (id u) r) eqn:Hid.
    + apply Z.eqb_eq in Hid. apply find_some in Hfind as [Hin _].
      elim Hr. rewrite Hid. now apply in_map.
    + rewrite Hp. now apply IH.
Qed.

Lemma find_writeRow_unique (p : User -> bool) bk k u v rows :
  find (hasId k) rows = Some u ->
  (forall r, In r rows -> p r = true -> id r = k) ->
  p v = true ->
  find p (writeRow bk k v rows) = Some v.
Proof.
  intros Hfind Honly Hv. destruct bk; unfold writeRow, moveRow.
  - induction rows as [|r rows IH]; [discriminate|].
    cbn [find] in Hfind. cbn [replaceRow map find].
    destruct (hasId k r) eqn:Hid; [now rewrite Hv|].
    destruct (p r) eqn:Hp.
    + apply Z.eqb_neq in Hid. elim Hid. apply Honly; [now left|exact Hp].
    + apply IH; [exact Hfind|]. intros x Hx. apply Honly. now right.
  - clear Hfind. induction rows as [|r rows IH]; [simpl; now rewrite Hv|].
    cbn [filter]. destruct (hasId k r) eqn:Hid; cbn [negb].
    + apply IH. intros x Hx. apply Honly. now right.
    + cbn [app find]. destruct (p r) eqn:Hp.
      * apply Z.eqb_neq in Hid. elim Hid. apply Honly; [now left|exact Hp].
      * apply IH. intros x Hx. apply Honly. now right.
Qed.

(** X7. Password change and login fit: after a successful change, a login of
    that user with the new password succeeds and a login with another
    password fails with the generic message, unless scrypt maps both
    passwords to one key under the new salt. The username has to lead
    [getUserByUsername] to that user: no other user carries it, or, on
    [MemStorage], whose [Map] keeps the place of an updated entry, the user is
    the first stored under it. *)
Theorem changePassword_then_login :
  forall b st env req caller cur new resp st',
    reachable b st ->
    identity (now env) req st = Some caller ->
    (b = MemStorage /\ find (hasUsername (username caller)) (users st) = Some caller
     \/ forall u, In u (users st) -> username u = username caller -> u = caller) ->
    username caller <> EmptyString ->
    new <> EmptyString ->
    serve env req (CallChangePassword (Some (id caller)) cur new) st = (resp, st') ->
    status resp = 200 ->
    forall env1 req1,
      status (fst (serve env1 req1 (CallLogin (username caller) new) st')) = 200 /\
      (forall old,
          old <> EmptyString ->
          scrypt old (Js.toStringHex (entropy env)) 64
          <> scrypt new (Js.toStringHex (entropy env)) 64 ->
          serve env1 req1 (CallLogin (username caller) old) st'
          = (json 401 (JsonMessage "Credenciais inválidas"), st')).
Proof.
  intros b st env req caller cur new resp st' Hreach Hid Hname Hu Hnew Hrun Hok env1 req1.
  assert (Hreach' : reachable b st').
  { replace st' with (snd (serve env req (CallChangePassword (Some (id caller)) cur new) st))
      by now rewrite Hrun.
    now constructor. }
  pose proof (reachable_Invariant _ _ Hreach) as [Hbk _ Hids _ _].
  pose proof (identity_find _ _ _ _ Hid) as Hcaller.
  rewrite (changePassword_own _ _ _ _ _ _ Hid) in Hrun.
  destruct (negb (Provider_eqb (provider caller) Local));
    [injection Hrun as <- <-; discriminate Hok|].
  destruct (password caller) as [[|c h]|];
    try (injection Hrun as <- <-; discriminate Hok).
  destruct (comparePasswords cur (String c h)) as [[|]|e];
    try (injection Hrun as <- <-; discriminate Hok).
  injection Hrun as _ Hst'.
  set (v := withPassword (hashPassword (entropy env) new) caller) in *.
  assert (Hfind : find (hasUsername (username caller)) (users st') = Some v).
  { rewrite <- Hst'. cbn [users withActivities withUsers].
    assert (Hv : hasUsername (username caller) v = true).
    { unfold hasUsername, v. simpl. apply String.eqb_refl. }
    destruct Hname as [[Hmem Hfirst]|Honly].
    - rewrite Hbk, Hmem. cbn [writeRow].
      apply (find_replaceRow_first _ _ caller); try assumption; reflexivity.
    - apply (find_writeRow_unique _ _ _ caller); [exact Hcaller| |exact Hv].
      intros r Hr Hp. apply String.eqb_eq in Hp. now rewrite (Honly r Hr Hp). }
  clear Hst'.
  split.
  - destruct (login_accepts env1 st' req1 (username caller) new v
                (hashPassword (entropy env) new) Hu Hnew Hfind eq_refl
                (comparePasswords_own_hash _ _)) as [st1 [-> _]].
    reflexivity.
  - intros old Hold Hdiff. apply (login_rejects b); try assumption.
    intros u' h' Hfind' Hpw'. rewrite Hfind in Hfind'. injection Hfind' as <-.
    simpl in Hpw'. injection Hpw' as <-.
    rewrite comparePasswords_hashPassword. intros Heq. injection Heq as Heq.
    apply bytes_eqb_eq in Heq. now elim Hdiff.
Qed.

(** ** Federated identities *)

Lemma map_replaceRow_same {A} (g : User -> A) k u v rows :
  NoDup (map id rows) ->
  find (hasId k) rows = Some u ->
  g v = g u ->
  map g (replaceRow k v rows) = map g rows.
Proof.
  intros Hnd Hfind Hg. induction rows as [|r rows IH]; [reflexivity|].
  inversion Hnd as [|? ? Hr Hnd']; subst.
  cbn [find] in Hfind. cbn [replaceRow map].
  destruct (hasId k r) eqn:Hid.
  - injection Hfind as ->. rewrite Hg. f_equal.
    apply Z.eqb_eq in Hid. subst k.
    fold (replaceRow (id u) v rows). now rewrite (replaceRow_absent _ _ _ Hr).
  - f_equal. now apply IH.
Qed.

Lemma Permutation_map_writeRow {A} (g : User -> A) bk k u v rows :
  NoDup (map id rows) ->
  find (hasId k) rows = Some u ->
  g v = g u ->
  Permutation (map g (writeRow bk k v rows)) (map g rows).
Proof.
  intros Hnd Hfind Hg. rewrite <- (map_replaceRow_same g k u v rows Hnd Hfind Hg).
  apply Permutation_map. now apply (Permutation_writeRow _ _ u).
Qed.

Lemma googleIds_as_map rows :
  googleIds rows
  = concat (map (fun u => match provider u, providerId u with
                          | Google, Some p => [p]
                          | _, _ => []
                          end) rows).
Proof. unfold googleIds. now rewrite flat_map_concat_map. Qed.

Lemma In_googleIds p rows :
  In p (googleIds rows) <->
  exists u, In u rows /\ provider u = Google /\ providerId u = Some p.
Proof.
  unfold googleIds. rewrite in_flat_map. split.
  - intros [u [Hin Hp]]. exists u. split; [exact Hin|].
    destruct (provider u); try contradiction.
    destruct (providerId u) as [q|]; [|contradiction].
    destruct Hp as [->|[]]. now split.
  - intros [u [Hin [Hg Hp]]]. exists u. split; [exact Hin|].
    rewrite Hg, Hp. now left.
Qed.

Lemma hasProviderId_true p u :
  hasProviderId Google p u = true <-> provider u = Google /\ providerId u = Some p.
Proof.
  unfold hasProviderId. split.
  - intros H. apply andb_prop in H as [Hg Hp].
    destruct (provider u); try discriminate.
    destruct (providerId u) as [q|]; [|discriminate].
    apply String.eqb_eq in Hp. now subst.
  - intros [-> ->]. simpl. apply String.eqb_refl.
Qed.

Lemma find_google_none p rows :
  find (hasProviderId Google p) rows = None -> ~ In p (googleIds rows).
Proof.
  intros Hnone Hin. apply In_googleIds in Hin as [u [Hin Hu]].
  apply hasProviderId_true in Hu.
  pose proof (find_none _ _ Hnone u Hin). congruence.
Qed.

Lemma googleIds_app rows u :
  googleIds (rows ++ [u])
  = (googleIds rows ++ match provider u, providerId u with
                       | Google, Some p => [p]
                       | _, _ => []
                       end)%list.
Proof. unfold googleIds. rewrite flat_map_app. simpl. now rewrite app_nil_r. Qed.

(** What a Google callback does to the credential store, however it ends. *)
Lemma googleCallback_users env st req outcome :
  userPart (snd (serve env req (CallGoogleCallback outcome) st)) = userPart st \/
  exists profile,
    outcome = OAuthProfile profile /\
    find (hasProviderId Google (g_id profile)) (users st) = None /\
    backend (snd (serve env req (CallGoogleCallback outcome) st)) = backend st /\
    users (snd (serve env req (CallGoogleCallback outcome) st))
    = (users st ++ [provisioned (userId st) (now env) profile])%list /\
    userId (snd (serve env req (CallGoogleCallback outcome) st)) = userId st + 1.
Proof.
  destruct outcome as [profile| |]; [|left; reflexivity|left; reflexivity].
  unfold serve, run, route, googleCallback, googleVerify, getUserByProviderId,
    createUser, reqLogin, logActivity, createActivity, redirect, provisioned.
  unfold_monad.
  repeat (break_match;
          cbn -[orNullId append dropSession maxAge Js.orNull Js.orElse Js.template]);
    first [ left; reflexivity
          | right; eexists; repeat split; first [eassumption|reflexivity] ].
Qed.

(** X8. Provisioning happens once: after a successful Google callback for a
    profile with an id, a further callback for that profile, whenever it
    comes, signs in and adds no user. *)
Theorem googleCallback_provisions_once :
  forall env st req profile resp st',
    g_id profile <> EmptyString ->
    serve env req (CallGoogleCallback (OAuthProfile profile)) st = (resp, st') ->
    body resp = Redirect "/" ->
    forall env1 req1,
      body (fst (serve env1 req1 (CallGoogleCallback (OAuthProfile profile)) st'))
      = Redirect "/" /\
      users (snd (serve env1 req1 (CallGoogleCallback (OAuthProfile profile)) st'))
      = users st'.
Proof.
  intros env st req profile resp st' Hid Hrun Hok.
  assert (Hcookie : setCookie resp = Some (sessionId st)).
  { revert Hrun Hok.
    unfold serve, run, route, googleCallback, googleVerify, getUserByProviderId,
      createUser, reqLogin, logActivity, createActivity, redirect.
    run_cases; reflexivity. }
  assert (Hfound : exists u,
             find (hasProviderId Google (g_id profile)) (users st') = Some u).
  { destruct (googleCallback_shape _ _ _ _ _ _ _ Hrun Hcookie)
      as [u [[[Hfind Hpart]|[Hnone [-> [_ [Hu _]]]]] _]].
    - injection Hpart as _ -> _. eauto.
    - eexists. rewrite Hu. apply find_app_new; [exact Hnone|].
      apply hasProviderId_true. unfold provisioned. simpl.
      destruct (g_id profile); [now elim Hid|]. now split. }
  destruct Hfound as [u Hfound]. intros env1 req1.
  unfold serve, run, route, googleCallback, googleVerify, getUserByProviderId,
    reqLogin, logActivity, createActivity.
  unfold_monad. rewrite Hfound. split; reflexivity.
Qed.

Lemma createUser_users d env st :
  userPart (snd (createUser d env st)) = userPart st \/
  userPart (snd (createUser d env st))
  = (backend st, (users st ++ [newUser (userId st) (now env) d])%list, userId st + 1).
Proof.
  unfold createUser. unfold_monad. destruct (backend st) eqn:Hb.
  - right. unfold userPart. simpl. now rewrite Hb.
  - destruct (insertViolation _ _); [now left|].
    right. unfold userPart. simpl. now rewrite Hb.
Qed.

Lemma updateUser_users k d env st :
  userPart (snd (updateUser k d env st)) = userPart st \/
  exists u,
    find (hasId k) (users st) = Some u /\
    userPart (snd (updateUser k d env st))
    = (backend st, writeRow (backend st) k (mergeUser u d) (users st), userId st).
Proof.
  unfold updateUser. unfold_monad.
  destruct (backend st) eqn:Hb.
  - destruct (find (hasId k) (users st)) as [u|]; [|now left].
    right. exists u. split; [reflexivity|]. unfold userPart. simpl. now rewrite Hb.
  - destruct (isEmptySet d); [now left|].
    destruct (find (hasId k) (users st)) as [u|]; [|now left].
    destruct (updateViolation _ _); [now left|].
    right. exists u. split; [reflexivity|]. unfold userPart. simpl. now rewrite Hb.
Qed.

Lemma setUserRole_users k r env st :
  userPart (snd (setUserRole k r env st)) = userPart st \/
  exists u,
    find (hasId k) (users st) = Some u /\
    userPart (snd (setUserRole k r env st))
    = (backend st, writeRow (backend st) k (withRole r u) (users st), userId st).
Proof.
  unfold setUserRole. unfold_monad.
  destruct (find (hasId k) (users st)) as [u|]; [|now left].
  right. exists u. split; reflexivity.
Qed.

Lemma googleUnique_reads_users b st st' :
  userPart st' = userPart st -> googleUnique b st -> googleUnique b st'.
Proof.
  unfold userPart. intros Heq [Hinv Hnd]. injection Heq as Hb Hu Hn. split.
  - now apply (Invariant_same_users b st).
  - now rewrite Hu.
Qed.

Lemma keeps_google_createUser b d :
  (forall h, i_password d = Some h -> hashed h) ->
  i_provider d <> Some Google ->
  keeps (googleUnique b) (createUser d).
Proof.
  intros Hpw Hprov env st [Hinv Hnd]. split; [now apply preserves_createUser|].
  destruct (createUser_users d env st) as [Heq|Heq];
    injection Heq as _ -> _; [exact Hnd|].
  rewrite googleIds_app. unfold newUser. cbn [provider providerId].
  destruct (i_provider d) as [[| | |]|]; try (now elim Hprov);
    now rewrite app_nil_r.
Qed.

Lemma googleIds_replaceRow k u v rows :
  NoDup (map id rows) ->
  find (hasId k) rows = Some u ->
  provider v = provider u -> providerId v = providerId u ->
  googleIds (replaceRow k v rows) = googleIds rows.
Proof.
  intros Hnd Hfind Hp Hpid. rewrite !googleIds_as_map. f_equal.
  apply (map_replaceRow_same _ _ u); [exact Hnd|exact Hfind|].
  now rewrite Hp, Hpid.
Qed.

Lemma googleIds_writeRow bk k u v rows :
  NoDup (map id rows) ->
  find (hasId k) rows = Some u ->
  provider v = provider u -> providerId v = providerId u ->
  NoDup (googleIds rows) ->
  NoDup (googleIds (writeRow bk k v rows)).
Proof.
  intros Hnd Hfind Hp Hpid Hg.
  rewrite <- (googleIds_replaceRow k u v rows Hnd Hfind Hp Hpid) in Hg.
  apply (Permutation_NoDup (l := googleIds (replaceRow k v rows))); [|exact Hg].
  unfold googleIds. apply Permutation_flat_map, Permutation_sym.
  now apply (Permutation_writeRow _ _ u).
Qed.

Lemma keeps_google_updateUser b k d :
  (forall h, p_password d = Some (Some h) -> hashed h) ->
  p_provider d = None -> p_providerId d = None ->
  keeps (googleUnique b) (updateUser k d).
Proof.
  intros Hpw Hp Hpid env st [Hinv Hnd]. split; [now apply preserves_updateUser|].
  destruct (updateUser_users k d env st) as [Heq|[u [Hfind Heq]]];
    injection Heq as _ -> _; [exact Hnd|].
  apply (googleIds_writeRow _ k u); try assumption.
  - now destruct Hinv.
  - simpl. now rewrite Hp.
  - simpl. now rewrite Hpid.
Qed.

Lemma keeps_google_setUserRole b k r : keeps (googleUnique b) (setUserRole k r).
Proof.
  intros env st [Hinv Hnd]. split; [now apply preserves_setUserRole|].
  destruct (setUserRole_users k r env st) as [Heq|[u [Hfind Heq]]];
    injection Heq as _ -> _; [exact Hnd|].
  apply (googleIds_writeRow _ k u); try assumption; try reflexivity.
  now destruct Hinv.
Qed.

Ltac keeps_users_frame ext :=
  apply (keeps_of_frames userPart _ _ ext);
  first [ apply frames_users_logActivity | apply frames_users_reqLogin
        | apply frames_users_reqLogout ].

Ltac hashed_side :=
  simpl; intros ? Hpw;
  first [ discriminate Hpw | injection Hpw as <-; apply hashed_hashPassword ].

Lemma keeps_google_route b req c : keeps (googleUnique b) (route req c).
Proof.
  destruct c as [| | | |outcome| | | | |];
    try (unfold_routes;
         repeat first
           [ keeps_users_frame (googleUnique_reads_users b)
           | apply keeps_google_createUser; [hashed_side|discriminate]
           | apply keeps_google_updateUser; [hashed_side|reflexivity|reflexivity]
           | apply keeps_google_setUserRole
           | keeps_structure ]; fail).
  intros env st Hg. pose proof Hg as [Hinv Hnd].
  assert (Hrun : snd (route req (CallGoogleCallback outcome) env st)
                 = snd (serve env req (CallGoogleCallback outcome) st)).
  { unfold serve, run. now destruct (route req (CallGoogleCallback outcome) env st)
      as [[r|e] st1]. }
  rewrite Hrun.
  destruct (googleCallback_users env st req outcome)
    as [Heq|[profile [_ [Hnone [_ [Hu _]]]]]].
  - exact (googleUnique_reads_users b st _ Heq Hg).
  - split.
    + rewrite <- Hrun. now apply preserves_route.
    + rewrite Hu, googleIds_app. unfold provisioned, newUser. cbn [provider providerId].
      destruct (g_id profile) as [|c s] eqn:Hid; cbn [Js.orNull].
      * now rewrite app_nil_r.
      * apply NoDup_snoc; [exact Hnd|]. now apply find_google_none.
Qed.

Lemma NoDup_googleIds_unique rows u1 u2 p :
  NoDup (googleIds rows) ->
  In u1 rows -> In u2 rows ->
  provider u1 = Google -> providerId u1 = Some p ->
  provider u2 = Google -> providerId u2 = Some p ->
  u1 = u2.
Proof.
  intros Hnd H1 H2 Hg1 Hp1 Hg2 Hp2.
  induction rows as [|r rows IH]; [contradiction|].
  change (r :: rows) with ([r] ++ rows)%list in Hnd.
  unfold googleIds in Hnd. rewrite flat_map_app in Hnd. fold (googleIds rows) in Hnd.
  assert (Hin : forall u, In u rows -> provider u = Google -> providerId u = Some p ->
                          In p (googleIds rows)).
  { intros u Hu Hg Hp. apply In_googleIds. eauto. }
  assert (Hhead : forall u, u = r -> provider u = Google -> providerId u = Some p ->
                            flat_map (fun u => match provider u, providerId u with
                                               | Google, Some p => [p]
                                               | _, _ => []
                                               end) [r] = [p]).
  { intros u -> Hg Hp. simpl. now rewrite Hg, Hp. }
  destruct H1 as [H1|H1], H2 as [H2|H2].
  - congruence.
  - rewrite (Hhead u1 (eq_sym H1) Hg1 Hp1) in Hnd. inversion Hnd as [|? ? Hnot _]; subst.
    elim Hnot. now apply (Hin u2).
  - rewrite (Hhead u2 (eq_sym H2) Hg2 Hp2) in Hnd. inversion Hnd as [|? ? Hnot _]; subst.
    elim Hnot. now apply (Hin u1).
  - apply IH; try assumption. now apply NoDup_app_remove_l in Hnd.
Qed.

(** X9. In every reachable store a Google id belongs to one user at most:
    the strategy looks the id up before it provisions, and no route rewrites
    a provider or a provider id. *)
Theorem google_identity_unique :
  forall b st u1 u2 p,
    reachable b st ->
    In u1 (users st) -> In u2 (users st) ->
    provider u1 = Google -> providerId u1 = Some p ->
    provider u2 = Google -> providerId u2 = Some p ->
    u1 = u2.
Proof.
  intros b st u1 u2 p Hreach.
  assert (Hg : googleUnique b st).
  { induction Hreach as [|st env req c Hreach IH].
    - split; [apply reachable_Invariant; constructor|constructor].
    - unfold serve. apply keeps_run; [apply keeps_google_route|exact IH]. }
  destruct Hg as [_ Hnd]. now apply NoDup_googleIds_unique.
Qed.

(** ** Roles *)

Lemma noAdmin_reads_users st st' :
  userPart st' = userPart st -> noAdmin st -> noAdmin st'.
Proof.
  unfold userPart, noAdmin. intros Heq H. injection Heq as _ Hu _. now rewrite Hu.
Qed.

Lemma keeps_noAdmin_createUser d :
  match i_role d with Some r => r | None => RoleUser end = RoleUser ->
  keeps noAdmin (createUser d).
Proof.
  intros Hrole env st H.
  destruct (createUser_users d env st) as [Heq|Heq].
  - exact (noAdmin_reads_users _ _ Heq H).
  - injection Heq as _ Hu _. intros u Hin. rewrite Hu in Hin.
    apply in_app_or in Hin as [Hin|[<-|[]]]; [now apply H|exact Hrole].
Qed.

Lemma keeps_noAdmin_updateUser k d :
  p_role d = None -> keeps noAdmin (updateUser k d).
Proof.
  intros Hrole env st H.
  destruct (updateUser_users k d env st) as [Heq|[u [Hfind Heq]]].
  - exact (noAdmin_reads_users _ _ Heq H).
  - injection Heq as _ Hu _. intros r Hin. rewrite Hu in Hin.
    apply In_writeRow in Hin as [->|[Hin _]]; [|now apply H].
    simpl. rewrite Hrole. apply H. now apply find_some in Hfind.
Qed.

(** X10. A store without administrators stays without: no request stores an
    administrator, or promotes a user, unless it is create-admin or a
    development login that asks for the admin role. In particular make-admin
    needs an administrator to act. *)
Theorem no_admin_without_grant :
  forall env st req c,
    mayGrantAdmin c = false ->
    noAdmin st ->
    noAdmin (snd (serve env req c st)).
Proof.
  intros env st req c Hgrant Hnone. unfold serve.
  destruct c as [| | | | |e n a| | |target|]; try discriminate Hgrant.
  9: { unfold route, makeAdmin. rewrite run_bind_reqUser.
       destruct (identity (now env) req st) as [caller|] eqn:Hid; [|exact Hnone].
       apply identity_find, find_some in Hid as [Hin _].
       rewrite (Hnone caller Hin). exact Hnone. }
  all: apply keeps_run; [|exact Hnone].
  all: unfold_routes; simpl in Hgrant; rewrite ?Hgrant;
    repeat first
      [ keeps_users_frame noAdmin_reads_users
      | apply keeps_noAdmin_createUser; reflexivity
      | apply keeps_noAdmin_updateUser; reflexivity
      | keeps_structure ].
Qed.

(** ** The activity log *)

Lemma frames_activities_createUser d : frames activities (createUser d).
Proof.
  intros env st. unfold createUser. unfold_monad.
  destruct (backend st); [reflexivity|].
  destruct (insertViolation _ _); reflexivity.
Qed.

Lemma frames_activities_updateUser k d : frames activities (updateUser k d).
Proof.
  intros env st. unfold updateUser. unfold_monad.
  repeat (break_match; try reflexivity).
Qed.

Lemma frames_activities_setUserRole k r : frames activities (setUserRole k r).
Proof.
  intros env st. unfold setUserRole. unfold_monad.
  repeat (break_match; try reflexivity).
Qed.

Lemma frames_activities_reqLogin req u : frames activities (reqLogin req u).
Proof. intros env st. reflexivity. Qed.

Lemma frames_activities_reqLogout req : frames activities (reqLogout req).
Proof. intros env st. reflexivity. Qed.

Lemma extendsLog_reads_activities st0 st st' :
  activities st' = activities st -> extendsLog st0 st -> extendsLog st0 st'.
Proof. unfold extendsLog. intros ->. trivial. Qed.

Lemma keeps_extendsLog_logActivity st0 a d k : keeps (extendsLog st0) (logActivity a d k).
Proof.
  intros env st [l Hl]. eexists. cbn. rewrite Hl, <- app_assoc. reflexivity.
Qed.

(** X11. The activity log only grows: whatever the request and however it
    ends, the records that were there stay, in their order and unchanged. *)
Theorem activity_log_append_only :
  forall env st req c,
    exists l, activities (snd (serve env req c st)) = (activities st ++ l)%list.
Proof.
  intros env st req c. change (extendsLog st (snd (serve env req c st))).
  unfold serve. apply keeps_run; [|exists []; now rewrite app_nil_r].
  destruct c; unfold_routes;
    repeat first
      [ apply keeps_extendsLog_logActivity
      | apply (keeps_of_frames activities _ _ (extendsLog_reads_activities st));
        first [ apply frames_activities_createUser | apply frames_activities_updateUser
              | apply frames_activities_setUserRole | apply frames_activities_reqLogin
              | apply frames_activities_reqLogout ]
      | keeps_structure ].
Qed.

(** ** Profile updates *)


Lemma writeRow_MemStorage b st k v :
  Invariant b st -> b = MemStorage ->
  writeRow (backend st) k v (users st) = replaceRow k v (users st).
Proof. intros [Hb _ _ _ _] Hm. now rewrite Hb, Hm. Qed.



(** X13. A profile update is refused, and changes nothing, when a caller who
    is no administrator names another user (403), and when the new email is
    stored for another user (400). *)
Theorem updateProfile_refusals :
  forall env st req caller target b_name b_email b_avatarUrl,
    identity (now env) req st = Some caller ->
    (target <> Some (id caller) ->
     role caller <> RoleAdmin ->
     serve env req (CallUpdateProfile target b_name b_email b_avatarUrl) st
     = (json 403 (JsonMessage
                    "Acesso negado. Você só pode atualizar seu próprio perfil."), st)) /\
    (forall k u e x,
        target = Some k ->
        k = id caller \/ role caller = RoleAdmin ->
        find (hasId k) (users st) = Some u ->
        b_email = Some e ->
        e <> email u ->
        find (hasEmail e) (users st) = Some x ->
        id x <> k ->
        serve env req (CallUpdateProfile target b_name b_email b_avatarUrl) st
        = (json 400 (JsonMessage "Este email já está em uso"), st)).
Proof.
  intros env st req caller target n e a Hid. split.
  - intros Hother Hrole. unfold serve, route, updateProfile.
    rewrite run_bind_reqUser, Hid, (sameId_false _ _ Hother).
    destruct (role caller); [now elim Hrole|reflexivity].
  - intros k u e' x -> Hauth Hfind -> Hne Htaken Hx.
    pose proof (find_hasId_id _ _ _ Hfind) as Hk.
    unfold serve, route, updateProfile. rewrite run_bind_reqUser, Hid.
    assert (Hgate : negb (sameId (id caller) (Some k))
                    && negb (Role_eqb (role caller) RoleAdmin) = false).
    { destruct Hauth as [-> | ->]; [now rewrite sameId_refl|].
      simpl. apply andb_false_r. }
    rewrite Hgate.
    unfold run, getUserParsed, getUser, getUserByEmail. unfold_monad.
    cbn [fst snd]. rewrite Hfind.
    assert (Hneq : String.eqb e' (email u) = false) by now apply String.eqb_neq.
    rewrite Hneq. cbn [negb]. rewrite Htaken.
    assert (Hidne : (id x =? id u) = false) by (apply Z.eqb_neq; congruence).
    rewrite Hidne. reflexivity.
Qed.

(** ** Login never fails inside *)


(** ** Notification preferences *)

(** X15. The notification preferences are not stored: the route leaves the
    store as it was on every request. It serves the caller's own id only — an
    administrator too is refused for another's — and then answers 200 with
    the preferences it was sent. *)
Theorem updateNotifications_stores_nothing :
  forall env st req target prefs,
    snd (updateNotifications req target prefs env st) = st /\
    (forall caller,
        identity (now env) req st = Some caller ->
        fst (updateNotifications req target prefs env st)
        = if sameId (id caller) target
          then Ok (200, NotificationsUpdated
                          "Preferências de notificação atualizadas com sucesso" prefs)
          else Ok (403, NotificationsMessage
                          "Acesso negado. Você só pode atualizar suas próprias preferências.")).
Proof.
  intros env st req target prefs. split.
  - unfold updateNotifications, reqUser, getUserParsed, getUser. unfold_monad.
    repeat (break_match; try reflexivity).
  - intros caller Hid. pose proof (identity_find _ _ _ _ Hid) as Hfind.
    unfold updateNotifications, reqUser, getUserParsed, getUser. unfold_monad.
    rewrite Hid. destruct target as [k|]; [|reflexivity].
    cbn [sameId]. destruct (id caller =? k) eqn:Hk; [|reflexivity].
    apply Z.eqb_eq in Hk. subst k. cbn [negb fst]. now rewrite Hfind.
Qed.

(** ** The development login and create-admin *)

(** X16. Outside production the development login signs in as whoever holds
    the email, without a password and whatever the provider of the account,
    and leaves the stored users as they are: the admin flag of the request
    promotes no existing account. *)
Theorem devLogin_reuses_account :
  forall env st req q_email q_name q_admin u,
    NODE_ENV env <> Some "production" ->
    find (hasEmail (Js.orElse q_email "dev@example.com")) (users st) = Some u ->
    fst (serve env req (CallDevLogin q_email q_name q_admin) st)
    = mkResponse 302 (Redirect "/") (Some (sessionId st)) /\
    userPart (snd (serve env req (CallDevLogin q_email q_name q_admin) st))
    = userPart st /\
    sessions (snd (serve env req (CallDevLogin q_email q_name q_admin) st))
    = (dropSession req (sessions st)
       ++ [mkSession (sessionId st) (Some (id u)) (now env + maxAge)])%list.
Proof.
  intros env st req e n a u Hdev Hfind.
  assert (Hprod : match NODE_ENV env with
                  | Some v => String.eqb v "production"
                  | None => false
                  end = false).
  { destruct (NODE_ENV env) as [v|]; [|reflexivity].
    apply String.eqb_neq. congruence. }
  unfold serve, route, run, devLogin, getUserByEmail, reqLogin, logActivity,
    createActivity.
  unfold_monad. rewrite Hprod, Hfind. repeat split.
Qed.

Lemma withRole_same u : role u = RoleAdmin -> withRole RoleAdmin u = u.
Proof. destruct u. simpl. now intros ->. Qed.

Lemma Role_eqb_admin u : Role_eqb (role u) RoleAdmin = true -> role u = RoleAdmin.
Proof. now destruct (role u). Qed.

Lemma In_writeRow_other bk k v rows r :
  In r rows -> id r <> k -> In r (writeRow bk k v rows).
Proof.
  intros Hin Hne.
  assert (Hid : hasId k r = false) by now apply Z.eqb_neq.
  destruct bk; unfold writeRow, moveRow, replaceRow.
  - apply in_map_iff. exists r. now rewrite Hid.
  - apply in_or_app. left. apply filter_In. now rewrite Hid.
Qed.

(** X17. The create-admin route looks at no identity: whoever sends it, when
    some user carries the username "admin" the answer is 200 without a
    session, and a user of that name (the one, when the name is carried once)
    is an administrator afterwards, with the password and the other fields it
    had; the other users are stored as they were. *)
Theorem createAdmin_promotes_name_holder :
  forall b st env req u0,
    reachable b st ->
    In u0 (users st) ->
    username u0 = "admin" ->
    status (fst (serve env req CallCreateAdmin st)) = 200 /\
    setCookie (fst (serve env req CallCreateAdmin st)) = None /\
    sessions (snd (serve env req CallCreateAdmin st)) = sessions st /\
    exists u,
      In u (users st) /\ username u = "admin" /\
      find (hasId (id u)) (users (snd (serve env req CallCreateAdmin st)))
      = Some (withRole RoleAdmin u) /\
      (forall v, In v (users st) -> id v <> id u ->
                 In v (users (snd (serve env req CallCreateAdmin st)))) /\
      (forall v, In v (users (snd (serve env req CallCreateAdmin st))) ->
                 v = withRole RoleAdmin u \/ In v (users st)).
Proof.
  intros b st env req u0 Hreach Hin0 Hname0.
  pose proof (reachable_Invariant _ _ Hreach) as Hinv.
  pose proof (inv_ids _ _ Hinv) as Hnd.
  destruct (find (hasUsername "admin") (users st)) as [u|] eqn:Hfind.
  2:{ pose proof (find_none _ _ Hfind u0 Hin0) as Hno.
      unfold hasUsername in Hno. rewrite Hname0 in Hno. discriminate Hno. }
  pose proof (find_some _ _ Hfind) as [Hin Hname].
  apply String.eqb_eq in Hname.
  pose proof (find_hasId_of_In _ _ Hnd Hin) as Hid.
  unfold serve, route, run, createAdmin, getUserByUsername, setUserRole.
  unfold_monad. rewrite Hfind.
  destruct (Role_eqb (role u) RoleAdmin) eqn:Hrole; cbn [negb].
  - apply Role_eqb_admin in Hrole.
    cbn [fst snd status setCookie json].
    repeat split. exists u. rewrite (withRole_same _ Hrole).
    repeat split; auto.
  - rewrite Hid. cbn [fst snd status setCookie json users sessions withUsers].
    repeat split. exists u. repeat split; auto.
    + now apply (find_writeRow _ _ _ _ u).
    + intros v Hv Hne. now apply In_writeRow_other.
    + intros v Hv. apply In_writeRow in Hv as [->|[Hv _]]; [now left|now right].
Qed.

(** X18. On a store without a user "admin", a create-admin that answers 200
    has stored an administrator "admin" whose password is "admin123": on the
    store it leaves, a login with these two succeeds, whoever sends it. *)
Theorem createAdmin_default_credentials :
  forall env st req,
    find (hasUsername "admin") (users st) = None ->
    status (fst (serve env req CallCreateAdmin st)) = 200 ->
    exists u,
      In u (users (snd (serve env req CallCreateAdmin st))) /\
      username u = "admin" /\ role u = RoleAdmin /\
      forall env1 req1,
        exists t st1,
          serve env1 req1 (CallLogin "admin" "admin123")
            (snd (serve env req CallCreateAdmin st))
          = (mkResponse 200 (publicUser u) (Some t), st1).
Proof.
  intros env st req Hnone Hok.
  set (u := newUser (userId st) (now env)
              (mkInsertUser "admin" "admin@eventopro.com"
                 (Some (hashPassword (entropy env) "admin123"))
                 (Some "Administrador do Sistema")
                 (Some RoleAdmin) (Some Local) None None)).
  assert (Husers : users (snd (serve env req CallCreateAdmin st))
                   = (users st ++ [u])%list).
  { revert Hok.
    unfold serve, route, run, createAdmin, getUserByUsername, createUser,
      logActivity, createActivity.
    unfold_monad. rewrite Hnone.
    destruct (backend st); [reflexivity|].
    fold u. destruct (insertViolation (users st) u); [discriminate|reflexivity]. }
  exists u. rewrite Husers.
  split; [apply in_or_app; right; now left|].
  repeat split.
  intros env1 req1.
  destruct (hashPassword_nonempty (entropy env) "admin123") as [c [h Hh]].
  destruct (login_accepts env1 (snd (serve env req CallCreateAdmin st)) req1
              "admin" "admin123" u (hashPassword (entropy env) "admin123"))
    as [st1 [Hlogin _]]; try discriminate.
  - rewrite Husers. apply find_app_new; [exact Hnone|reflexivity].
  - unfold u, newUser. simpl. now rewrite Hh.
  - apply comparePasswords_own_hash.
  - eauto.
Qed.

(** ** Accounts *)

Lemma extendsAccounts_reads_users b l0 st st' :
  userPart st' = userPart st -> extendsAccounts b l0 st -> extendsAccounts b l0 st'.
Proof.
  unfold userPart. intros Heq [Hinv Hl]. injection Heq as Hb Hu Hn. split.
  - now apply (Invariant_same_users b st).
  - now rewrite Hu.
Qed.

Lemma keeps_accounts_createUser b l0 d :
  (forall h, i_password d = Some h -> hashed h) ->
  keeps (extendsAccounts b l0) (createUser d).
Proof.
  intros Hpw env st [Hinv [l [Hperm Hl]]]. split; [now apply preserves_createUser|].
  destruct (createUser_users d env st) as [Heq|Heq];
    injection Heq as _ -> _; [now exists l|].
  exists (l ++ [account (newUser (userId st) (now env) d)])%list.
  rewrite map_app, app_assoc. split.
  - now apply Permutation_app_tail.
  - intros Hm. now rewrite (Hl Hm).
Qed.

Lemma keeps_accounts_updateUser b l0 k d :
  (forall h, p_password d = Some (Some h) -> hashed h) ->
  p_username d = None -> p_provider d = None -> p_providerId d = None ->
  keeps (extendsAccounts b l0) (updateUser k d).
Proof.
  intros Hpw H1 H2 H3 env st [Hinv [l [Hperm Hl]]].
  split; [now apply preserves_updateUser|].
  assert (Hsame : forall u, account (mergeUser u d) = account u).
  { intros u. unfold account. simpl. now rewrite H1, H2, H3. }
  destruct (updateUser_users k d env st) as [Heq|[u [Hfind Heq]]];
    injection Heq as _ -> _; [now exists l|].
  exists l. split.
  - apply (Permutation_trans (l' := map account (users st))); [|exact Hperm].
    apply (Permutation_map_writeRow _ _ _ u); [now destruct Hinv|exact Hfind|apply Hsame].
  - intros Hm. rewrite (writeRow_MemStorage b st _ _ Hinv Hm), <- (Hl Hm).
    apply (map_replaceRow_same _ _ u); [now destruct Hinv|exact Hfind|apply Hsame].
Qed.

Lemma keeps_accounts_setUserRole b l0 k r :
  keeps (extendsAccounts b l0) (setUserRole k r).
Proof.
  intros env st [Hinv [l [Hperm Hl]]]. split; [now apply preserves_setUserRole|].
  destruct (setUserRole_users k r env st) as [Heq|[u [Hfind Heq]]];
    injection Heq as _ -> _; [now exists l|].
  exists l. split.
  - apply (Permutation_trans (l' := map account (users st))); [|exact Hperm].
    apply (Permutation_map_writeRow _ _ _ u); [now destruct Hinv|exact Hfind|reflexivity].
  - intros Hm. rewrite (writeRow_MemStorage b st _ _ Hinv Hm), <- (Hl Hm).
    apply (map_replaceRow_same _ _ u); [now destruct Hinv|exact Hfind|reflexivity].
Qed.

Lemma keeps_accounts_route b l0 req c : keeps (extendsAccounts b l0) (route req c).
Proof.
  destruct c; unfold_routes;
    repeat first
      [ keeps_users_frame (extendsAccounts_reads_users b l0)
      | apply keeps_accounts_createUser; hashed_side
      | apply keeps_accounts_updateUser; [hashed_side|reflexivity|reflexivity|reflexivity]
      | apply keeps_accounts_setUserRole
      | keeps_structure ].
Qed.


(** X20. On a reachable store the id names one user: [getUser] on the id of
    a stored user returns that user, and the id is below the counter the next
    one is drawn from. *)
Theorem getUser_finds_stored_user :
  forall b st env u,
    reachable b st ->
    In u (users st) ->
    getUser (id u) env st = (Ok (Some u), st) /\ id u < userId st.
Proof.
  intros b st env u Hreach Hin.
  pose proof (reachable_Invariant _ _ Hreach) as Hinv.
  split; [|now apply (inv_fresh _ _ Hinv)].
  unfold getUser. unfold_monad.
  now rewrite (find_hasId_of_In _ _ (inv_ids _ _ Hinv) Hin).
Qed.

(** ** The development login on an unknown email *)

Lemma not_production env :
  NODE_ENV env <> Some "production" ->
  match NODE_ENV env with
  | Some v => String.eqb v "production"
  | None => false
  end = false.
Proof.
  intros Hdev. destruct (NODE_ENV env) as [v|]; [|reflexivity].
  apply String.eqb_neq. congruence.
Qed.

(** X21. On the PostgreSQL store the development login cannot create its
    account: "dev" is no value of the [auth_provider] enum, the insert is
    refused, and the request is answered with the redirect to
    "/auth?error=dev_error" on a store left as it was. *)
Theorem devLogin_refused_by_provider_enum :
  forall env st req q_email q_name q_admin,
    backend st = DatabaseStorage ->
    NODE_ENV env <> Some "production" ->
    find (hasEmail (Js.orElse q_email "dev@example.com")) (users st) = None ->
    serve env req (CallDevLogin q_email q_name q_admin) st
    = (redirect "/auth?error=dev_error", st).
Proof.
  intros env st req e n a Hb Hdev Hnone.
  unfold serve, route, run, devLogin, getUserByEmail, createUser.
  unfold_monad. rewrite (not_production _ Hdev), Hnone, Hb.
  reflexivity.
Qed.

(** X22. On the in-memory store, outside production, the development login
    on an email not yet stored creates a passwordless "dev" account, an
    administrator when the query says admin=true and a user otherwise, and
    opens a session that resolves to it. *)
Theorem devLogin_creates_account :
  forall b st env req q_email q_name q_admin,
    reachable b st ->
    backend st = MemStorage ->
    NODE_ENV env <> Some "production" ->
    find (hasEmail (Js.orElse q_email "dev@example.com")) (users st) = None ->
    exists u t,
      fst (serve env req (CallDevLogin q_email q_name q_admin) st)
      = mkResponse 302 (Redirect "/") (Some t) /\
      users (snd (serve env req (CallDevLogin q_email q_name q_admin) st))
      = (users st ++ [u])%list /\
      email u = Js.orElse q_email "dev@example.com" /\
      provider u = Dev /\ password u = None /\
      role u = (if match q_admin with
                   | Some v => String.eqb v "true"
                   | None => false
                   end
                then RoleAdmin else RoleUser) /\
      forall env1,
        now env1 < now env + maxAge ->
        fst (serve env1 (mkRequest (Some t)) CallCurrentUser
               (snd (serve env req (CallDevLogin q_email q_name q_admin) st)))
        = json 200 (publicUser u).
Proof.
  intros b st env req e n a Hreach Hb Hdev Hnone.
  pose proof (reachable_tokensBelow _ _ Hreach) as Hbelow.
  pose proof (reachable_Invariant _ _ Hreach) as Hinv.
  destruct (serve env req (CallDevLogin e n a) st) as [resp st'] eqn:Hrun.
  assert (Hcookie : setCookie resp = Some (sessionId st)).
  { revert Hrun.
    unfold serve, route, run, devLogin, getUserByEmail, createUser, reqLogin,
      logActivity, createActivity.
    unfold_monad. rewrite (not_production _ Hdev), Hnone, Hb.
    intros Hrun. injection Hrun as <- _. reflexivity. }
  destruct (devLogin_shape _ _ _ _ _ _ _ _ _ Hrun Hcookie)
    as [u [[[Hfind _]|[_ [-> [_ [Hu _]]]]] [-> Hs]]]; [congruence|].
  exists (devAccount (userId st) (now env) e n a), (sessionId st).
  cbn [fst snd]. repeat split; try assumption.
  intros env1 Hlt.
  unfold serve, route, currentUser. rewrite run_bind_reqUser.
  rewrite (identity_new_session _ req (devAccount (userId st) (now env) e n a)
             _ st st' Hbelow Hs); [reflexivity| |exact Hlt].
  rewrite Hu. now apply (find_hasId_new b).
Qed.

(** ** Promotion and open sessions *)

(** X23. A promotion takes effect in the sessions that are open: the identity
    is read from the store on each request, so a session of the promoted user
    resolves to an administrator from the next request on, with no new
    login. *)
Theorem makeAdmin_reaches_open_sessions :
  forall env st req caller u tnow other,
    identity (now env) req st = Some caller ->
    role caller = RoleAdmin ->
    identity tnow other st = Some u ->
    identity tnow other (snd (serve env req (CallMakeAdmin (Some (id u))) st))
    = Some (withRole RoleAdmin u) /\
    role (withRole RoleAdmin u) = RoleAdmin.
Proof.
  intros env st req caller u tnow other Hid Hrole Hother.
  split; [|reflexivity].
  pose proof (identity_find _ _ _ _ Hother) as Hfind.
  assert (Hst : exists acts n,
             snd (serve env req (CallMakeAdmin (Some (id u))) st)
             = withActivities acts n
                 (withUsers (writeRow (backend st) (id u) (withRole RoleAdmin u)
                               (users st))
                    (userId st) st)).
  { unfold serve, route, makeAdmin.
    rewrite run_bind_reqUser, Hid, Hrole. simpl Role_eqb. cbv iota.
    unfold run, getUserParsed, getUser, setUserRole, logActivity, createActivity.
    unfold_monad. cbn -[orNullId]. rewrite Hfind. cbn -[orNullId].
    rewrite Hfind. cbn -[orNullId]. eexists _, _. reflexivity. }
  destruct Hst as [acts [n ->]].
  revert Hother. unfold identity. cbn [sessions users withActivities withUsers].
  destruct (cookie other) as [t|]; [|discriminate].
  destruct (find (liveSession t tnow) (sessions st)) as [s|]; [|discriminate].
  destruct (passportUser s) as [uid|]; [|discriminate].
  intros Hu. pose proof (find_hasId_id _ _ _ Hu) as Huid. subst uid.
  now apply (find_writeRow _ _ _ _ u).
Qed.
Lemma reachable_serveAll b calls st :
  reachable b st -> reachable b (serveAll calls st).
Proof.
  revert st. induction calls as [|[[env req] c] calls IH]; intros st H; [exact H|].
  simpl. apply IH. now constructor.
Qed.

(** ** Sessions across requests *)

Lemma find_app_some {A} (p : A -> bool) l1 l2 x :
  find p l1 = Some x -> find p (l1 ++ l2) = Some x.
Proof.
  induction l1 as [|y l1 IH]; [discriminate|]. simpl.
  destruct (p y); [trivial|exact IH].
Qed.

(** The cookie of a session that has not been drawn names no identity. *)
Lemma identity_unused_token tnow st ss n :
  tokensBelow st -> (forall s, In s ss -> In s (sessions st)) ->
  identity tnow (mkRequest (Some (sessionId st))) (withSessions ss n st) = None.
Proof.
  intros Hbelow Hsub. unfold identity. cbn [cookie sessions withSessions].
  rewrite find_all_false; [reflexivity|].
  intros s Hs. specialize (Hbelow s (Hsub s Hs)).
  unfold liveSession. apply andb_false_intro1. apply Z.eqb_neq. lia.
Qed.

(** C9. Logout answers 200 on every store and request, also when the request
    carries no session or a dead one. Passport regenerates the session, so the
    response sets the cookie of a new session, which carries no user. After
    the logout the request resolves to no identity, so the current-user route
    answers 401, and a further logout answers 200 again, stores no user and
    appends no record; on a store the server reaches the same holds of the
    cookie that the logout set. A "logout" activity record is appended exactly
    when the request resolved to an identity. *)
Theorem logout_idempotent :
  forall env st req,
    exists st1,
      serve env req CallLogout st
      = (mkResponse 200 (Text "OK") (Some (sessionId st)), st1) /\
      (forall env1, identity (now env1) req st1 = None) /\
      (forall env1, serve env1 req CallCurrentUser st1
                    = (json 401 (JsonMessage "Não autenticado"), st1)) /\
      (forall env1,
          exists st2,
            serve env1 req CallLogout st1
            = (mkResponse 200 (Text "OK") (Some (sessionId st1)), st2) /\
            users st2 = users st1 /\ emitted st1 st2 = []) /\
      (forall b,
          reachable b st ->
          forall env1,
            serve env1 (mkRequest (Some (sessionId st))) CallCurrentUser st1
            = (json 401 (JsonMessage "Não autenticado"), st1) /\
            exists st2,
              serve env1 (mkRequest (Some (sessionId st))) CallLogout st1
              = (mkResponse 200 (Text "OK") (Some (sessionId st1)), st2) /\
              users st2 = users st1 /\ emitted st1 st2 = []) /\
      users st1 = users st /\
      emitted st st1
      = match identity (now env) req st with
        | Some u => [mkActivity (activityId st) None None (orNullId (Some (id u)))
                       "logout" (now env) ("Usuário saiu: " ++ username u)]
        | None => []
        end.
Proof.
  intros env st req. exists (afterLogout env req st).
  assert (Hnone : forall tnow, identity tnow req (afterLogout env req st) = None).
  { intros tnow. rewrite afterLogout_identity. apply identity_dropSession. }
  assert (Hagain : forall env1 req1,
             identity (now env1) req1 (afterLogout env req st) = None ->
             serve env1 req1 CallCurrentUser (afterLogout env req st)
             = (json 401 (JsonMessage "Não autenticado"), afterLogout env req st) /\
             exists st2,
               serve env1 req1 CallLogout (afterLogout env req st)
               = (mkResponse 200 (Text "OK") (Some (sessionId (afterLogout env req st))),
                  st2) /\
               users st2 = users (afterLogout env req st) /\
               emitted (afterLogout env req st) st2 = []).
  { intros env1 req1 Hid. split.
    - unfold serve, route, currentUser. now rewrite run_bind_reqUser, Hid.
    - exists (afterLogout env1 req1 (afterLogout env req st)).
      split; [apply logout_run|]. split.
      + apply afterLogout_sessions.
      + now rewrite afterLogout_emitted, Hid. }
  split; [apply logout_run|].
  split; [intros env1; apply Hnone|].
  split; [intros env1; apply Hagain, Hnone|].
  split; [intros env1; apply Hagain, Hnone|].
  split; [|split; [apply afterLogout_sessions|apply afterLogout_emitted]].
  intros b Hreach env1. apply Hagain.
  rewrite afterLogout_identity. apply identity_unused_token.
  - now apply (reachable_tokensBelow b).
  - intros s. apply In_dropSession.
Qed.

(** The routes that do not regenerate the session set no cookie. *)
Lemma no_cookie_elsewhere env st req c :
  regeneratesSession c = false -> setCookie (fst (serve env req c st)) = None.
Proof.
  destruct c; try discriminate; intros _;
    unfold serve, run; unfold_routes;
    unfold updateUser, setUserRole, createUser, getUserParsed,
      logActivity, createActivity;
    unfold_monad;
    repeat (break_match; cbn -[orNullId append dropSession maxAge hashPassword]);
    reflexivity.
Qed.

Lemma find_token_live t tnow ss s :
  find (fun x => token x =? t) ss = Some s -> tnow < expires s ->
  find (liveSession t tnow) ss = Some s.
Proof.
  intros Hfind Hlt. induction ss as [|x ss IH]; [discriminate|].
  cbn [find] in *. unfold liveSession at 1.
  destruct (token x =? t).
  - injection Hfind as ->. apply Z.ltb_lt in Hlt. now rewrite Hlt.
  - now apply IH.
Qed.

Lemma find_token_dropSession req t ss :
  cookie req <> Some t ->
  find (fun x => token x =? t) (dropSession req ss) = find (fun x => token x =? t) ss.
Proof.
  intros Hother. unfold dropSession. destruct (cookie req) as [t0|]; [|reflexivity].
  apply find_filter_implied. intros s Ht.
  apply Z.eqb_eq in Ht. apply negb_true_iff, Z.eqb_neq. congruence.
Qed.

Lemma holdsSession_reads_sessions t k e st st' :
  sessionPart st' = sessionPart st -> holdsSession t k e st -> holdsSession t k e st'.
Proof.
  unfold sessionPart, holdsSession, tokensBelow.
  intros Heq H. injection Heq as Hs Hn. now rewrite Hs, Hn.
Qed.

(** A session regenerated under another cookie leaves the session [t]. *)
Lemma holdsSession_regenerated t k e req s0 st :
  cookie req <> Some t ->
  token s0 = sessionId st ->
  holdsSession t k e st ->
  holdsSession t k e
    (withSessions (dropSession req (sessions st) ++ [s0]) (sessionId st + 1) st).
Proof.
  intros Hother Hs0 [Hbelow [Hlt Hfind]]. split; [|split].
  - intros s Hin. cbn in Hin |- *.
    apply in_app_or in Hin as [Hin|[<-|[]]].
    + apply In_dropSession in Hin. specialize (Hbelow s Hin). lia.
    + lia.
  - cbn. lia.
  - cbn [sessions withSessions]. apply find_app_some.
    now rewrite find_token_dropSession.
Qed.

Lemma keeps_holds_reqLogin t k e req u :
  cookie req <> Some t -> keeps (holdsSession t k e) (reqLogin req u).
Proof.
  intros Hother env st H. apply (holdsSession_regenerated t k e req _ st Hother); auto.
Qed.

Lemma keeps_holds_reqLogout t k e req :
  cookie req <> Some t -> keeps (holdsSession t k e) (reqLogout req).
Proof.
  intros Hother env st H. apply (holdsSession_regenerated t k e req _ st Hother); auto.
Qed.

Lemma keeps_holds_route t k e req c :
  cookie req <> Some t \/ regeneratesSession c = false ->
  keeps (holdsSession t k e) (route req c).
Proof.
  intros Hspare.
  destruct c; destruct Hspare as [Hother|Hspare]; try discriminate Hspare;
    unfold_routes;
    repeat first
      [ apply keeps_holds_reqLogin; assumption
      | apply keeps_holds_reqLogout; assumption
      | apply (keeps_of_frames sessionPart _ _ (holdsSession_reads_sessions t k e));
        first [ apply frames_sessions_createUser | apply frames_sessions_updateUser
              | apply frames_sessions_setUserRole | apply frames_sessions_logActivity ]
      | keeps_structure ].
Qed.

(** A stored user stays stored, with its account, across a request. *)
Lemma account_stays b st env req c u :
  reachable b st -> In u (users st) ->
  exists u', In u' (users (snd (serve env req c st))) /\ account u' = account u.
Proof.
  intros Hreach Hin.
  assert (H : extendsAccounts b (map account (users st)) (snd (serve env req c st))).
  { unfold serve. apply keeps_run; [apply keeps_accounts_route|].
    split; [now apply reachable_Invariant|]. exists [].
    rewrite app_nil_r. split; [apply Permutation_refl|reflexivity]. }
  destruct H as [_ [l [Hperm _]]].
  assert (Hacc : In (account u) (map account (users (snd (serve env req c st))))).
  { apply (Permutation_in _ (Permutation_sym Hperm)).
    apply in_or_app. left. now apply in_map. }
  apply in_map_iff in Hacc as [u' [Heq Hin']]. eauto.
Qed.

Lemma sparesSession_cons t env req c calls :
  sparesSession t ((env, req, c) :: calls) = true ->
  (cookie req <> Some t \/ regeneratesSession c = false) /\
  sparesSession t calls = true.
Proof.
  unfold sparesSession. cbn [forallb]. intros H.
  apply andb_prop in H as [Hhead Hrest]. split; [|exact Hrest].
  destruct (cookie req) as [t'|]; [|left; discriminate].
  destruct (regeneratesSession c); [|now right].
  left. intros Heq. injection Heq as ->.
  rewrite Z.eqb_refl in Hhead. discriminate Hhead.
Qed.

(** A session and its user outlast the requests that spare the session. *)
Lemma session_persists b t k e calls :
  forall st u,
    reachable b st -> holdsSession t k e st -> In u (users st) ->
    sparesSession t calls = true ->
    reachable b (serveAll calls st) /\
    holdsSession t k e (serveAll calls st) /\
    exists u', In u' (users (serveAll calls st)) /\ account u' = account u.
Proof.
  induction calls as [|[[env req] c] calls IH]; intros st u Hreach Hhold Hin Hspare.
  - cbn [serveAll]. eauto.
  - apply sparesSession_cons in Hspare as [Hhead Hrest].
    destruct (account_stays b st env req c u Hreach Hin) as [u1 [Hin1 Hacc1]].
    cbn [serveAll].
    destruct (IH (snd (serve env req c st)) u1) as [Hreach' [Hhold' [u' [Hin' Hacc']]]].
    + now constructor.
    + unfold serve. apply keeps_run; [now apply keeps_holds_route|exact Hhold].
    + exact Hin1.
    + exact Hrest.
    + split; [exact Hreach'|]. split; [exact Hhold'|].
      exists u'. split; [exact Hin'|congruence].
Qed.

Lemma identity_of_held b t k e tnow st u :
  Invariant b st -> holdsSession t k e st -> In u (users st) -> id u = k ->
  tnow < e ->
  identity tnow (mkRequest (Some t)) st = Some u.
Proof.
  intros Hinv [_ [_ Hfind]] Hin Hid Hlt. unfold identity. cbn [cookie].
  rewrite (find_token_live _ _ _ _ Hfind Hlt). cbn [passportUser].
  rewrite <- Hid. apply find_hasId_of_In; [now destruct Hinv|exact Hin].
Qed.

(** X4. The cookie a response sets stands for the session the route
    regenerated. The cookie of a logout names a session without a user:
    GET /api/user answers it with 401. The cookie of a registration, a login,
    a Google callback or a development login names the session of a stored
    user: until a week has passed since, however many requests the server
    answers in between, GET /api/user answers a request that carries the
    cookie with that user (with its id and username, and with the name, email,
    avatar and role it then has), as long as no request carried the cookie
    to a route that regenerates the session. *)
Theorem cookie_resolves_to_user :
  forall b st env req c resp st' t,
    reachable b st ->
    serve env req c st = (resp, st') ->
    setCookie resp = Some t ->
    match c with
    | CallLogout =>
        forall env1,
          serve env1 (mkRequest (Some t)) CallCurrentUser st'
          = (json 401 (JsonMessage "Não autenticado"), st')
    | _ =>
        exists u,
          In u (users st') /\
          (forall env1,
              now env1 < now env + maxAge ->
              serve env1 (mkRequest (Some t)) CallCurrentUser st'
              = (json 200 (publicUser u), st')) /\
          (forall calls env1,
              sparesSession t calls = true ->
              now env1 < now env + maxAge ->
              exists u1,
                account u1 = account u /\
                serve env1 (mkRequest (Some t)) CallCurrentUser (serveAll calls st')
                = (json 200 (publicUser u1), serveAll calls st'))
    end.
Proof.
  intros b st env req c resp st' t Hreach Hrun Hcookie.
  pose proof (reachable_tokensBelow _ _ Hreach) as Hbelow.
  pose proof (reachable_Invariant _ _ Hreach) as Hinv.
  assert (Hreach' : reachable b st').
  { replace st' with (snd (serve env req c st)) by now rewrite Hrun.
    now constructor. }
  assert (Hcurrent : forall st1 env1 u1,
             identity (now env1) (mkRequest (Some t)) st1 = Some u1 ->
             serve env1 (mkRequest (Some t)) CallCurrentUser st1
             = (json 200 (publicUser u1), st1)).
  { intros st1 env1 u1 Hid. unfold serve, route, currentUser.
    now rewrite run_bind_reqUser, Hid. }
  assert (Hopen : forall u,
             sessions st'
             = (dropSession req (sessions st)
                ++ [mkSession (sessionId st) (Some (id u)) (now env + maxAge)])%list ->
             In u (users st') ->
             setCookie resp = Some (sessionId st) ->
             exists u,
               In u (users st') /\
               (forall env1,
                   now env1 < now env + maxAge ->
                   serve env1 (mkRequest (Some t)) CallCurrentUser st'
                   = (json 200 (publicUser u), st')) /\
               (forall calls env1,
                   sparesSession t calls = true ->
                   now env1 < now env + maxAge ->
                   exists u1,
                     account u1 = account u /\
                     serve env1 (mkRequest (Some t)) CallCurrentUser (serveAll calls st')
                     = (json 200 (publicUser u1), serveAll calls st'))).
  { intros u Hs Hu Hc. rewrite Hcookie in Hc. injection Hc as ->.
    assert (Hhold : holdsSession (sessionId st) (id u) (now env + maxAge) st').
    { pose proof (reachable_tokensBelow _ _ Hreach') as Hbelow'.
      split; [exact Hbelow'|]. split.
      - apply (Hbelow' (mkSession (sessionId st) (Some (id u)) (now env + maxAge))).
        rewrite Hs. apply in_or_app. right. now left.
      - rewrite Hs. rewrite find_app_none.
        + cbn [find token]. now rewrite Z.eqb_refl.
        + intros s Hin. apply In_dropSession in Hin. specialize (Hbelow s Hin).
          apply Z.eqb_neq. lia. }
    exists u. split; [exact Hu|]. split.
    - intros env1 Hlt. apply Hcurrent.
      apply (identity_of_held b _ (id u) (now env + maxAge)); auto.
      now apply reachable_Invariant.
    - intros calls env1 Hspare Hlt.
      destruct (session_persists b _ _ _ calls st' u Hreach' Hhold Hu Hspare)
        as [Hreach1 [Hhold1 [u1 [Hin1 Hacc1]]]].
      exists u1. split; [exact Hacc1|]. apply Hcurrent.
      apply (identity_of_held b _ (id u) (now env + maxAge)); auto.
      + now apply reachable_Invariant.
      + unfold account in Hacc1. congruence. }
  assert (Hold : forall u (p : User -> bool),
             find p (users st) = Some u -> userPart st' = userPart st ->
             In u (users st')).
  { intros u p Hfind Hpart. injection Hpart as _ Hu _. rewrite Hu.
    now apply find_some in Hfind. }
  assert (Hnew : forall u, users st' = (users st ++ [u])%list -> In u (users st')).
  { intros u Hu. rewrite Hu. apply in_or_app. right. now left. }
  destruct c as [uname mail pw nm|uname pw| | |[profile| |]|e n a| | | |];
    try (pose proof (no_cookie_elsewhere env st req) as Hno;
         match type of Hrun with
         | serve _ _ ?c _ = _ => specialize (Hno c eq_refl)
         end;
         rewrite Hrun in Hno; cbn [fst] in Hno; congruence).
  - destruct (register_shape _ _ _ _ _ _ _ _ _ _ Hrun Hcookie)
      as [_ [_ [-> [_ [Hu [_ Hs]]]]]].
    apply (Hopen (registered (userId st) (now env) (entropy env) uname mail pw nm));
      [exact Hs | now apply Hnew | reflexivity].
  - destruct (login_shape _ _ _ _ _ _ _ _ Hrun Hcookie)
      as [u [h [Hfind [_ [_ [-> [Hpart Hs]]]]]]].
    apply (Hopen u); [exact Hs | now apply (Hold u _ Hfind) | reflexivity].
  - rewrite logout_run in Hrun. injection Hrun as <- <-.
    cbn [setCookie] in Hcookie. injection Hcookie as <-.
    intros env1. unfold serve, route, currentUser. rewrite run_bind_reqUser.
    rewrite afterLogout_identity, identity_unused_token; [reflexivity|exact Hbelow|].
    intros s. apply In_dropSession.
  - destruct (googleCallback_shape _ _ _ _ _ _ _ Hrun Hcookie)
      as [u [[[Hfind Hpart]|[_ [-> [_ [Hu _]]]]] [-> Hs]]].
    + apply (Hopen u); [exact Hs | now apply (Hold u _ Hfind) | reflexivity].
    + apply (Hopen (provisioned (userId st) (now env) profile));
        [exact Hs | now apply Hnew | reflexivity].
  - cbv [serve run route googleCallback ret redirect] in Hrun.
    injection Hrun as <- _. discriminate Hcookie.
  - cbv [serve run route googleCallback ret redirect] in Hrun.
    injection Hrun as <- _. discriminate Hcookie.
  - destruct (devLogin_shape _ _ _ _ _ _ _ _ _ Hrun Hcookie)
      as [u [[[Hfind Hpart]|[_ [-> [_ [Hu _]]]]] [-> Hs]]].
    + apply (Hopen u); [exact Hs | now apply (Hold u _ Hfind) | reflexivity].
    + apply (Hopen (devAccount (userId st) (now env) e n a));
        [exact Hs | now apply Hnew | reflexivity].
Qed.


End Auth.

(** ** Concrete runs *)

Lemma demoLower_ascii s : Js.isAscii s = true -> demoLower s = Js.toLowerCaseAscii s.
Proof. reflexivity. Qed.

Lemma demoScrypt_length p s n : length (demoScrypt p s n) = n.
Proof.
  unfold demoScrypt. rewrite firstn_length_le; [reflexivity|].
  rewrite length_app, repeat_length. lia.
Qed.

Lemma comparePasswords_accepts_own_hash_only_witness :
  comparePasswords demoScrypt "secret1" (hashPassword demoScrypt salt0 "secret1") = Ok true /\
  comparePasswords demoScrypt "wrong" (hashPassword demoScrypt salt0 "secret1") = Ok false.
Proof.
  destruct (comparePasswords_accepts_own_hash_only demoScrypt demoScrypt_length)
    as [Hsame Hother].
  split; [apply Hsame | apply Hother; vm_compute; discriminate].
Defined.

(** C8, as claimed, fails: a stored string with no separator, one with
    content that is not hexadecimal and one with a digest of two bytes each
    make [comparePasswords] throw instead of returning [false]. *)
Lemma comparePasswords_malformed_hash_counterexample :
  comparePasswords demoScrypt "secret1" "not-a-hash" = Throw ERR_INVALID_ARG_TYPE /\
  comparePasswords demoScrypt "secret1" "zz.0011" = Throw ERR_CRYPTO_TIMING_SAFE_EQUAL_LENGTH /\
  comparePasswords demoScrypt "secret1" "abcd.0011" = Throw ERR_CRYPTO_TIMING_SAFE_EQUAL_LENGTH /\
  ~ (forall supplied stored, exists b : bool,
        comparePasswords demoScrypt supplied stored = Ok b).
Proof.
  repeat split; try reflexivity.
  intros H. destruct (H "secret1" "not-a-hash") as [b Hb]. discriminate Hb.
Qed.

Lemma comparePasswords_throws_on_malformed_hash_witness :
  comparePasswords demoScrypt "secret1" "not-a-hash" = Throw ERR_INVALID_ARG_TYPE /\
  (exists b, comparePasswords demoScrypt "wrong"
               (hashPassword demoScrypt salt0 "secret1") = Ok b) /\
  comparePasswords demoScrypt "secret1" "abcd.0011" = Throw ERR_CRYPTO_TIMING_SAFE_EQUAL_LENGTH /\
  serve demoScrypt demoLower env0 anonymous (CallLogin "legacy" "secret1") legacyStore
  = (json 500 (JsonMessage
                 "The salt argument must be of type string or an instance of Buffer"),
     legacyStore) /\
  serve demoScrypt demoLower env0 (mkRequest (Some 1))
        (CallChangePassword (Some 1) "secret1" "secret2") legacyStore
  = (json 500 (JsonMessage
                 "The salt argument must be of type string or an instance of Buffer"),
     legacyStore).
Proof.
  split; [|split; [|split]].
  - apply (comparePasswords_throws_on_malformed_hash demoScrypt demoLower
             demoScrypt_length).
    reflexivity.
  - eapply (proj1 (proj2 (comparePasswords_throws_on_malformed_hash
                            demoScrypt demoLower demoScrypt_length
                            "wrong" (hashPassword demoScrypt salt0 "secret1")))
              (Js.toStringHex (demoScrypt "secret1" (Js.toStringHex salt0) 64))
              (Js.toStringHex salt0)); reflexivity.
  - eapply (proj1 (proj2 (comparePasswords_throws_on_malformed_hash
                            demoScrypt demoLower demoScrypt_length
                            "secret1" "abcd.0011")) "abcd" "0011");
      [reflexivity | reflexivity | vm_compute; discriminate].
  - destruct (proj2 (proj2 (comparePasswords_throws_on_malformed_hash
                              demoScrypt demoLower demoScrypt_length
                              "secret1" "not-a-hash"))
                ERR_INVALID_ARG_TYPE env0 legacyStore anonymous)
      as [Hlogin _]; [reflexivity|discriminate|].
    destruct (proj2 (proj2 (comparePasswords_throws_on_malformed_hash
                              demoScrypt demoLower demoScrypt_length
                              "secret1" "not-a-hash"))
                ERR_INVALID_ARG_TYPE env0 legacyStore (mkRequest (Some 1)))
      as [_ Hchange]; [reflexivity|discriminate|].
    split.
    + apply (Hlogin "legacy" legacyUser); try discriminate; reflexivity.
    + apply (Hchange legacyUser "secret2"); reflexivity.
Defined.

(** The scenario of the specification: register, log in, fail with a wrong
    password, change the password, fail with the old one, log in with the new
    one. *)
Example scenario_alice_statuses :
  map status (responses demoScrypt demoLower scenario_alice (emptyStorage DatabaseStorage))
  = [201; 200; 401; 200; 401; 200] /\
  map status (responses demoScrypt demoLower scenario_alice (emptyStorage MemStorage))
  = [201; 200; 401; 200; 401; 200].
Proof. split; vm_compute; reflexivity. Qed.

(** The order of the rows on the two backends: an update leaves the entry of
    the [Map] where it was and puts the row of the table behind the others. *)
Example update_moves_row_on_database :
  map id (users (snd (serve demoScrypt demoLower env0 adminRequest
                        (CallUpdateProfile (Some 1) (Some (Some "Root")) None None)
                        (serveAll demoScrypt demoLower trace_admin
                           (emptyStorage MemStorage)))))
  = [1; 2] /\
  map id (users (snd (serve demoScrypt demoLower env0 adminRequest
                        (CallUpdateProfile (Some 1) (Some (Some "Root")) None None)
                        (serveAll demoScrypt demoLower trace_admin
                           (emptyStorage DatabaseStorage)))))
  = [2; 1].
Proof. split; reflexivity. Qed.

(** Why a login after a password change needs the username to lead to the
    user: with a Google user under the same username, the changed row comes
    after it on [DatabaseStorage], the lookup returns the Google user, who has
    no password, and the login with the new password is refused; [MemStorage]
    still returns the local user first. *)
Example namesake_shadows_login_on_database :
  map status (responses demoScrypt demoLower trace_namesake (emptyStorage DatabaseStorage))
  = [201; 302; 200] /\
  status (fst (serve demoScrypt demoLower env0 anonymous (CallLogin "ana.maria" "secret2")
                 (serveAll demoScrypt demoLower trace_namesake
                    (emptyStorage DatabaseStorage)))) = 401 /\
  status (fst (serve demoScrypt demoLower env0 anonymous (CallLogin "ana.maria" "secret2")
                 (serveAll demoScrypt demoLower trace_namesake
                    (emptyStorage MemStorage)))) = 200.
Proof. repeat split; vm_compute; reflexivity. Qed.

Lemma devLogin_disabled_in_production_witness :
  serve demoScrypt demoLower production anonymous
        (CallDevLogin (Some "eve@x.com") None (Some "true"))
        (emptyStorage DatabaseStorage)
  = (mkResponse 404 (Text "Not Found") None, emptyStorage DatabaseStorage).
Proof. apply devLogin_disabled_in_production. reflexivity. Defined.

Lemma login_failures_indistinguishable_witness :
  serve demoScrypt demoLower env0 anonymous (CallLogin "mallory" "secret1")
        (serveAll demoScrypt demoLower trace_alice (emptyStorage DatabaseStorage))
  = (json 401 (JsonMessage "Credenciais inválidas"),
     serveAll demoScrypt demoLower trace_alice (emptyStorage DatabaseStorage)) /\
  serve demoScrypt demoLower env0 anonymous (CallLogin "alice" "wrong")
        (serveAll demoScrypt demoLower trace_alice (emptyStorage DatabaseStorage))
  = (json 401 (JsonMessage "Credenciais inválidas"),
     serveAll demoScrypt demoLower trace_alice (emptyStorage DatabaseStorage)).
Proof.
  eapply (login_failures_indistinguishable demoScrypt demoLower demoScrypt_length DatabaseStorage).
  - apply reachable_serveAll, reachable_init.
  - discriminate.
  - discriminate.
  - discriminate.
  - discriminate.
  - reflexivity.
  - vm_compute. reflexivity.
  - reflexivity.
  - reflexivity.
  - vm_compute. discriminate.
Defined.

Lemma makeAdmin_gate_and_record_witness :
  exists st',
    serve demoScrypt demoLower env0 adminRequest (CallMakeAdmin (Some 2))
          (serveAll demoScrypt demoLower trace_admin (emptyStorage MemStorage))
    = (json 200 (JsonPromoted "Usuário promovido a administrador com sucesso"
                   2 "bob" RoleAdmin), st') /\
    map a_userId
        (emitted (serveAll demoScrypt demoLower trace_admin (emptyStorage MemStorage)) st')
    = [Some 1].
Proof.
  destruct (makeAdmin_gate_and_record demoScrypt demoLower env0
              (serveAll demoScrypt demoLower trace_admin (emptyStorage MemStorage))
              adminRequest (Some 2)) as [_ [_ H]].
  edestruct H as [st' [Hrun [_ [_ Hemitted]]]].
  - vm_compute. reflexivity.
  - reflexivity.
  - vm_compute. discriminate.
  - reflexivity.
  - vm_compute. reflexivity.
  - exists st'. split; [exact Hrun|]. rewrite Hemitted. reflexivity.
Defined.

(** C3, as claimed, fails: the administrator (user 1) promotes Bob (user 2);
    the one record appended holds the id of the actor and no column or text of
    it holds the id of the target. *)
Lemma makeAdmin_record_counterexample :
  status (fst (serve demoScrypt demoLower env0 adminRequest (CallMakeAdmin (Some 2))
                     (serveAll demoScrypt demoLower trace_admin
                        (emptyStorage MemStorage)))) = 200 /\
  emitted (serveAll demoScrypt demoLower trace_admin (emptyStorage MemStorage))
          (snd (serve demoScrypt demoLower env0 adminRequest (CallMakeAdmin (Some 2))
                      (serveAll demoScrypt demoLower trace_admin (emptyStorage MemStorage))))
  = [mkActivity 4 None None (Some 1) "admin" 1000
       "Usuário bob promovido a administrador por admin"] /\
  ~ (exists a,
        In a (emitted (serveAll demoScrypt demoLower trace_admin (emptyStorage MemStorage))
                (snd (serve demoScrypt demoLower env0 adminRequest (CallMakeAdmin (Some 2))
                            (serveAll demoScrypt demoLower trace_admin
                               (emptyStorage MemStorage))))) /\
        referencesUser 1 a = true /\ referencesUser 2 a = true).
Proof.
  split; [reflexivity|]. split; [reflexivity|].
  intros [a [Hin [_ H2]]].
  vm_compute in Hin. destruct Hin as [<-|[]]. discriminate H2.
Qed.

Lemma googleVerify_provisions_user_witness :
  exists u st',
    googleVerify demoLower profile0 env0 (emptyStorage DatabaseStorage) = (Ok (DoneUser u), st') /\
    username u = "ana.maria" /\ role u = RoleUser /\ email u = "108@google.com".
Proof.
  destruct (googleVerify_provisions_user demoLower demoLower_ascii env0
              (emptyStorage DatabaseStorage) profile0)
    as [Hfields Hexists]; [reflexivity|].
  destruct Hexists as [u [st' Hrun]]; [reflexivity|].
  destruct (Hfields u st' Hrun) as [_ [_ [_ [Hascii [Hrole [_ [_ Hemail]]]]]]].
  destruct (Hascii eq_refl) as [Hname _].
  exists u, st'. rewrite Hname, Hemail. repeat split; assumption || reflexivity.
Defined.

(** The class [\s] beyond ASCII: a run of a no-break space, a space and an
    em space is replaced as one. *)
Example replaceWhitespace_beyond_ascii :
  Js.replaceWhitespace "." ("Ana" ++ Js.ofCodes [194; 160; 32; 226; 128; 131] ++ "Maria")
  = "Ana.Maria" /\
  Js.replaceWhitespace "." (Js.ofCodes [195; 137] ++ "rica  Silva")
  = Js.ofCodes [195; 137] ++ "rica.Silva".
Proof. split; reflexivity. Qed.

(** C5, as claimed, fails: a Google profile with id 108 and no email is
    provisioned with the email 108@google.com, not 108@google.local. *)
Lemma google_synthesized_email_counterexample :
  exists u st',
    googleVerify demoLower profile0 env0 (emptyStorage DatabaseStorage) = (Ok (DoneUser u), st') /\
    email u = "108@google.com" /\
    synthesizedEmailSpec Google (g_id profile0) = "108@google.local" /\
    email u <> synthesizedEmailSpec Google (g_id profile0).
Proof.
  eexists _, _. split; [reflexivity|].
  split; [reflexivity|]. split; [reflexivity|]. vm_compute. discriminate.
Qed.

Lemma emails_unique_by_index_witness :
  NoDup (map email
           (users (serveAll demoScrypt demoLower trace_two_google
                     (emptyStorage DatabaseStorage)))) /\
  (exists e, createUser (mkInsertUser "alice2" "alice@x.com" None None None None None None)
               env0 (serveAll demoScrypt demoLower trace_alice (emptyStorage DatabaseStorage))
             = (Throw e, serveAll demoScrypt demoLower trace_alice (emptyStorage DatabaseStorage))) /\
  (exists message,
      serve demoScrypt demoLower env0 anonymous (CallRegister "alice" "other@x.com" "secret3" None)
            (serveAll demoScrypt demoLower trace_alice (emptyStorage MemStorage))
      = (json 400 (JsonMessage message),
         serveAll demoScrypt demoLower trace_alice (emptyStorage MemStorage))).
Proof.
  destruct (emails_unique_by_index demoScrypt demoLower) as [Hunique [Hinsert [_ [_ Hregister]]]].
  split; [|split].
  - apply Hunique. apply reachable_serveAll, reachable_init.
  - apply Hinsert; reflexivity.
  - apply Hregister. left. reflexivity.
Defined.

(** C6, as claimed, fails: two Google users whose display names differ in
    case and spacing only are stored under one username, on the backend with
    the unique index; and on [MemStorage] two development logins are stored
    under one (provider, providerId) pair. *)
Lemma usernames_not_unique_counterexample :
  reachable demoScrypt demoLower DatabaseStorage
            (serveAll demoScrypt demoLower trace_two_google (emptyStorage DatabaseStorage)) /\
  map username (users (serveAll demoScrypt demoLower trace_two_google
                         (emptyStorage DatabaseStorage)))
  = ["ana.maria"; "ana.maria"] /\
  ~ NoDup (map username
             (users (serveAll demoScrypt demoLower trace_two_google
                       (emptyStorage DatabaseStorage)))) /\
  reachable demoScrypt demoLower MemStorage
            (serveAll demoScrypt demoLower trace_two_dev (emptyStorage MemStorage)) /\
  map (fun u => (provider u, providerId u))
      (users (serveAll demoScrypt demoLower trace_two_dev (emptyStorage MemStorage)))
  = [(Dev, Some "dev-account"); (Dev, Some "dev-account")].
Proof.
  split; [apply reachable_serveAll, reachable_init|].
  split; [reflexivity|]. split.
  - intros H. vm_compute in H. inversion H as [|x l Hnotin _]; subst.
    apply Hnotin. now left.
  - split; [apply reachable_serveAll, reachable_init|reflexivity].
Qed.

Lemma activities_of_successful_verification_witness :
  map a_action
      (emitted (emptyStorage DatabaseStorage)
         (snd (serve demoScrypt demoLower env0 anonymous
                 (CallGoogleCallback (OAuthProfile profile0))
                     (emptyStorage DatabaseStorage))))
  = ["register"; "login"] /\
  map a_action
      (emitted (serveAll demoScrypt demoLower trace_alice (emptyStorage DatabaseStorage))
         (snd (serve demoScrypt demoLower env0 anonymous (CallLogin "alice" "secret1")
                     (serveAll demoScrypt demoLower trace_alice (emptyStorage DatabaseStorage)))))
  = ["login"].
Proof.
  split.
  - destruct (activities_of_successful_verification demoScrypt demoLower env0
                (emptyStorage DatabaseStorage) anonymous
                (fst (serve demoScrypt demoLower env0 anonymous
                            (CallGoogleCallback (OAuthProfile profile0))
                            (emptyStorage DatabaseStorage)))
                (snd (serve demoScrypt demoLower env0 anonymous
                            (CallGoogleCallback (OAuthProfile profile0))
                            (emptyStorage DatabaseStorage))))
      as [_ [_ [Hgoogle _]]].
    apply (Hgoogle profile0); reflexivity.
  - destruct (activities_of_successful_verification demoScrypt demoLower env0
                (serveAll demoScrypt demoLower trace_alice (emptyStorage DatabaseStorage)) anonymous
                (fst (serve demoScrypt demoLower env0 anonymous (CallLogin "alice" "secret1")
                            (serveAll demoScrypt demoLower trace_alice
                               (emptyStorage DatabaseStorage))))
                (snd (serve demoScrypt demoLower env0 anonymous (CallLogin "alice" "secret1")
                            (serveAll demoScrypt demoLower trace_alice
                               (emptyStorage DatabaseStorage)))))
      as [Hlogin _].
    apply (Hlogin "alice" "secret1"); vm_compute; reflexivity.
Defined.

(** C7, as claimed, fails: the first callback for a Google profile succeeds
    and appends two records, "register" and "login". *)
Lemma one_record_per_verification_counterexample :
  body (fst (serve demoScrypt demoLower env0 anonymous (CallGoogleCallback (OAuthProfile profile0))
                   (emptyStorage DatabaseStorage))) = Redirect "/" /\
  map a_action
      (emitted (emptyStorage DatabaseStorage)
         (snd (serve demoScrypt demoLower env0 anonymous
                 (CallGoogleCallback (OAuthProfile profile0))
                     (emptyStorage DatabaseStorage))))
  = ["register"; "login"].
Proof. split; reflexivity. Qed.

Lemma changePassword_only_own_password_witness :
  serve demoScrypt demoLower env0 adminRequest (CallChangePassword (Some 2) "admin123" "hacked")
        (serveAll demoScrypt demoLower trace_admin (emptyStorage DatabaseStorage))
  = (json 403 (JsonMessage "Acesso negado. Você só pode alterar sua própria senha."),
     serveAll demoScrypt demoLower trace_admin (emptyStorage DatabaseStorage)) /\
  status (fst (serve demoScrypt demoLower env0 adminRequest
                     (CallUpdateProfile (Some 2) (Some (Some "Robert")) None None)
                     (serveAll demoScrypt demoLower trace_admin (emptyStorage DatabaseStorage))))
  <> 403.
Proof.
  edestruct (changePassword_only_own_password demoScrypt demoLower env0
               (serveAll demoScrypt demoLower trace_admin (emptyStorage DatabaseStorage))
               adminRequest) as [Hdenied Hprofile].
  - vm_compute. reflexivity.
  - instantiate (1 := Some 2). vm_compute. discriminate.
  - split; [apply Hdenied|]. apply Hprofile. reflexivity.
Defined.

(** ** Concrete runs of the further properties *)

Lemma hashPassword_differs_with_salt_witness :
  hashPassword demoScrypt salt0 "secret1" <> hashPassword demoScrypt [x01] "secret1".
Proof. apply hashPassword_differs_with_salt. discriminate. Defined.

Lemma hashPassword_decodes_witness :
  String.length (hashPassword demoScrypt salt0 "secret1") = 161%nat /\
  map Js.bufferFromHex (Js.split "." (hashPassword demoScrypt salt0 "secret1"))
  = [demoScrypt "secret1" (Js.toStringHex salt0) 64; salt0].
Proof. exact (hashPassword_decodes demoScrypt demoScrypt_length salt0 "secret1"). Defined.

Lemma logout_keeps_other_sessions_witness :
  identity 1000 (mkRequest (Some 2))
    (snd (serve demoScrypt demoLower env0 adminRequest CallLogout
            (serveAll demoScrypt demoLower trace_admin (emptyStorage MemStorage))))
  = identity 1000 (mkRequest (Some 2))
      (serveAll demoScrypt demoLower trace_admin (emptyStorage MemStorage)).
Proof. apply logout_keeps_other_sessions. discriminate. Defined.

Lemma cookie_resolves_to_user_witness :
  (exists u1,
      account u1 = (1, "alice", Local, None, 1000) /\
      serve demoScrypt demoLower env0 (mkRequest (Some 1)) CallCurrentUser
            (serveAll demoScrypt demoLower trace_beside_alice
               (serveAll demoScrypt demoLower trace_alice
                  (emptyStorage DatabaseStorage)))
      = (json 200 (publicUser u1),
         serveAll demoScrypt demoLower trace_beside_alice
           (serveAll demoScrypt demoLower trace_alice
              (emptyStorage DatabaseStorage)))) /\
  serve demoScrypt demoLower env0 (mkRequest (Some 2)) CallCurrentUser
        (snd (serve demoScrypt demoLower env0 (mkRequest (Some 1)) CallLogout
                (serveAll demoScrypt demoLower trace_alice
                   (emptyStorage DatabaseStorage))))
  = (json 401 (JsonMessage "Não autenticado"),
     snd (serve demoScrypt demoLower env0 (mkRequest (Some 1)) CallLogout
            (serveAll demoScrypt demoLower trace_alice
               (emptyStorage DatabaseStorage)))).
Proof.
  split.
  - destruct (cookie_resolves_to_user demoScrypt demoLower DatabaseStorage
                (emptyStorage DatabaseStorage) env0 anonymous
                (CallRegister "alice" "alice@x.com" "secret1" None)
                (fst (serve demoScrypt demoLower env0 anonymous
                        (CallRegister "alice" "alice@x.com" "secret1" None)
                        (emptyStorage DatabaseStorage)))
                (serveAll demoScrypt demoLower trace_alice
                   (emptyStorage DatabaseStorage)) 1)
      as [u [Hin [_ Hlater]]].
    + apply reachable_init.
    + apply surjective_pairing.
    + reflexivity.
    + destruct (Hlater trace_beside_alice env0) as [u1 [Hacc Hrun]];
        [reflexivity|reflexivity|].
      exists u1. split; [|exact Hrun]. rewrite Hacc.
      vm_compute in Hin. destruct Hin as [<-|[]]. reflexivity.
  - apply (cookie_resolves_to_user demoScrypt demoLower DatabaseStorage
             (serveAll demoScrypt demoLower trace_alice
                (emptyStorage DatabaseStorage))
             env0 (mkRequest (Some 1)) CallLogout
             (fst (serve demoScrypt demoLower env0 (mkRequest (Some 1)) CallLogout
                     (serveAll demoScrypt demoLower trace_alice
                        (emptyStorage DatabaseStorage))))
             _ 2).
    + apply reachable_serveAll, reachable_init.
    + apply surjective_pairing.
    + reflexivity.
Defined.

Lemma logout_idempotent_witness :
  exists st1,
    serve demoScrypt demoLower env0 adminRequest CallLogout
          (serveAll demoScrypt demoLower trace_admin (emptyStorage MemStorage))
    = (mkResponse 200 (Text "OK") (Some 3), st1) /\
    serve demoScrypt demoLower env0 (mkRequest (Some 3)) CallCurrentUser st1
    = (json 401 (JsonMessage "Não autenticado"), st1) /\
    map a_action
        (emitted (serveAll demoScrypt demoLower trace_admin
                    (emptyStorage MemStorage)) st1)
    = ["logout"].
Proof.
  destruct (logout_idempotent demoScrypt demoLower env0
              (serveAll demoScrypt demoLower trace_admin (emptyStorage MemStorage))
              adminRequest)
    as [st1 [Hrun [_ [_ [_ [Hnew [_ Hemitted]]]]]]].
  exists st1. split; [exact Hrun|]. split.
  - apply (Hnew MemStorage). apply reachable_serveAll, reachable_init.
  - rewrite Hemitted. reflexivity.
Defined.

Lemma register_then_login_witness :
  exists u t st1,
    role u = RoleUser /\
    serve demoScrypt demoLower env0 anonymous (CallLogin "alice" "secret1")
          (serveAll demoScrypt demoLower trace_alice (emptyStorage DatabaseStorage))
    = (mkResponse 200 (publicUser u) (Some t), st1).
Proof.
  destruct (register_then_login demoScrypt demoLower demoScrypt_length env0
              (emptyStorage DatabaseStorage) anonymous
              "alice" "alice@x.com" "secret1" None
              (fst (serve demoScrypt demoLower env0 anonymous
                          (CallRegister "alice" "alice@x.com" "secret1" None)
                          (emptyStorage DatabaseStorage)))
              (serveAll demoScrypt demoLower trace_alice (emptyStorage DatabaseStorage)))
    as [u [_ [_ [_ [Hrole [_ Hlogin]]]]]].
  - discriminate.
  - discriminate.
  - apply surjective_pairing.
  - reflexivity.
  - destruct (Hlogin env0 anonymous) as [t [st1 Hrun]].
    exists u, t, st1. split; assumption.
Defined.

Lemma changePassword_refusals_witness :
  status (fst (serve demoScrypt demoLower env0 (mkRequest (Some 1))
                     (CallChangePassword (Some 1) "guess" "secret2")
                     (serveAll demoScrypt demoLower trace_two_google
                        (emptyStorage DatabaseStorage))))
  = 400 /\
  snd (serve demoScrypt demoLower env0 (mkRequest (Some 1))
             (CallChangePassword (Some 1) "guess" "secret2")
             (serveAll demoScrypt demoLower trace_two_google (emptyStorage DatabaseStorage)))
  = serveAll demoScrypt demoLower trace_two_google (emptyStorage DatabaseStorage).
Proof.
  edestruct (changePassword_refusals demoScrypt demoLower env0
               (serveAll demoScrypt demoLower trace_two_google (emptyStorage DatabaseStorage))
               (mkRequest (Some 1)))
    with (cur := "guess") (new := "secret2") as [Hprovider _].
  - vm_compute. reflexivity.
  - specialize (Hprovider ltac:(discriminate)).
    change (serve demoScrypt demoLower env0 (mkRequest (Some 1))
              (CallChangePassword (Some 1) "guess" "secret2")
              (serveAll demoScrypt demoLower trace_two_google (emptyStorage DatabaseStorage))
            = (json 400 (JsonMessage
                 "Não é possível alterar a senha para contas de google. Use o provedor de autenticação original."),
               serveAll demoScrypt demoLower trace_two_google (emptyStorage DatabaseStorage)))
      in Hprovider.
    rewrite Hprovider. split; reflexivity.
Defined.

Lemma changePassword_then_login_witness :
  status (fst (serve demoScrypt demoLower env0 anonymous (CallLogin "alice" "secret2")
                 (snd (serve demoScrypt demoLower env0 (mkRequest (Some 1))
                         (CallChangePassword (Some 1) "secret1" "secret2")
                         (serveAll demoScrypt demoLower trace_alice
                            (emptyStorage DatabaseStorage))))))
  = 200.
Proof.
  edestruct (changePassword_then_login demoScrypt demoLower demoScrypt_length DatabaseStorage
               (serveAll demoScrypt demoLower trace_alice (emptyStorage DatabaseStorage))
               env0 (mkRequest (Some 1)))
    with (cur := "secret1") (new := "secret2")
         (resp := fst (serve demoScrypt demoLower env0 (mkRequest (Some 1))
                         (CallChangePassword (Some 1) "secret1" "secret2")
                         (serveAll demoScrypt demoLower trace_alice
                            (emptyStorage DatabaseStorage))))
         (st' := snd (serve demoScrypt demoLower env0 (mkRequest (Some 1))
                        (CallChangePassword (Some 1) "secret1" "secret2")
                        (serveAll demoScrypt demoLower trace_alice (emptyStorage DatabaseStorage))))
         (env1 := env0) (req1 := anonymous)
    as [Hnew _].
  - apply reachable_serveAll, reachable_init.
  - vm_compute. reflexivity.
  - right. intros u Hin _. vm_compute in Hin. destruct Hin as [<-|[]]. reflexivity.
  - vm_compute. discriminate.
  - discriminate.
  - apply surjective_pairing.
  - vm_compute. reflexivity.
  - exact Hnew.
Defined.

Lemma googleCallback_provisions_once_witness :
  users (snd (serve demoScrypt demoLower env0 anonymous (CallGoogleCallback (OAuthProfile profile0))
                (snd (serve demoScrypt demoLower env0 anonymous
                        (CallGoogleCallback (OAuthProfile profile0))
                        (emptyStorage DatabaseStorage)))))
  = users (snd (serve demoScrypt demoLower env0 anonymous
                  (CallGoogleCallback (OAuthProfile profile0))
                  (emptyStorage DatabaseStorage))).
Proof.
  apply (googleCallback_provisions_once demoScrypt demoLower env0 (emptyStorage DatabaseStorage)
           anonymous profile0
           (fst (serve demoScrypt demoLower env0 anonymous
                   (CallGoogleCallback (OAuthProfile profile0))
                   (emptyStorage DatabaseStorage)))).
  - discriminate.
  - apply surjective_pairing.
  - reflexivity.
Defined.

Lemma google_identity_unique_witness :
  In (provisioned demoLower 1 1000 profile0)
     (users (serveAll demoScrypt demoLower trace_two_google (emptyStorage DatabaseStorage))) /\
  providerId (provisioned demoLower 1 1000 profile0) = Some "108" /\
  provisioned demoLower 1 1000 profile0 = provisioned demoLower 1 1000 profile0.
Proof.
  assert (Hin : In (provisioned demoLower 1 1000 profile0)
                   (users (serveAll demoScrypt demoLower trace_two_google
                             (emptyStorage DatabaseStorage)))).
  { vm_compute. left. reflexivity. }
  split; [exact Hin|]. split; [reflexivity|].
  apply (google_identity_unique demoScrypt demoLower DatabaseStorage
           (serveAll demoScrypt demoLower trace_two_google (emptyStorage DatabaseStorage))
           _ _ "108").
  - apply reachable_serveAll, reachable_init.
  - exact Hin.
  - exact Hin.
  - reflexivity.
  - reflexivity.
  - reflexivity.
  - reflexivity.
Defined.

Lemma no_admin_without_grant_witness :
  noAdmin (snd (serve demoScrypt demoLower env0 (mkRequest (Some 1)) (CallMakeAdmin (Some 1))
                  (serveAll demoScrypt demoLower trace_alice (emptyStorage DatabaseStorage)))).
Proof.
  apply no_admin_without_grant.
  - reflexivity.
  - intros u Hin. vm_compute in Hin. destruct Hin as [<-|[]]. reflexivity.
Defined.


Lemma updateProfile_refusals_witness :
  serve demoScrypt demoLower env0 (mkRequest (Some 2))
        (CallUpdateProfile (Some 1) (Some (Some "Eve")) None None)
        (serveAll demoScrypt demoLower trace_admin (emptyStorage DatabaseStorage))
  = (json 403 (JsonMessage "Acesso negado. Você só pode atualizar seu próprio perfil."),
     serveAll demoScrypt demoLower trace_admin (emptyStorage DatabaseStorage)).
Proof.
  edestruct (updateProfile_refusals demoScrypt demoLower env0
               (serveAll demoScrypt demoLower trace_admin (emptyStorage DatabaseStorage))
               (mkRequest (Some 2)))
    with (target := Some 1) (b_name := Some (Some "Eve"))
         (b_email := @None string) (b_avatarUrl := @None (option string))
    as [Hdenied _].
  - vm_compute. reflexivity.
  - apply Hdenied; discriminate.
Defined.


Lemma updateNotifications_stores_nothing_witness :
  fst (updateNotifications adminRequest (Some 2) "{email: false}" env0
         (serveAll demoScrypt demoLower trace_admin (emptyStorage DatabaseStorage)))
  = Ok (403, NotificationsMessage
               "Acesso negado. Você só pode atualizar suas próprias preferências.").
Proof.
  edestruct (updateNotifications_stores_nothing env0
               (serveAll demoScrypt demoLower trace_admin (emptyStorage DatabaseStorage))
               adminRequest (Some 2) "{email: false}") as [_ Hself].
  erewrite Hself; [|vm_compute; reflexivity]. reflexivity.
Defined.

Lemma devLogin_reuses_account_witness :
  fst (serve demoScrypt demoLower env0 anonymous
         (CallDevLogin (Some "alice@x.com") None (Some "true"))
         (serveAll demoScrypt demoLower trace_alice (emptyStorage DatabaseStorage)))
  = mkResponse 302 (Redirect "/") (Some 2) /\
  userPart (snd (serve demoScrypt demoLower env0 anonymous
                   (CallDevLogin (Some "alice@x.com") None (Some "true"))
                   (serveAll demoScrypt demoLower trace_alice (emptyStorage DatabaseStorage))))
  = userPart (serveAll demoScrypt demoLower trace_alice (emptyStorage DatabaseStorage)).
Proof.
  edestruct (devLogin_reuses_account demoScrypt demoLower env0
               (serveAll demoScrypt demoLower trace_alice (emptyStorage DatabaseStorage))
               anonymous (Some "alice@x.com") None (Some "true"))
    as [Hresp [Hpart _]].
  - discriminate.
  - vm_compute. reflexivity.
  - split; [exact Hresp|exact Hpart].
Defined.

Lemma createAdmin_promotes_name_holder_witness :
  status (fst (serve demoScrypt demoLower env0 anonymous CallCreateAdmin
                 (snd (serve demoScrypt demoLower env0 anonymous
                         (CallRegister "admin" "eve@x.com" "secret1" None)
                         (emptyStorage DatabaseStorage))))) = 200 /\
  exists u,
    email u = "eve@x.com" /\
    find (hasId (id u))
         (users (snd (serve demoScrypt demoLower env0 anonymous CallCreateAdmin
                        (snd (serve demoScrypt demoLower env0 anonymous
                                (CallRegister "admin" "eve@x.com" "secret1" None)
                                (emptyStorage DatabaseStorage))))))
    = Some (withRole RoleAdmin u).
Proof.
  edestruct (createAdmin_promotes_name_holder demoScrypt demoLower DatabaseStorage
               (snd (serve demoScrypt demoLower env0 anonymous
                       (CallRegister "admin" "eve@x.com" "secret1" None)
                       (emptyStorage DatabaseStorage)))
               env0 anonymous) as [Hstatus [_ [_ [u [Hin [_ [Hfind _]]]]]]].
  - apply reachable_serve, reachable_init.
  - vm_compute. left. reflexivity.
  - reflexivity.
  - split; [exact Hstatus|]. exists u. split; [|exact Hfind].
    vm_compute in Hin. destruct Hin as [<-|[]]. reflexivity.
Defined.

Lemma createAdmin_default_credentials_witness :
  exists u t st1,
    role u = RoleAdmin /\
    serve demoScrypt demoLower env0 anonymous (CallLogin "admin" "admin123")
          (snd (serve demoScrypt demoLower env0 anonymous CallCreateAdmin
                  (emptyStorage DatabaseStorage)))
    = (mkResponse 200 (publicUser u) (Some t), st1).
Proof.
  destruct (createAdmin_default_credentials demoScrypt demoLower demoScrypt_length env0
              (emptyStorage DatabaseStorage) anonymous)
    as [u [_ [_ [Hrole Hlogin]]]].
  - reflexivity.
  - reflexivity.
  - destruct (Hlogin env0 anonymous) as [t [st1 Hrun]].
    exists u, t, st1. split; assumption.
Defined.


Lemma getUser_finds_stored_user_witness :
  getUser (id (registered demoScrypt 1 1000 salt0 "alice" "alice@x.com" "secret1" None)) env0
          (serveAll demoScrypt demoLower trace_alice (emptyStorage DatabaseStorage))
  = (Ok (Some (registered demoScrypt 1 1000 salt0 "alice" "alice@x.com" "secret1" None)),
     serveAll demoScrypt demoLower trace_alice (emptyStorage DatabaseStorage)) /\
  id (registered demoScrypt 1 1000 salt0 "alice" "alice@x.com" "secret1" None)
  < userId (serveAll demoScrypt demoLower trace_alice (emptyStorage DatabaseStorage)).
Proof.
  apply (getUser_finds_stored_user demoScrypt demoLower DatabaseStorage).
  - apply reachable_serveAll, reachable_init.
  - vm_compute. left. reflexivity.
Defined.

Lemma devLogin_refused_by_provider_enum_witness :
  serve demoScrypt demoLower env0 anonymous (CallDevLogin (Some "dev@a.com") None None)
        (emptyStorage DatabaseStorage)
  = (redirect "/auth?error=dev_error", emptyStorage DatabaseStorage).
Proof.
  apply devLogin_refused_by_provider_enum.
  - reflexivity.
  - discriminate.
  - reflexivity.
Defined.

Lemma devLogin_creates_account_witness :
  exists u t,
    fst (serve demoScrypt demoLower env0 anonymous
           (CallDevLogin (Some "dev@a.com") None (Some "true"))
           (emptyStorage MemStorage))
    = mkResponse 302 (Redirect "/") (Some t) /\
    role u = RoleAdmin /\
    fst (serve demoScrypt demoLower env0 (mkRequest (Some t)) CallCurrentUser
           (snd (serve demoScrypt demoLower env0 anonymous
                   (CallDevLogin (Some "dev@a.com") None (Some "true"))
                   (emptyStorage MemStorage))))
    = json 200 (publicUser u).
Proof.
  destruct (devLogin_creates_account demoScrypt demoLower MemStorage (emptyStorage MemStorage)
              env0 anonymous (Some "dev@a.com") None (Some "true"))
    as [u [t [Hresp [_ [_ [_ [_ [Hrole Hcurrent]]]]]]]].
  - apply reachable_init.
  - reflexivity.
  - discriminate.
  - reflexivity.
  - exists u, t. split; [exact Hresp|]. split; [exact Hrole|].
    apply Hcurrent. reflexivity.
Defined.

Lemma makeAdmin_reaches_open_sessions_witness :
  exists u,
    identity 1000 (mkRequest (Some 2))
      (snd (serve demoScrypt demoLower env0 adminRequest (CallMakeAdmin (Some 2))
              (serveAll demoScrypt demoLower trace_admin (emptyStorage MemStorage))))
    = Some u /\
    role u = RoleAdmin.
Proof.
  edestruct (makeAdmin_reaches_open_sessions demoScrypt demoLower env0
               (serveAll demoScrypt demoLower trace_admin (emptyStorage MemStorage))
               adminRequest)
    with (tnow := 1000) (other := mkRequest (Some 2)) as [Hidentity Hrole].
  - vm_compute. reflexivity.
  - reflexivity.
  - vm_compute. reflexivity.
  - eexists. split; [exact Hidentity|exact Hrole].
Defined.
